(** * bancho.js: the connection engine of [BanchoClient] and [BanchoChannel]

    A shallow embedding of [lib/BanchoClient.js] and [lib/BanchoChannel.js].
    Objects with identity live in a heap that is addressed by allocation
    index, and every side effect (socket writes, emitted events, handler
    dispatch) is appended to an effect log.

    The strings of the client are modelled as [string]: strings of code
    units U+0000..U+00FF, which covers the protocol text. What depends on
    code units beyond them, the normalization of a user name and the
    decoding of the bytes of a read, is embedded a second time over
    strings of 16-bit code units, in the module [Utf16]; the two
    embeddings are proved to agree where both apply. *)

From Stdlib Require Import ZArith Lia Ascii String List Bool.
From stdpp Require Import base option gmap strings list.
Import ListNotations.

Open Scope string_scope.
Open Scope Z_scope.

(** ** String built-ins of the host language *)

Module Js.

(** [s.startsWith(p)], used to define [indexOf]. *)
Fixpoint startsWith (p s : string) : bool :=
  match p, s with
  | EmptyString, _ => true
  | String _ _, EmptyString => false
  | String a p', String b s' => Ascii.eqb a b && startsWith p' s'
  end.

(** [s.indexOf(needle)]: position of the first occurrence, [-1] if none. *)
Fixpoint indexOf (needle s : string) : Z :=
  if startsWith needle s then 0
  else match s with
       | EmptyString => -1
       | String _ s' =>
           let r := indexOf needle s' in
           if r =? -1 then -1 else r + 1
       end.

Fixpoint take (n : nat) (s : string) : string :=
  match n, s with
  | O, _ => EmptyString
  | S _, EmptyString => EmptyString
  | S n', String c s' => String c (take n' s')
  end.

Fixpoint drop (n : nat) (s : string) : string :=
  match n, s with
  | O, _ => s
  | S _, EmptyString => EmptyString
  | S n', String _ s' => drop n' s'
  end.

(** An index argument of [substring] is clamped into [0, length]. *)
Definition clamp (s : string) (i : Z) : nat :=
  Z.to_nat (Z.max 0 (Z.min i (Z.of_nat (String.length s)))).

(** [s.substring(a, b)]: the arguments are clamped and swapped when
    [a > b]. *)
Definition substring (s : string) (a b : Z) : string :=
  let a' := clamp s a in
  let b' := clamp s b in
  let lo := Nat.min a' b' in
  let hi := Nat.max a' b' in
  take (hi - lo) (drop lo s).

(** [s.substring(a)]: up to the end of the string. *)
Definition substringFrom (s : string) (a : Z) : string :=
  substring s a (Z.of_nat (String.length s)).

(** [s.replace(/c/g, r)] for a one-character pattern. *)
Fixpoint replaceAll (c : ascii) (r : string) (s : string) : string :=
  match s with
  | EmptyString => EmptyString
  | String x s' =>
      if Ascii.eqb x c then r ++ replaceAll c r s'
      else String x (replaceAll c r s')
  end.

(** [s.split(sep)] for a one-character separator; never empty. *)
Fixpoint split (sep : ascii) (s : string) : list string :=
  match s with
  | EmptyString => [EmptyString]
  | String x s' =>
      if Ascii.eqb x sep then EmptyString :: split sep s'
      else match split sep s' with
           | h :: t => String x h :: t
           | [] => [String x EmptyString]
           end
  end.

(** [a.join(sep)]. *)
Fixpoint join (sep : string) (l : list string) : string :=
  match l with
  | [] => EmptyString
  | [x] => x
  | x :: t => x ++ sep ++ join sep t
  end.

(** Lower-casing of one code unit in U+0000..U+00FF: the Basic Latin
    capitals and the Latin-1 capitals (U+00C0..U+00DE without the
    multiplication sign U+00D7) move up by 32. Up to U+00FF lower-casing
    goes unit by unit and keeps the length; beyond, it does neither, see
    [Utf16.unicodeLower]. *)
Definition lowerChar (c : ascii) : ascii :=
  let n := nat_of_ascii c in
  if ((65 <=? n) && (n <=? 90))%nat
     || ((192 <=? n) && (n <=? 222) && negb (n =? 215))%nat
  then ascii_of_nat (n + 32) else c.

(** [s.toLowerCase()] on a string of code units up to U+00FF. *)
Fixpoint toLowerCase (s : string) : string :=
  match s with
  | EmptyString => EmptyString
  | String c s' => String (lowerChar c) (toLowerCase s')
  end.

(** [a[i]] on an array: [undefined] (here [None]) out of range. *)
Definition at_ {A} (l : list A) (i : nat) : option A := nth_error l i.

(** [a.indexOf(x)] on an array of strings, by strict equality: [undefined]
    equals no string. *)
Fixpoint arrayIndexOf (l : list string) (x : option string) : Z :=
  match l with
  | [] => -1
  | y :: t =>
      if match x with Some v => String.eqb y v | None => false end then 0
      else let r := arrayIndexOf t x in
           if r =? -1 then -1 else r + 1
  end.

(** [a.shift()]: what is left of the array. *)
Definition shift {A} (l : list A) : list A := tl l.

Definition LF : ascii := "010"%char.
Definition CR : ascii := "013"%char.
Definition BEL : ascii := "007"%char.

(** One-character strings. *)
Definition str (c : ascii) : string := String c EmptyString.

End Js.

(** ** Values, errors and the result of a call *)

(** [ConnectStates]: four distinct symbols (declared in [index.d.ts]). *)
Inductive ConnectState := Disconnected | Connecting | Reconnecting | Connected.

#[global] Instance ConnectState_eq_dec : EqDecision ConnectState.
Proof. solve_decision. Defined.

(** An argument passed where a connect state is expected: one of the four
    symbols, or any other value. *)
Inductive StateArg := IsState (s : ConnectState) | NotAState.

#[global] Instance StateArg_eq_dec : EqDecision StateArg.
Proof. solve_decision. Defined.

(** A thrown or rejected [Error], identified by its message. *)
Inductive Error := MkError (message : string) | TypeError (message : string).

#[global] Instance Error_eq_dec : EqDecision Error.
Proof. solve_decision. Defined.

(** A call either returns normally or throws. *)
Inductive result (A : Type) := Ok (a : A) | Throw (e : Error).
Arguments Ok {A} a.
Arguments Throw {A} e.

(** Heap addresses: the index at which an object was allocated. *)
Abbreviation loc := nat.

(** What a property read or a call can yield. [VNative] stands for the
    members every plain object inherits from [Object.prototype]. *)
Inductive value :=
| VUndefined
| VRef (l : loc)
| VNative (name : string).

#[global] Instance value_eq_dec : EqDecision value.
Proof. solve_decision. Defined.

(** The two callback slots of a channel that [_joinOrPart] is called with. *)
Inductive CallbackProp := joinCallbackProp | partCallbackProp.

(** Modelled from the spec: BanchoUser (lib/BanchoUser.js is not part of the
    sources at hand): a user carries its display name and an optional
    numeric id. *)
Record BanchoUser := mkUser {
  ircUsername : string;
  userId : option Z
}.

(** The fields a [BanchoChannel] is constructed with. *)
Record BanchoChannel := mkChannel {
  name : string;
  topic : string;
  joined : bool;
  joinCallback : option loc;
  partCallback : option loc;
  channelMembers : gmap string loc;
  listenersInitialized : bool
}.

Inductive PromiseState := Pending | Resolved | Rejected (e : Error).

(** The function objects the code creates. *)
Inductive Closure :=
| ConnectCallback (promise : loc)
| JoinPartCallback (channel : loc) (prop : CallbackProp) (promise : loc).

(** Modelled from the spec: BanchoMultiplayerChannel
    (lib/BanchoMultiplayerChannel.js is not part of the sources at hand):
    the specialised channel of a game lobby is built on top of the generic
    channel, so an object of this class carries the fields of a
    [BanchoChannel]; what the class adds to them is left out. *)
Definition BanchoMultiplayerChannel : Type := BanchoChannel.

(** Objects with identity, each with its class. *)
Inductive Obj :=
| OUser (u : BanchoUser)
| OChannel (c : BanchoChannel)
| OMultiplayerChannel (c : BanchoMultiplayerChannel)
| OPromise (st : PromiseState)
| OFunction (f : Closure)
| OSocket (timeout : Z).

(** Events of the client's emitter. *)
Inductive Event :=
| EvConnected
| EvDisconnected (err : option Error)
| EvState (s : ConnectState) (err : option Error)
| EvError (err : Error).

(** Observable effects, logged in the order they happen. *)
Inductive Effect :=
| SocketWrite (sock : loc) (data : string)
| SocketConnect (sock : loc) (port : Z) (host : string)
| Emit (ev : Event)
| HandleCommand (verb : option string) (splits : list string).

(** The rate limiter is only constructed here. *)
Record BanchoRateLimiter := mkRateLimiter {
  limiterWindow : Z;
  normalCapacity : Z;
  addressedCapacity : Z
}.

(** The fields of a [BanchoClient], and with them the heap and the effect
    log of the program it runs in. *)
Record BanchoClient := mkClient {
  maxListeners : nat;
  username : string;
  password : string;
  host : string;
  port : Z;
  client : option loc;
  connectState : ConnectState;
  reconnect : bool;
  reconnectTimeout : option nat;
  connectCallback : option loc;
  joinCallbacks : list loc;
  partCallbacks : list loc;
  osuApi : option string;
  users : gmap string loc;
  usersById : gmap Z loc;
  channels : gmap string loc;
  rateLimiter : BanchoRateLimiter;
  ignoreClose : bool;
  heap : list Obj;
  effects : list Effect
}.

Definition set_connectState (s : ConnectState) (c : BanchoClient) :=
  mkClient (maxListeners c) (username c) (password c) (host c) (port c)
    (client c) s (reconnect c) (reconnectTimeout c) (connectCallback c)
    (joinCallbacks c) (partCallbacks c) (osuApi c) (users c) (usersById c)
    (channels c) (rateLimiter c) (ignoreClose c) (heap c) (effects c).

Definition set_client (k : option loc) (c : BanchoClient) :=
  mkClient (maxListeners c) (username c) (password c) (host c) (port c)
    k (connectState c) (reconnect c) (reconnectTimeout c) (connectCallback c)
    (joinCallbacks c) (partCallbacks c) (osuApi c) (users c) (usersById c)
    (channels c) (rateLimiter c) (ignoreClose c) (heap c) (effects c).

Definition set_reconnect (b : bool) (c : BanchoClient) :=
  mkClient (maxListeners c) (username c) (password c) (host c) (port c)
    (client c) (connectState c) b (reconnectTimeout c) (connectCallback c)
    (joinCallbacks c) (partCallbacks c) (osuApi c) (users c) (usersById c)
    (channels c) (rateLimiter c) (ignoreClose c) (heap c) (effects c).

Definition set_connectCallback (k : option loc) (c : BanchoClient) :=
  mkClient (maxListeners c) (username c) (password c) (host c) (port c)
    (client c) (connectState c) (reconnect c) (reconnectTimeout c) k
    (joinCallbacks c) (partCallbacks c) (osuApi c) (users c) (usersById c)
    (channels c) (rateLimiter c) (ignoreClose c) (heap c) (effects c).

Definition set_users (m : gmap string loc) (c : BanchoClient) :=
  mkClient (maxListeners c) (username c) (password c) (host c) (port c)
    (client c) (connectState c) (reconnect c) (reconnectTimeout c)
    (connectCallback c) (joinCallbacks c) (partCallbacks c) (osuApi c) m
    (usersById c) (channels c) (rateLimiter c) (ignoreClose c) (heap c)
    (effects c).

Definition set_channels (m : gmap string loc) (c : BanchoClient) :=
  mkClient (maxListeners c) (username c) (password c) (host c) (port c)
    (client c) (connectState c) (reconnect c) (reconnectTimeout c)
    (connectCallback c) (joinCallbacks c) (partCallbacks c) (osuApi c)
    (users c) (usersById c) m (rateLimiter c) (ignoreClose c) (heap c)
    (effects c).

Definition set_heap (h : list Obj) (c : BanchoClient) :=
  mkClient (maxListeners c) (username c) (password c) (host c) (port c)
    (client c) (connectState c) (reconnect c) (reconnectTimeout c)
    (connectCallback c) (joinCallbacks c) (partCallbacks c) (osuApi c)
    (users c) (usersById c) (channels c) (rateLimiter c) (ignoreClose c) h
    (effects c).

Definition set_effects (e : list Effect) (c : BanchoClient) :=
  mkClient (maxListeners c) (username c) (password c) (host c) (port c)
    (client c) (connectState c) (reconnect c) (reconnectTimeout c)
    (connectCallback c) (joinCallbacks c) (partCallbacks c) (osuApi c)
    (users c) (usersById c) (channels c) (rateLimiter c) (ignoreClose c)
    (heap c) e.

(** [new C(...)]: the object is placed at the end of the heap. *)
Definition alloc (o : Obj) (c : BanchoClient) : loc * BanchoClient :=
  (length (heap c), set_heap (heap c ++ [o]) c).

(** In-place update of the object at [l]. *)
Definition store (l : loc) (o : Obj) (c : BanchoClient) : BanchoClient :=
  set_heap (<[l := o]> (heap c)) c.

Definition log (e : Effect) (c : BanchoClient) : BanchoClient :=
  set_effects (effects c ++ [e]) c.

(** [this.emit(ev, ...)]. *)
Definition emit (ev : Event) (c : BanchoClient) : BanchoClient :=
  log (Emit ev) c.

(** Own-or-inherited property read [o[k]] on a plain object [{}] used as a
    map: a key that is not an own property is looked up on
    [Object.prototype]. *)
Definition Object_prototype : list string :=
  [ "constructor"; "__defineGetter__"; "__defineSetter__"; "hasOwnProperty";
    "__lookupGetter__"; "__lookupSetter__"; "isPrototypeOf";
    "propertyIsEnumerable"; "toString"; "valueOf"; "__proto__";
    "toLocaleString" ].

Definition get (o : gmap string loc) (k : string) : value :=
  match o !! k with
  | Some l => VRef l
  | None =>
      if existsb (String.eqb k) Object_prototype then VNative k
      else VUndefined
  end.

(** Truthiness of a property value: objects and functions are truthy. *)
Definition truthy (v : value) : bool :=
  match v with
  | VUndefined => false
  | _ => true
  end.

(** ** [BanchoClient] *)

Definition ignoredSplits : list string :=
  [ "312"; "333"; "366"; "372"; "375"; "376"; "QUIT" ].

(** [!x] for an optional string argument: [undefined] and the empty string
    are falsy. *)
Definition falsy (x : option string) : bool :=
  match x with
  | None => true
  | Some s => String.eqb s ""
  end.

(** [new BanchoClient(username, password, host, port, apiKey)]; an argument
    left out is [None]. *)
Definition constructor (username password host : option string)
    (port : option Z) (apiKey : option string) : result BanchoClient :=
  let maxListeners := 50%nat in
  if falsy username || falsy password then
    Throw (MkError
      "You gotta gimme an username and a password to connect to Bancho dumbass")
  else
    Ok {| maxListeners := maxListeners;
          username := default "" username;
          password := default "" password;
          host := default "irc.ppy.sh" host;
          port := default 6667 port;
          client := None;
          connectState := Disconnected;
          reconnect := true;
          reconnectTimeout := None;
          connectCallback := None;
          joinCallbacks := [];
          partCallbacks := [];
          osuApi := if falsy apiKey then None else apiKey;
          users := ∅;
          usersById := ∅;
          channels := ∅;
          rateLimiter := mkRateLimiter 60000 (300 - 30) (60 - 6);
          ignoreClose := false;
          heap := [];
          effects := [] |}.

(** [initSocket()]: a new socket with a 60 s idle timeout replaces
    [this.client]; its listeners are the functions below. *)
Definition initSocket (c : BanchoClient) : BanchoClient :=
  let (sock, c1) := alloc (OSocket 60000) c in
  set_client (Some sock) c1.

(** [send(data, throwIfDisconnected = true)]. *)
Definition send (data : string) (throwIfDisconnected : bool)
    (c : BanchoClient) : result unit * BanchoClient :=
  if bool_decide (connectState c = Connected)
     || bool_decide (connectState c = Connecting) then
    match client c with
    | Some sock =>
        (Ok tt, log (SocketWrite sock (data ++ Js.str Js.CR ++ Js.str Js.LF)) c)
    | None => (Throw (TypeError "this.client is null"), c)
    end
  else if throwIfDisconnected then
    (Throw (MkError "Currently disconnected!"), c)
  else (Ok tt, c).

Definition isConnected (c : BanchoClient) : bool :=
  bool_decide (connectState c = Connected).

Definition isDisconnected (c : BanchoClient) : bool :=
  bool_decide (connectState c = Disconnected).

(** [updateState(newConnectState, err)]. *)
Definition updateState (newConnectState : StateArg) (err : option Error)
    (c : BanchoClient) : result unit * BanchoClient :=
  if bool_decide (newConnectState = IsState (connectState c)) then (Ok tt, c)
  else if bool_decide (newConnectState ≠ IsState Disconnected)
          && bool_decide (newConnectState ≠ IsState Reconnecting)
          && bool_decide (newConnectState ≠ IsState Connecting)
          && bool_decide (newConnectState ≠ IsState Connected) then
    (Throw (MkError "Invalid connect state!"), c)
  else
    match newConnectState with
    | IsState s =>
        let c1 := set_connectState s c in
        let c2 := if isConnected c1 then emit EvConnected c1 else c1 in
        let c3 := if isDisconnected c2 then emit (EvDisconnected err) c2
                  else c2 in
        (Ok tt, emit (EvState (connectState c3) err) c3)
    | NotAState => (Ok tt, c) (* not reached: refused by the test above *)
    end.

(** [getUser(username)]. *)
Definition getUser (username : string) (c : BanchoClient)
    : value * BanchoClient :=
  let username :=
    Js.substring
      (default "" (Js.at_ (Js.split Js.LF (Js.replaceAll " " "_" username)) 0))
      0 28 in
  if truthy (get (users c) (Js.toLowerCase username)) then
    (get (users c) (Js.toLowerCase username), c)
  else
    let (u, c1) := alloc (OUser (mkUser username None)) c in
    (VRef u, set_users (<[Js.toLowerCase username := u]> (users c1)) c1).

(** [new BanchoChannel(banchojs, name)]. *)
Definition newChannel (name : string) : BanchoChannel :=
  {| name := name; topic := ""; joined := false; joinCallback := None;
     partCallback := None; channelMembers := ∅;
     listenersInitialized := false |}.

(** Modelled from the spec: [new BanchoMultiplayerChannel(banchojs, name)]
    (the constructor is not part of the sources at hand): it constructs the
    generic channel it extends; what it sets up beyond it is left out. *)
Definition newMultiplayerChannel (name : string) : BanchoMultiplayerChannel :=
  newChannel name.

(** [getChannel(channelName)]. The third needle of the guard is the one
    character U+0007 (bell): the byte 07 stands between the quotes in the
    source. Of a multiplayer channel only its class and its place in the
    cache come from the source, see [newMultiplayerChannel]. *)
Definition getChannel (channelName : string) (c : BanchoClient)
    : result value * BanchoClient :=
  if negb (Js.indexOf "#" channelName =? 0)
     || negb (Js.indexOf "," channelName =? -1)
     || negb (Js.indexOf (Js.str Js.BEL) channelName =? -1) then
    (Throw (MkError "Invalid channel name!"), c)
  else if truthy (get (channels c) channelName) then
    (Ok (get (channels c) channelName), c)
  else if (Js.indexOf "#mp_" channelName =? 0) && bool_decide (osuApi c ≠ None)
  then
    let (ch, c1) :=
      alloc (OMultiplayerChannel (newMultiplayerChannel channelName)) c in
    (Ok (VRef ch), set_channels (<[channelName := ch]> (channels c1)) c1)
  else
    let (ch, c1) := alloc (OChannel (newChannel channelName)) c in
    (Ok (VRef ch), set_channels (<[channelName := ch]> (channels c1)) c1).

(** [connect()]: the promise it returns lives in the heap. The callback
    given to [client.connect] runs later, see [onSocketConnect]. *)
Definition connect (c : BanchoClient) : loc * BanchoClient :=
  if bool_decide (connectState c = Connected)
     || bool_decide (connectState c = Connecting) then
    alloc (OPromise (Rejected (MkError "Already connected/connecting"))) c
  else
    let (p, c1) := alloc (OPromise Pending) c in
    let (f, c2) := alloc (OFunction (ConnectCallback p)) c1 in
    let c3 := set_connectCallback (Some f) c2 in
    match updateState (IsState Connecting) None c3 with
    | (Ok _, c4) =>
        let c5 := initSocket (set_reconnect true c4) in
        match client c5 with
        | Some sock => (p, log (SocketConnect sock (port c5) (host c5)) c5)
        | None => (p, c5)
        end
    | (Throw e, c4) =>
        (* an executor that throws rejects its promise *)
        (p, store p (OPromise (Rejected e)) c4)
    end.

(** Listener of the socket's connect: the three authentication lines. *)
Definition onSocketConnect (c : BanchoClient) : result unit * BanchoClient :=
  match send ("PASS " ++ password c) true c with
  | (Ok _, c1) =>
      match send ("USER " ++ username c1 ++ " 0 * :" ++ username c1) true c1
      with
      | (Ok _, c2) => send ("NICK " ++ username c2) true c2
      | r => r
      end
  | r => r
  end.

(** *** Command routing *)

(** What a registered handler's [handleCommand(client, verb, splits)] does
    to the client. *)
Definition Handler : Type :=
  option string -> list string -> BanchoClient -> result unit * BanchoClient.

(** [String(x)] of a property key: [undefined] reads the key "undefined". *)
Definition propertyKey (x : option string) : string :=
  default "undefined" x.

Section Router.

(** The verb table of [lib/IrcCommands.js], which the router is handed:
    [IrcCommands k] is the handler found under the key [k], if any. *)
Variable IrcCommands : string -> option Handler.

(** [handleIrcCommand(command)]. *)
Definition handleIrcCommand (command : string) (c : BanchoClient)
    : result unit * BanchoClient :=
  let splits := Js.split " " command in
  if negb (Js.arrayIndexOf ignoredSplits (Js.at_ splits 1) =? -1) then
    (Ok tt, c)
  else if bool_decide (Js.at_ splits 0 = Some "PING") then
    let splits := Js.shift splits in
    send ("PONG " ++ Js.join " " splits) true c
  else
    match IrcCommands (propertyKey (Js.at_ splits 1)) with
    | Some handler =>
        handler (Js.at_ splits 1) splits
          (log (HandleCommand (Js.at_ splits 1) splits) c)
    | None => (Ok tt, c)
    end.

End Router.

(** *** The framer: the socket's data listener *)

Section Framer.

(** [handle command h] is the call [this.handleIrcCommand(command)]: what
    it does to the rest of the program [h], and whether it returns or
    throws. *)
Context {H : Type} (handle : string -> H -> result unit * H).

(** The [while] loop of the listener; [fuel] bounds its iterations and
    [None] means the bound was hit. The loop ends with the buffer that is
    left, or with the exception of a handler call, which leaves the
    listener uncaught. *)
Fixpoint drain (fuel : nat) (unparsedData : string) (h : H)
    : option (result string * H) :=
  match fuel with
  | O => None
  | S fuel' =>
      let index := Js.indexOf (Js.str Js.LF) unparsedData in
      if negb (index =? -1) then
        let command := Js.substring unparsedData 0 index in
        let unparsedData := Js.substringFrom unparsedData (index + 1) in
        match handle command h with
        | (Ok _, h') => drain fuel' unparsedData h'
        | (Throw e, h') => Some (Throw e, h')
        end
      else Some (Ok unparsedData, h)
  end.

(** One [data] event on a socket whose buffer is [unparsedData], from the
    point where the read has been decoded: [data] is the text
    [data.toString()] has given, a text of code units up to U+00FF. The
    listener on the bytes of the read, with their decoding, is
    [Utf16.onData]. Every iteration removes a line terminator, so the loop
    runs at most once per character, and once more to find none. *)
Definition onData (data : string) (unparsedData : string) (h : H)
    : option (result string * H) :=
  let data := Js.replaceAll Js.CR "" data in
  let unparsedData := unparsedData ++ data in
  drain (S (String.length unparsedData)) unparsedData h.

(** The reads of one connection, in order; the buffer starts empty. An
    exception that leaves the listener is uncaught: nothing is read after
    it. *)
Fixpoint onDataAll (chunks : list string) (unparsedData : string) (h : H)
    : option (result string * H) :=
  match chunks with
  | [] => Some (Ok unparsedData, h)
  | data :: rest =>
      match onData data unparsedData h with
      | Some (Ok unparsedData', h') => onDataAll rest unparsedData' h'
      | stopped => stopped
      end
  end.

End Framer.

(** ** [BanchoChannel] *)

Definition channelOf (o : option Obj) : option BanchoChannel :=
  match o with
  | Some (OChannel ch) | Some (OMultiplayerChannel ch) => Some ch
  | _ => None
  end.

(** [this[callbackProp]]. *)
Definition getCallback (prop : CallbackProp) (ch : BanchoChannel)
    : option loc :=
  match prop with
  | joinCallbackProp => joinCallback ch
  | partCallbackProp => partCallback ch
  end.

(** [this[callbackProp] = f]. *)
Definition setCallback (prop : CallbackProp) (f : option loc)
    (ch : BanchoChannel) : BanchoChannel :=
  match prop with
  | joinCallbackProp =>
      mkChannel (name ch) (topic ch) (joined ch) f (partCallback ch)
        (channelMembers ch) (listenersInitialized ch)
  | partCallbackProp =>
      mkChannel (name ch) (topic ch) (joined ch) (joinCallback ch) f
        (channelMembers ch) (listenersInitialized ch)
  end.

(** Write the channel back to its place, keeping its class. *)
Definition storeChannel (this : loc) (ch : BanchoChannel) (c : BanchoClient)
    : BanchoClient :=
  match heap c !! this with
  | Some (OMultiplayerChannel _) => store this (OMultiplayerChannel ch) c
  | _ => store this (OChannel ch) c
  end.

(** [_joinOrPart(action, callbackProp)] on the channel at [this]. *)
Definition _joinOrPart (this : loc) (action : string) (callbackProp : CallbackProp)
    (c : BanchoClient) : result value * BanchoClient :=
  if negb (String.eqb action "JOIN") && negb (String.eqb action "PART") then
    (Throw (MkError "wrong action dumbass"), c)
  else
    match channelOf (heap c !! this) with
    | None => (Throw (TypeError "this is not a channel"), c)
    | Some ch =>
        match getCallback callbackProp ch with
        | Some f => (Ok (VRef f), c)
        | None =>
            let (p, c1) := alloc (OPromise Pending) c in
            match send (action ++ " " ++ name ch) true c1 with
            | (Throw e, c2) =>
                (* an executor that throws rejects its promise *)
                (Ok (VRef p), store p (OPromise (Rejected e)) c2)
            | (Ok _, c2) =>
                let (f, c3) :=
                  alloc (OFunction (JoinPartCallback this callbackProp p)) c2 in
                (Ok (VRef p), storeChannel this (setCallback callbackProp (Some f) ch) c3)
            end
        end
    end.

(** [join()]. *)
Definition join (this : loc) (c : BanchoClient) : result value * BanchoClient :=
  _joinOrPart this "JOIN" joinCallbackProp c.

(** [leave()]. *)
Definition leave (this : loc) (c : BanchoClient) : result value * BanchoClient :=
  _joinOrPart this "PART" partCallbackProp c.

(** A call [f(err)] of the function stored in a callback slot: it settles
    the promise and empties the slot. *)
Definition callCallback (f : loc) (err : option Error) (c : BanchoClient)
    : BanchoClient :=
  match heap c !! f with
  | Some (OFunction (JoinPartCallback this prop p)) =>
      let c1 :=
        match heap c !! p with
        | Some (OPromise Pending) =>
            store p (OPromise (match err with
                               | None => Resolved
                               | Some e => Rejected e
                               end)) c
        | _ => c
        end in
      match channelOf (heap c1 !! this) with
      | Some ch => storeChannel this (setCallback prop None ch) c1
      | None => c1
      end
  | _ => c
  end.

(** ** Timers, socket events and the closing of a connection *)

Definition set_reconnectTimeout (t : option nat) (c : BanchoClient) :=
  mkClient (maxListeners c) (username c) (password c) (host c) (port c)
    (client c) (connectState c) (reconnect c) t (connectCallback c)
    (joinCallbacks c) (partCallbacks c) (osuApi c) (users c) (usersById c)
    (channels c) (rateLimiter c) (ignoreClose c) (heap c) (effects c).

Definition set_ignoreClose (b : bool) (c : BanchoClient) :=
  mkClient (maxListeners c) (username c) (password c) (host c) (port c)
    (client c) (connectState c) (reconnect c) (reconnectTimeout c)
    (connectCallback c) (joinCallbacks c) (partCallbacks c) (osuApi c)
    (users c) (usersById c) (channels c) (rateLimiter c) b (heap c)
    (effects c).

(** A promise is settled once: [resolve] and [reject] do nothing to a
    promise that is no longer pending. *)
Definition settle (p : loc) (st : PromiseState) (c : BanchoClient)
    : BanchoClient :=
  match heap c !! p with
  | Some (OPromise Pending) => store p (OPromise st) c
  | _ => c
  end.

(** [callConnectCallback(arg, erase = true, throwIfNonexistant = false)];
    the callback is the function [connect()] has stored, which rejects its
    promise with a truthy argument and resolves it otherwise. *)
Definition callConnectCallback (arg : option Error) (erase : bool)
    (throwIfNonexistant : bool) (c : BanchoClient)
    : result unit * BanchoClient :=
  match connectCallback c with
  | Some f =>
      let c1 :=
        match heap c !! f with
        | Some (OFunction (ConnectCallback p)) =>
            settle p (match arg with
                      | Some err => Rejected err
                      | None => Resolved
                      end) c
        | _ => c
        end in
      (Ok tt, if erase then set_connectCallback None c1 else c1)
  | None =>
      if throwIfNonexistant then
        (Throw (MkError "Inexistant connect callback!"), c)
      else (Ok tt, c)
  end.

(** What the two kinds of timer of the client do when they fire. *)
Inductive TimerTask := ReconnectTask | ResetIgnoreClose.

Inductive TimerStatus := Armed | Cleared | Fired.

Record Timer := mkTimer {
  delay : Z;
  task : TimerTask;
  status : TimerStatus
}.

(** The client in its environment: the timers set so far, a timer's
    handle being its index, and the sockets destroyed so far. *)
Record Runtime := mkRuntime {
  bancho : BanchoClient;
  timers : list Timer;
  destroyed : list loc
}.

Definition set_bancho (c : BanchoClient) (rt : Runtime) : Runtime :=
  mkRuntime c (timers rt) (destroyed rt).

(** [setTimeout(task, delay)]. *)
Definition setTimeout (tk : TimerTask) (ms : Z) (rt : Runtime)
    : nat * Runtime :=
  (length (timers rt),
   mkRuntime (bancho rt) (timers rt ++ [mkTimer ms tk Armed]) (destroyed rt)).

(** [clearTimeout(t)]: a timer that has fired or was cleared stays as it
    is. *)
Definition clearTimeout (t : nat) (rt : Runtime) : Runtime :=
  match timers rt !! t with
  | Some (mkTimer ms tk Armed) =>
      mkRuntime (bancho rt) (<[t := mkTimer ms tk Cleared]> (timers rt))
        (destroyed rt)
  | _ => rt
  end.

(** [this.client.destroy()]. *)
Definition destroyClient (rt : Runtime) : result unit * Runtime :=
  match client (bancho rt) with
  | Some sock =>
      (Ok tt, mkRuntime (bancho rt) (timers rt) (destroyed rt ++ [sock]))
  | None => (Throw (TypeError "this.client is null"), rt)
  end.

(** [onClose(err)]. *)
Definition onClose (err : Error) (rt : Runtime) : result unit * Runtime :=
  if bool_decide (connectState (bancho rt) = Disconnected) then (Ok tt, rt)
  else if negb (reconnect (bancho rt)) then
    let (r, c1) := updateState (IsState Disconnected) (Some err) (bancho rt) in
    (r, set_bancho c1 rt)
  else
    match updateState (IsState Reconnecting) (Some err) (bancho rt) with
    | (Throw e, c1) => (Throw e, set_bancho c1 rt)
    | (Ok _, c1) =>
        let rt1 := set_bancho c1 rt in
        let rt2 := match reconnectTimeout c1 with
                   | Some t => clearTimeout t rt1
                   | None => rt1
                   end in
        let (t, rt3) := setTimeout ReconnectTask 5000 rt2 in
        (Ok tt, set_bancho (set_reconnectTimeout (Some t) (bancho rt3)) rt3)
    end.

(** The function given to [setTimeout] by [onClose]: a new attempt, with
    the connect callback of the first attempt put back. *)
Definition reconnectTask (rt : Runtime) : Runtime :=
  let c := bancho rt in
  let c1 :=
    if reconnect c then
      let oldCallback := connectCallback c in
      let (_, c') := connect c in
      set_connectCallback oldCallback c'
    else c in
  set_bancho (set_reconnectTimeout None c1) rt.

(** A timer comes due: nothing happens unless it is still armed. *)
Definition fireTimer (t : nat) (rt : Runtime) : Runtime :=
  match timers rt !! t with
  | Some (mkTimer ms tk Armed) =>
      let rt1 := mkRuntime (bancho rt) (<[t := mkTimer ms tk Fired]> (timers rt))
                   (destroyed rt) in
      match tk with
      | ReconnectTask => reconnectTask rt1
      | ResetIgnoreClose => set_bancho (set_ignoreClose false (bancho rt1)) rt1
      end
  | _ => rt
  end.

(** The listeners [initSocket()] puts on the socket. *)
Definition onSocketError (err : Error) (rt : Runtime)
    : result unit * Runtime :=
  onClose err (set_bancho (emit (EvError err) (bancho rt)) rt).

Definition onSocketClose (rt : Runtime) : result unit * Runtime :=
  if negb (ignoreClose (bancho rt)) then
    onClose (MkError "Connection closed") rt
  else (Ok tt, rt).

Definition onSocketTimeout (rt : Runtime) : result unit * Runtime :=
  let err := MkError "Timeout reached" in
  let rt1 := set_bancho (set_ignoreClose true (bancho rt)) rt in
  match destroyClient rt1 with
  | (Throw e, rt2) => (Throw e, rt2)
  | (Ok _, rt2) =>
      let rt3 := set_bancho (emit (EvError err) (bancho rt2)) rt2 in
      match onClose err rt3 with
      | (Throw e, rt4) => (Throw e, rt4)
      | (Ok _, rt4) => (Ok tt, (setTimeout ResetIgnoreClose 1 rt4).2)
      end
  end.

(** [disconnect()]. *)
Definition disconnect (rt : Runtime) : result unit * Runtime :=
  if bool_decide (connectState (bancho rt) = Disconnected) then (Ok tt, rt)
  else
    let step1 :=
      if isConnected (bancho rt) then
        let (r, c1) := send "QUIT" true (bancho rt) in (r, set_bancho c1 rt)
      else if bool_decide (connectState (bancho rt) = Connecting) then
        destroyClient rt
      else (Ok tt, rt) in
    match step1 with
    | (Throw e, rt1) => (Throw e, rt1)
    | (Ok _, rt1) =>
        let rt2 :=
          match reconnectTimeout (bancho rt1) with
          | Some t =>
              let rt' := clearTimeout t rt1 in
              set_bancho (set_reconnectTimeout None (bancho rt')) rt'
          | None => rt1
          end in
        match updateState (IsState Disconnected) None (bancho rt2) with
        | (Throw e, c3) => (Throw e, set_bancho c3 rt2)
        | (Ok _, c3) =>
            (Ok tt, (setTimeout ResetIgnoreClose 1 (set_bancho c3 rt2)).2)
        end
    end.

(** ** Vocabulary of the statements *)

(** The text of a connection: its reads, one after the other. *)
Definition stream (chunks : list string) : string :=
  fold_right String.append "" chunks.

(** The complete lines of a text, and what follows its last terminator. *)
Definition completeLines (text : string) : list string :=
  removelast (Js.split Js.LF text).

Definition partialLine (text : string) : string :=
  List.last (Js.split Js.LF text) "".

(** Handing the lines to the handler, first to last, up to a call that
    throws. *)
Fixpoint deliver {H} (handle : string -> H -> result unit * H)
    (lines : list string) (h : H) : result unit * H :=
  match lines with
  | [] => (Ok tt, h)
  | command :: rest =>
      match handle command h with
      | (Ok _, h') => deliver handle rest h'
      | (Throw e, h') => (Throw e, h')
      end
  end.

(** What the framer is to make of a text: its complete lines handed
    over, its unfinished last line kept. *)
Definition framed {H} (handle : string -> H -> result unit * H)
    (text : string) (h : H) : result string * H :=
  match deliver handle (completeLines text) h with
  | (Ok _, h') => (Ok (partialLine text), h')
  | (Throw e, h') => (Throw e, h')
  end.

(** A handler that only records what it is given. *)
Definition record (command : string) (seen : list string)
    : result unit * list string :=
  (Ok tt, (seen ++ [command])%list).

(** A name as [getUser] takes it: up to the first newline, 28 characters
    at most. *)
Definition clipped (username : string) : string :=
  Js.take 28 (default "" (head (Js.split Js.LF username))).

(** Two characters that are the same up to letter case, or a space and an
    underscore. *)
Definition sameChar (a b : ascii) : bool :=
  Ascii.eqb (Js.lowerChar a) (Js.lowerChar b)
  || ((Ascii.eqb a " " || Ascii.eqb a "_")
      && (Ascii.eqb b " " || Ascii.eqb b "_")).

(** Two names that differ by letter case or spaces against underscores
    only. *)
Fixpoint sameName (s t : string) : bool :=
  match s, t with
  | EmptyString, EmptyString => true
  | String a s', String b t' => sameChar a b && sameName s' t'
  | _, _ => false
  end.

(** The key [getUser] files a name under. *)
Definition userKey (username : string) : string :=
  Js.toLowerCase
    (Js.substring
      (default "" (Js.at_ (Js.split Js.LF (Js.replaceAll " " "_" username)) 0))
      0 28).

(** A key in normal form: lower case, 28 characters at most, without
    space or newline. *)
Definition normalized (key : string) : Prop :=
  Js.toLowerCase key = key
  /\ (String.length key <= 28)%nat
  /\ Js.indexOf " " key = -1
  /\ Js.indexOf (Js.str Js.LF) key = -1.

Definition usersNormalized (c : BanchoClient) : Prop :=
  forall key u, users c !! key = Some u -> normalized key.

(** Every cached channel is a channel object of the heap. *)
Definition channelsCached (c : BanchoClient) : Prop :=
  forall key ch, channels c !! key = Some ch ->
    is_Some (channelOf (heap c !! ch)).

(** The step from [c] to [c'] keeps the channel cache and the channel
    objects of the heap. *)
Definition keepsChannels (c c' : BanchoClient) : Prop :=
  channels c' = channels c
  /\ forall l, is_Some (channelOf (heap c !! l)) ->
               is_Some (channelOf (heap c' !! l)).

(** A run of [getUser] calls. *)
Definition getUsers (names : list string) (c : BanchoClient) : BanchoClient :=
  fold_left (fun c n => snd (getUser n c)) names c.

(** A client that is online: constructed, socket opened, welcomed. *)
Definition online : BanchoClient :=
  match constructor (Some "me") (Some "secret") None None None with
  | Ok c => set_connectState Connected (initSocket c)
  | Throw _ =>
      mkClient 0 "" "" "" 0 None Disconnected false None None [] [] None
        ∅ ∅ ∅ (mkRateLimiter 0 0 0) false [] []
  end.

(** A client as constructed: offline. *)
Definition offline : BanchoClient :=
  match constructor (Some "me") (Some "secret") None None None with
  | Ok c => c
  | Throw _ =>
      mkClient 0 "" "" "" 0 None Disconnected false None None [] [] None
        ∅ ∅ ∅ (mkRateLimiter 0 0 0) false [] []
  end.

(** What the router gets when the key it reads names a member that every
    plain object inherits from [Object.prototype]: a value without a
    [handleCommand] method, so that the call the router goes on with throws
    (the message is the engine's). *)
Definition inheritedMember : Handler :=
  fun _ _ c =>
    (Throw (TypeError "IrcCommands[splits[1]].handleCommand is not a function"),
     c).

(** A client constructed with an API key: offline. *)
Definition withKey : BanchoClient :=
  match constructor (Some "me") (Some "secret") None None (Some "key") with
  | Ok c => c
  | Throw _ =>
      mkClient 0 "" "" "" 0 None Disconnected false None None [] [] None
        ∅ ∅ ∅ (mkRateLimiter 0 0 0) false [] []
  end.

(** An empty verb table: the plain object [{}]. It has no property of its
    own; the keys of [Object.prototype] still read truthy on it. *)
Definition noCommands : string -> option Handler :=
  fun k =>
    if existsb (String.eqb k) Object_prototype then Some inheritedMember
    else None.

(** The lifecycle events [updateState] emits ahead of the state event. *)
Definition lifecycleEvents (s : ConnectState) (err : option Error)
    : list Effect :=
  match s with
  | Connected => [Emit EvConnected]
  | Disconnected => [Emit (EvDisconnected err)]
  | _ => []
  end.

(** The claim of the specification for one line: a single reply, and
    nothing else, whatever the verb table holds. *)
Definition answersPing (IrcCommands : string -> option Handler)
    (command : string) (c : BanchoClient) : Prop :=
  exists sock,
    handleIrcCommand IrcCommands command c =
      (Ok tt,
       log (SocketWrite sock
              ("PONG " ++ Js.drop 5 command ++ Js.str Js.CR ++ Js.str Js.LF))
         c).

(** The claim of the specification for one name: [getChannel] returns a
    channel object, has it in the cache, and returns the same object when
    asked again. *)
Definition returnsCachedChannel (channelName : string) (c : BanchoClient)
    : Prop :=
  exists ch c',
    getChannel channelName c = (Ok (VRef ch), c')
    /\ is_Some (channelOf (heap c' !! ch))
    /\ channels c' !! channelName = Some ch
    /\ getChannel channelName c' = (Ok (VRef ch), c').

(** A string without a given character. *)
Definition lacks (c : ascii) (s : string) : Prop :=
  Js.indexOf (Js.str c) s = -1.

(** The channel #osu, entered in the cache of a client that is online. *)
Definition withChannel : BanchoClient := (getChannel "#osu" online).2.

(** The cached users are user objects of the heap, one per key. *)
Definition usersCached (c : BanchoClient) : Prop :=
  (forall key u, users c !! key = Some u ->
     exists user, heap c !! u = Some (OUser user))
  /\ (forall key1 key2 u,
        users c !! key1 = Some u -> users c !! key2 = Some u -> key1 = key2).

(** The names [getChannel] accepts. *)
Definition validChannelName (channelName : string) : Prop :=
  Js.indexOf "#" channelName = 0
  /\ Js.indexOf "," channelName = -1
  /\ Js.indexOf (Js.str Js.BEL) channelName = -1.

(** The cached channels are filed under valid names, one object per
    name. *)
Definition channelsValid (c : BanchoClient) : Prop :=
  (forall key ch, channels c !! key = Some ch -> validChannelName key)
  /\ (forall key1 key2 ch,
        channels c !! key1 = Some ch -> channels c !! key2 = Some ch ->
        key1 = key2).

(** The class [getChannel] picks for a new channel. *)
Definition isMultiplayerName (channelName : string) (c : BanchoClient)
    : bool :=
  (Js.indexOf "#mp_" channelName =? 0) && bool_decide (osuApi c ≠ None).




(** The client is online on the socket [sock]. *)
Definition onlineOn (sock : loc) (c : BanchoClient) : Prop :=
  (connectState c = Connected \/ connectState c = Connecting)
  /\ client c = Some sock.

(** The reconnect timers that are still to fire. *)
Definition armedReconnect (tm : Timer) : bool :=
  match task tm, status tm with
  | ReconnectTask, Armed => true
  | _, _ => false
  end.

(** At most one reconnect timer is armed, and it is the one the client
    holds in [reconnectTimeout]. *)
Definition timersSound (rt : Runtime) : Prop :=
  forall t tm, timers rt !! t = Some tm -> armedReconnect tm = true ->
    reconnectTimeout (bancho rt) = Some t.

(** A client in a new environment. *)
Definition boot (c : BanchoClient) : Runtime := mkRuntime c [] [].

(** Reading a field of an updated client. *)
Ltac client_fields :=
  unfold alloc, store, log, emit, set_connectState, set_client,
    set_reconnect, set_connectCallback, set_users, set_channels, set_heap,
    set_effects in *;
  cbn [maxListeners username password host port client connectState
       reconnect reconnectTimeout connectCallback joinCallbacks
       partCallbacks osuApi users usersById channels rateLimiter
       ignoreClose heap effects fst snd] in *.

(** Reading the fields of a client given by its fields, after several
    updates: innermost update first. *)
Ltac client_eval :=
  cbv [alloc store log emit set_connectState set_client set_reconnect
       set_connectCallback set_users set_channels set_heap set_effects
       maxListeners username password host port client connectState
       reconnect reconnectTimeout connectCallback joinCallbacks
       partCallbacks osuApi users usersById channels rateLimiter
       ignoreClose heap effects fst snd] in *.

Ltac client_open c :=
  destruct c as [?ml ?un ?pw ?ho ?po ?cl ?st ?rc ?rto ?cb ?jc ?pc ?api ?us
                 ?ubi ?chs ?rl ?ig ?hp ?ef].

(** ** Strings of 16-bit code units

    The strings of the definitions above hold code units up to U+00FF,
    which covers the protocol text. Two functions of the client see more
    than that: [getUser] is handed any string, and the data listener
    decodes the bytes of each read itself. Both are embedded here once
    more, over strings given as lists of UTF-16 code units, together with
    the built-ins they call. *)

Module Utf16.

Local Open Scope N_scope.

Definition LF : N := 0x0A.
Definition CR : N := 0x0D.
Definition SPACE : N := 0x20.
Definition LOW_LINE : N := 0x5F.
Definition REPLACEMENT : N := 0xFFFD.

(** A string of the definitions above, as code units. *)
Definition ofString (s : string) : list N :=
  map N_of_ascii (list_ascii_of_string s).

(** [s.indexOf(needle)] for a needle of one code unit. *)
Fixpoint indexOf (needle : N) (s : list N) : Z :=
  match s with
  | [] => (-1)%Z
  | x :: s' =>
      if x =? needle then 0%Z
      else let r := indexOf needle s' in
           if (r =? -1)%Z then (-1)%Z else (r + 1)%Z
  end.

Definition clamp (s : list N) (i : Z) : nat :=
  Z.to_nat (Z.max 0 (Z.min i (Z.of_nat (length s)))).

(** [s.substring(a, b)]. *)
Definition substring (s : list N) (a b : Z) : list N :=
  let a' := clamp s a in
  let b' := clamp s b in
  let lo := Nat.min a' b' in
  let hi := Nat.max a' b' in
  take (hi - lo) (drop lo s).

(** [s.substring(a)]. *)
Definition substringFrom (s : list N) (a : Z) : list N :=
  substring s a (Z.of_nat (length s)).

(** [s.replace(/c/g, r)] for a pattern of one code unit. *)
Fixpoint replaceAll (c : N) (r : list N) (s : list N) : list N :=
  match s with
  | [] => []
  | x :: s' =>
      if x =? c then (r ++ replaceAll c r s')%list
      else x :: replaceAll c r s'
  end.

(** [s.split(sep)] for a separator of one code unit. *)
Fixpoint split (sep : N) (s : list N) : list (list N) :=
  match s with
  | [] => [[]]
  | x :: s' =>
      if x =? sep then [] :: split sep s'
      else match split sep s' with
           | h :: t => (x :: h) :: t
           | [] => [[x]]
           end
  end.

(** [a.join(sep)]. *)
Fixpoint join (sep : list N) (l : list (list N)) : list N :=
  match l with
  | [] => []
  | [x] => x
  | x :: t => (x ++ sep ++ join sep t)%list
  end.

(** *** Case mapping

    [s.toLowerCase()] follows the Unicode default case conversion: the
    simple lowercase mapping of each character, and the two rules of
    SpecialCasing that apply without a locale. The functions that call it
    take it as a parameter; [unicodeLower] gives it on Basic Latin, Latin-1
    Supplement, the Greek letters U+0391..U+03C9, U+0130 and the combining
    dot U+0307. *)

Definition inRange (lo hi u : N) : bool := (lo <=? u) && (u <=? hi).

Definition greekCapital (u : N) : bool :=
  inRange 0x391 0x3A1 u || inRange 0x3A3 0x3A9 u.

Definition greekSmall (u : N) : bool := inRange 0x3B1 0x3C9 u.

(** The code units whose case mapping is given below. *)
Definition modelled (u : N) : bool :=
  (u <=? 0xFF) || (u =? 0x130) || (u =? 0x307)
  || greekCapital u || greekSmall u.

(** Simple lowercase mapping: the capitals of Basic Latin, of Latin-1
    (U+00C0..U+00DE without the multiplication sign) and of the Greek
    alphabet move up by 32. *)
Definition simpleLower (u : N) : N :=
  if inRange 0x41 0x5A u
     || (inRange 0xC0 0xDE u && negb (u =? 0xD7))
     || greekCapital u
  then u + 32 else u.

(** The property Cased: letters with a case. *)
Definition cased (u : N) : bool :=
  inRange 0x41 0x5A u || inRange 0x61 0x7A u
  || (u =? 0xAA) || (u =? 0xB5) || (u =? 0xBA)
  || (inRange 0xC0 0xFF u && negb (u =? 0xD7) && negb (u =? 0xF7))
  || (u =? 0x130) || greekCapital u || greekSmall u.

(** The property Case_Ignorable: apostrophe, full stop, colon, the
    spacing accents, soft hyphen, middle dot and the combining dot. *)
Definition caseIgnorable (u : N) : bool :=
  existsb (N.eqb u)
    [0x27; 0x2E; 0x3A; 0x5E; 0x60; 0xA8; 0xAD; 0xAF; 0xB4; 0xB7; 0xB8;
     0x307].

(** What follows is a cased letter, after any case-ignorable ones. *)
Fixpoint followedByCased (s : list N) : bool :=
  match s with
  | [] => false
  | u :: s' => if caseIgnorable u then followedByCased s' else cased u
  end.

(** Lowering from left to right; [afterCased] tells whether what was
    passed is a cased letter and any case-ignorable ones. A capital sigma
    U+03A3 in final position (after a cased letter, not before one) gives
    the final small sigma U+03C2; U+0130 gives an i and a combining dot. *)
Fixpoint lower (afterCased : bool) (s : list N) : list N :=
  match s with
  | [] => []
  | u :: s' =>
      ((if u =? 0x3A3 then
          [if afterCased && negb (followedByCased s') then 0x3C2 else 0x3C3]
        else if u =? 0x130 then [0x69; 0x307]
        else [simpleLower u])
       ++ lower (if caseIgnorable u then afterCased else cased u) s')%list
  end.

(** [s.toLowerCase()] on the blocks above; [None] when [s] holds a code
    unit whose mapping is not given here. *)
Definition unicodeLower (s : list N) : option (list N) :=
  if forallb modelled s then Some (lower false s) else None.

(** *** [getUser] *)

(** Modelled from the spec: BanchoUser (lib/BanchoUser.js is not part of the
    sources at hand): a user carries its display name and an optional
    numeric id. *)
Record BanchoUser := mkUser {
  ircUsername : list N;
  userId : option Z
}.

(** What [getUser] reads and writes of a client: the users cache, and the
    user objects of the heap. *)
Record Client := mkClient {
  users : gmap (list N) loc;
  heap : list BanchoUser
}.

(** The cache a client is constructed with: [this.users = {}]. *)
Definition newClient : Client := {| users := ∅; heap := [] |}.

(** Own-or-inherited property read on the plain object [this.users]. *)
Definition get (o : gmap (list N) loc) (k : list N) : value :=
  match o !! k with
  | Some l => VRef l
  | None =>
      match List.find (fun n => bool_decide (ofString n = k)) Object_prototype
      with
      | Some n => VNative n
      | None => VUndefined
      end
  end.

Section Users.

(** [toLowerCase s] is [s.toLowerCase()]. The built-in has a result for
    every string; [None] stands for a string whose lower-case form the
    function at hand does not give. *)
Variable toLowerCase : list N -> option (list N).

(** [getUser(username)]. *)
Definition getUser (username : list N) (c : Client)
    : option (value * Client) :=
  let username :=
    substring
      (default [] (Js.at_ (split LF (replaceAll SPACE [LOW_LINE] username)) 0))
      0 28 in
  match toLowerCase username with
  | None => None
  | Some key =>
      if truthy (get (users c) key) then Some (get (users c) key, c)
      else
        let u := length (heap c) in
        Some (VRef u,
              {| users := <[key := u]> (users c);
                 heap := (heap c ++ [mkUser username None])%list |})
  end.

(** The key [getUser] files a name under. *)
Definition userKey (username : list N) : option (list N) :=
  toLowerCase
    (substring
      (default [] (Js.at_ (split LF (replaceAll SPACE [LOW_LINE] username)) 0))
      0 28).

(** A run of [getUser] calls. *)
Fixpoint getUsers (names : list (list N)) (c : Client) : option Client :=
  match names with
  | [] => Some c
  | n :: rest =>
      match getUser n c with
      | Some (_, c') => getUsers rest c'
      | None => None
      end
  end.

End Users.

(** *** The data listener *)

(** UTF-16 code units of a code point. *)
Definition utf16 (cp : N) : list N :=
  if cp <? 0x10000 then [cp]
  else [0xD800 + (cp - 0x10000) / 0x400; 0xDC00 + (cp - 0x10000) mod 0x400].

(** The state of the decoder inside a multi-byte sequence: the bits read
    so far, the number of bytes still to come and the bounds of the next
    one. *)
Record Pending := mkPending {
  codePoint : N;
  bytesNeeded : nat;
  lowerBound : N;
  upperBound : N
}.

(** A byte met outside of a sequence: a character of its own, the start
    of a sequence, or no start of anything. *)
Definition lead (b : N) : list N * option Pending :=
  if b <=? 0x7F then ([b], None)
  else if inRange 0xC2 0xDF b then
    ([], Some (mkPending (N.land b 0x1F) 1 0x80 0xBF))
  else if inRange 0xE0 0xEF b then
    ([], Some (mkPending (N.land b 0xF) 2
                 (if b =? 0xE0 then 0xA0 else 0x80)
                 (if b =? 0xED then 0x9F else 0xBF)))
  else if inRange 0xF0 0xF4 b then
    ([], Some (mkPending (N.land b 0x7) 3
                 (if b =? 0xF0 then 0x90 else 0x80)
                 (if b =? 0xF4 then 0x8F else 0xBF)))
  else ([REPLACEMENT], None).

(** UTF-8 decoding with replacement: every maximal part of the input
    that is no encoding of a code point gives one U+FFFD, and so does a
    sequence that the end of the buffer cuts short. *)
Fixpoint decode (st : option Pending) (bytes : list N) : list N :=
  match bytes with
  | [] =>
      match st with
      | None => []
      | Some _ => [REPLACEMENT]
      end
  | b :: rest =>
      match st with
      | None => (fst (lead b) ++ decode (snd (lead b)) rest)%list
      | Some p =>
          if inRange (lowerBound p) (upperBound p) b then
            let cp := N.lor (N.shiftl (codePoint p) 6) (N.land b 0x3F) in
            match bytesNeeded p with
            | S (S n) => decode (Some (mkPending cp (S n) 0x80 0xBF)) rest
            | _ => (utf16 cp ++ decode None rest)%list
            end
          else
            (REPLACEMENT :: fst (lead b) ++ decode (snd (lead b)) rest)%list
      end
  end.

(** [buf.toString()] as the runtime has it: the bytes of the buffer are
    decoded as UTF-8, with nothing carried over from one buffer to the
    next. *)
Definition utf8 (data : list N) : list N := decode None data.

Section Listener.

Context {H : Type}.

(** [toString data] is [data.toString()] on the [Buffer] of a read, given
    by its bytes. *)
Context (toString : list N -> list N).

(** [handle command h] is the call [this.handleIrcCommand(command)]. *)
Context (handle : list N -> H -> result unit * H).

(** The [while] loop of the listener; [fuel] bounds its iterations. *)
Fixpoint drain (fuel : nat) (unparsedData : list N) (h : H)
    : option (result (list N) * H) :=
  match fuel with
  | O => None
  | S fuel' =>
      let index := indexOf LF unparsedData in
      if negb (index =? -1)%Z then
        let command := substring unparsedData 0 index in
        let unparsedData := substringFrom unparsedData (index + 1) in
        match handle command h with
        | (Ok _, h') => drain fuel' unparsedData h'
        | (Throw e, h') => Some (Throw e, h')
        end
      else Some (Ok unparsedData, h)
  end.

(** One [data] event: [data] is the [Buffer] of the read, [unparsedData]
    the text kept from the reads before. *)
Definition onData (data : list N) (unparsedData : list N) (h : H)
    : option (result (list N) * H) :=
  let data := replaceAll CR [] (toString data) in
  let unparsedData := (unparsedData ++ data)%list in
  drain (S (length unparsedData)) unparsedData h.

(** The reads of one connection, in order; nothing is read after an
    exception has left the listener. *)
Fixpoint onDataAll (chunks : list (list N)) (unparsedData : list N) (h : H)
    : option (result (list N) * H) :=
  match chunks with
  | [] => Some (Ok unparsedData, h)
  | data :: rest =>
      match onData data unparsedData h with
      | Some (Ok unparsedData', h') => onDataAll rest unparsedData' h'
      | stopped => stopped
      end
  end.

End Listener.

(** *** Vocabulary of the statements *)

(** The text of a connection: its reads, each decoded on its own. *)
Definition decoded (toString : list N -> list N) (chunks : list (list N))
    : list N :=
  concat (map toString chunks).

(** The bytes of a connection. *)
Definition bytes (chunks : list (list N)) : list N := concat chunks.

(** A read of ASCII bytes. *)
Definition asciiBytes (data : list N) : Prop :=
  Forall (fun b => b < 0x80) data.

(** A decoder that leaves ASCII bytes as they are. *)
Definition decodesAscii (toString : list N -> list N) : Prop :=
  forall data, asciiBytes data -> toString data = data.

Definition completeLines (text : list N) : list (list N) :=
  removelast (split LF text).

Definition partialLine (text : list N) : list N :=
  List.last (split LF text) [].

Fixpoint deliver {H} (handle : list N -> H -> result unit * H)
    (lines : list (list N)) (h : H) : result unit * H :=
  match lines with
  | [] => (Ok tt, h)
  | command :: rest =>
      match handle command h with
      | (Ok _, h') => deliver handle rest h'
      | (Throw e, h') => (Throw e, h')
      end
  end.

(** What the listener is to make of a text: its complete lines handed
    over, its unfinished last line kept. *)
Definition framed {H} (handle : list N -> H -> result unit * H)
    (text : list N) (h : H) : result (list N) * H :=
  match deliver handle (completeLines text) h with
  | (Ok _, h') => (Ok (partialLine text), h')
  | (Throw e, h') => (Throw e, h')
  end.

(** A handler that only records what it is given. *)
Definition record (command : list N) (seen : list (list N))
    : result unit * list (list N) :=
  (Ok tt, (seen ++ [command])%list).

(** A name of code units up to U+00FF. *)
Definition latin1 (username : list N) : Prop :=
  Forall (fun u => u < 0x100) username.

(** A space gives an underscore. *)
Definition underscored (u : N) : N := if u =? SPACE then LOW_LINE else u.

(** A name as [getUser] takes it: up to the first newline, 28 code units
    at most. *)
Definition clipped (username : list N) : list N :=
  take 28 (default [] (head (split LF username))).

(** Two code units that are the same up to letter case, or a space and an
    underscore. *)
Definition sameChar (a b : N) : bool :=
  (simpleLower a =? simpleLower b)
  || (((a =? SPACE) || (a =? LOW_LINE)) && ((b =? SPACE) || (b =? LOW_LINE))).

(** Two names that differ by letter case or spaces against underscores
    only. *)
Fixpoint sameName (s t : list N) : bool :=
  match s, t with
  | [], [] => true
  | a :: s', b :: t' => sameChar a b && sameName s' t'
  | _, _ => false
  end.

(** The lower-casing of a string of code units up to U+00FF goes unit by
    unit. *)
Definition lowersLatin1 (toLowerCase : list N -> option (list N)) : Prop :=
  forall s, latin1 s -> toLowerCase s = Some (map simpleLower s).

Section UsersVocabulary.

Variable toLowerCase : list N -> option (list N).

(** A key in normal form: lower case, 28 code units at most, without
    space or newline. *)
Definition normalized (key : list N) : Prop :=
  toLowerCase key = Some key
  /\ (length key <= 28)%nat
  /\ (SPACE ∉ key)
  /\ (LF ∉ key).

Definition usersNormalized (c : Client) : Prop :=
  forall key u, users c !! key = Some u -> normalized key.

(** The cached users are user objects of the heap. *)
Definition usersCached (c : Client) : Prop :=
  forall key u, users c !! key = Some u -> is_Some (heap c !! u).

(** The names that have a lower-case form. *)
Definition named (username : list N) : Prop :=
  is_Some (userKey toLowerCase username).

(** Both calls of [getUser], with the calls for [between] after the first
    one, return the value [v]: a truthy value that the cache yields under
    the key of either name once the first call has returned, and the
    second call changes nothing. *)
Definition sameInstance (u1 u2 : list N) (between : list (list N))
    (c : Client) : Prop :=
  exists v key c1 c2,
    getUser toLowerCase u1 c = Some (v, c1)
    /\ getUsers toLowerCase between c1 = Some c2
    /\ getUser toLowerCase u2 c2 = Some (v, c2)
    /\ truthy v = true
    /\ userKey toLowerCase u1 = Some key
    /\ userKey toLowerCase u2 = Some key
    /\ get (users c1) key = v
    /\ get (users c2) key = v.

End UsersVocabulary.

(** The value is an object: a user of the heap that the cache holds under
    [key], or the member of [Object.prototype] of that name. *)
Definition cachedObject (v : value) (key : list N) (c : Client) : Prop :=
  (exists l user, v = VRef l /\ users c !! key = Some l
                  /\ heap c !! l = Some user)
  \/ (exists n, v = VNative n /\ (n ∈ Object_prototype) /\ ofString n = key
                /\ users c !! key = None).

End Utf16.

(** ** Properties of the string built-ins *)

Example indexOf_hash : Js.indexOf "#" "#osu" = 0.
Proof. reflexivity. Qed.

Example indexOf_absent : Js.indexOf "," "#osu" = -1.
Proof. reflexivity. Qed.

Example indexOf_inner : Js.indexOf "#mp_" "a#mp_1" = 1.
Proof. reflexivity. Qed.

Example split_spaces : Js.split " " "PING :abc 1" = ["PING"; ":abc"; "1"].
Proof. reflexivity. Qed.

Example split_trailing : Js.split " " "a " = ["a"; ""].
Proof. reflexivity. Qed.

Example lower_mixed : Js.toLowerCase "Foo_BAR" = "foo_bar".
Proof. reflexivity. Qed.

Example substring_clip : Js.substring "abcdef" 0 3 = "abc".
Proof. reflexivity. Qed.

Lemma indexOf_lower_bound needle s : -1 <= Js.indexOf needle s.
Proof.
  induction s as [|x s IH]; simpl.
  - destruct (Js.startsWith needle ""); lia.
  - destruct (Js.startsWith needle (String x s)); [lia|].
    destruct (Z.eqb_spec (Js.indexOf needle s) (-1)); lia.
Qed.

(** [indexOf] is [0] exactly on the strings that start with the needle. *)
Lemma indexOf_zero needle s :
  Js.indexOf needle s = 0 <-> Js.startsWith needle s = true.
Proof.
  destruct s as [|x s]; simpl.
  - destruct (Js.startsWith needle ""); split; (lia || congruence).
  - destruct (Js.startsWith needle (String x s)); [tauto|].
    pose proof (indexOf_lower_bound needle s).
    destruct (Z.eqb_spec (Js.indexOf needle s) (-1)); split;
      (lia || congruence).
Qed.

(** One step of [split], read off [indexOf] and [substring] the way the
    framer's loop does. *)
Lemma indexOf_char_cons c x s :
  Js.indexOf (Js.str c) (String x s) =
    if Ascii.eqb c x then 0
    else if Js.indexOf (Js.str c) s =? -1 then -1
         else Js.indexOf (Js.str c) s + 1.
Proof. simpl. destruct (Ascii.eqb c x); reflexivity. Qed.

Lemma indexOf_char_empty c : Js.indexOf (Js.str c) "" = -1.
Proof. reflexivity. Qed.

Lemma indexOf_char_upper_bound c s :
  Js.indexOf (Js.str c) s < Z.of_nat (String.length s).
Proof.
  induction s as [|x s IH]; [reflexivity|].
  rewrite indexOf_char_cons. cbn [String.length].
  destruct (Ascii.eqb c x); [lia|].
  destruct (Z.eqb_spec (Js.indexOf (Js.str c) s) (-1)); lia.
Qed.

Lemma take_all s n : (String.length s <= n)%nat -> Js.take n s = s.
Proof.
  revert n; induction s as [|x s IH]; intros [|n] Hn; simpl in *;
    try reflexivity; try lia.
  f_equal. apply IH. lia.
Qed.

Lemma length_drop s n :
  String.length (Js.drop n s) = (String.length s - n)%nat.
Proof.
  revert n; induction s as [|x s IH]; intros [|n]; simpl; auto.
Qed.

Lemma length_take s n :
  String.length (Js.take n s) = Nat.min n (String.length s).
Proof.
  revert n; induction s as [|x s IH]; intros [|n]; simpl; auto.
Qed.

(** [s.substring(0, n)] keeps the first [n] characters. *)
Lemma substring_prefix s n :
  0 <= n -> Js.substring s 0 n = Js.take (Z.to_nat n) s.
Proof.
  intros Hn. unfold Js.substring, Js.clamp.
  replace (Z.to_nat (Z.max 0 (Z.min 0 (Z.of_nat (String.length s)))))
    with 0%nat by lia.
  rewrite Nat.min_0_l, Nat.max_0_l, Nat.sub_0_r. simpl Js.drop.
  destruct (Z_le_gt_dec n (Z.of_nat (String.length s))).
  - f_equal. lia.
  - rewrite !take_all; auto; lia.
Qed.

(** [s.substring(n)] drops the first [n] characters. *)
Lemma substringFrom_drop s n :
  0 <= n -> Js.substringFrom s n = Js.drop (Z.to_nat n) s.
Proof.
  intros Hn. unfold Js.substringFrom, Js.substring, Js.clamp.
  set (len := String.length s).
  replace (Z.to_nat (Z.max 0 (Z.min (Z.of_nat len) (Z.of_nat len))))
    with len by lia.
  destruct (Z_le_gt_dec n (Z.of_nat len)).
  - replace (Z.to_nat (Z.max 0 (Z.min n (Z.of_nat len)))) with (Z.to_nat n)
      by lia.
    rewrite Nat.min_l, Nat.max_r by lia.
    apply take_all. rewrite length_drop. fold len. lia.
  - replace (Z.to_nat (Z.max 0 (Z.min n (Z.of_nat len)))) with len by lia.
    rewrite Nat.min_id, Nat.max_id, Nat.sub_diag. simpl.
    clear -g. assert (Hl : (String.length s <= Z.to_nat n)%nat)
      by (subst len; lia).
    clear g. revert Hl. generalize (Z.to_nat n). clear.
    induction s as [|x s IH]; intros [|k] Hk; simpl in *; auto; try lia.
    apply IH. lia.
Qed.

Lemma split_nonempty c s : Js.split c s <> [].
Proof.
  destruct s as [|x s]; simpl; [discriminate|].
  destruct (Ascii.eqb x c); [discriminate|].
  destruct (Js.split c s); discriminate.
Qed.

(** The loop body of the framer computes [split] one line at a time. *)
Lemma split_step c s :
  Js.split c s =
    let index := Js.indexOf (Js.str c) s in
    if negb (index =? -1) then
      Js.substring s 0 index :: Js.split c (Js.substringFrom s (index + 1))
    else [s].
Proof.
  induction s as [|x s IH]; [reflexivity|].
  cbn zeta in *. rewrite indexOf_char_cons. cbn [Js.split].
  rewrite (Ascii.eqb_sym x c).
  pose proof (indexOf_lower_bound (Js.str c) s) as Hlb.
  destruct (Ascii.eqb c x).
  - cbn [Z.eqb negb]. rewrite substring_prefix, substringFrom_drop by lia.
    reflexivity.
  - destruct (Z.eqb_spec (Js.indexOf (Js.str c) s) (-1)) as [He|Hne].
    + rewrite IH. cbn. reflexivity.
    + rewrite IH. cbn [negb].
      destruct (Z.eqb_spec (Js.indexOf (Js.str c) s + 1) (-1)); [lia|].
      cbn [negb].
      rewrite !substring_prefix, !substringFrom_drop by lia.
      replace (Z.to_nat (Js.indexOf (Js.str c) s + 1))
        with (S (Z.to_nat (Js.indexOf (Js.str c) s))) by lia.
      replace (Z.to_nat (Js.indexOf (Js.str c) s + 1 + 1))
        with (S (S (Z.to_nat (Js.indexOf (Js.str c) s)))) by lia.
      reflexivity.
Qed.

Lemma split_length c s :
  (length (Js.split c s) <= S (String.length s))%nat.
Proof.
  induction s as [|x s IH]; simpl; [lia|].
  destruct (Ascii.eqb x c); simpl; [lia|].
  destruct (Js.split c s); simpl in *; lia.
Qed.

Lemma removelast_cons {A} (x : A) l :
  l <> [] -> removelast (x :: l) = x :: removelast l.
Proof. destruct l; [congruence|reflexivity]. Qed.

Lemma last_cons {A} (x : A) l d :
  l <> [] -> List.last (x :: l) d = List.last l d.
Proof. destruct l; [congruence|reflexivity]. Qed.

Lemma append_cons x s t : String x s ++ t = String x (s ++ t).
Proof. reflexivity. Qed.


Lemma append_empty_r s : s ++ "" = s.
Proof. induction s as [|x s IH]; [reflexivity|]. by rewrite append_cons, IH. Qed.

Lemma append_assoc s t u : (s ++ t) ++ u = s ++ (t ++ u).
Proof.
  induction s as [|x s IH]; [reflexivity|]. by rewrite !append_cons, IH.
Qed.

(** Splitting a text that is read in two parts: the complete lines of the
    first part, then the lines of what was left of it with the second
    part. *)
Lemma split_app c s t :
  Js.split c (s ++ t) =
    (removelast (Js.split c s)
       ++ Js.split c (List.last (Js.split c s) "" ++ t))%list.
Proof.
  induction s as [|x s IH]; [reflexivity|].
  rewrite append_cons. cbn [Js.split].
  pose proof (split_nonempty c s) as Hne.
  destruct (Ascii.eqb x c) eqn:Hx.
  - rewrite removelast_cons, last_cons by assumption.
    rewrite IH. reflexivity.
  - rewrite IH.
    destruct (Js.split c s) as [|h [|h' l]] eqn:Hs; [congruence| |].
    + cbn [removelast List.last app]. rewrite append_cons.
      cbn [Js.split]. rewrite Hx. reflexivity.
    + cbn [removelast List.last app]. reflexivity.
Qed.

(** The part after the last separator holds no separator. *)
Lemma split_last_no_sep c s :
  Js.split c (List.last (Js.split c s) "") = [List.last (Js.split c s) ""].
Proof.
  induction s as [|x s IH]; [reflexivity|].
  cbn [Js.split]. pose proof (split_nonempty c s) as Hne.
  destruct (Ascii.eqb x c) eqn:Hx.
  - rewrite last_cons by assumption. exact IH.
  - destruct (Js.split c s) as [|h [|h' l]] eqn:Hs; [congruence| |].
    + cbn [List.last] in *. cbn [Js.split]. rewrite Hx, IH. reflexivity.
    + exact IH.
Qed.

Lemma replaceAll_app c r s t :
  Js.replaceAll c r (s ++ t) = Js.replaceAll c r s ++ Js.replaceAll c r t.
Proof.
  induction s as [|x s IH]; [reflexivity|].
  rewrite append_cons. cbn [Js.replaceAll]. rewrite IH.
  destruct (Ascii.eqb x c); [|reflexivity].
  by rewrite append_assoc.
Qed.

Lemma removelast_app_nonempty {A} (l1 l2 : list A) :
  l2 <> [] -> removelast (l1 ++ l2) = (l1 ++ removelast l2)%list.
Proof. intros. by apply removelast_app. Qed.

Lemma last_app_nonempty {A} (l1 l2 : list A) d :
  l2 <> [] -> List.last (l1 ++ l2) d = List.last l2 d.
Proof.
  intros Hne. induction l1 as [|x l1 IH]; [reflexivity|].
  cbn [app]. rewrite last_cons; [exact IH|].
  destruct l1; [exact Hne|discriminate].
Qed.

(** ** The framer *)

Section FramerProofs.

Context {H : Type} (handle : string -> H -> result unit * H).

Lemma deliver_app lines1 lines2 h :
  deliver handle (lines1 ++ lines2) h =
    match deliver handle lines1 h with
    | (Ok _, h') => deliver handle lines2 h'
    | (Throw e, h') => (Throw e, h')
    end.
Proof.
  revert h. induction lines1 as [|l lines1 IH]; intros h; [reflexivity|].
  cbn [app deliver]. destruct (handle l h) as [[[]|e] h']; [apply IH|].
  reflexivity.
Qed.

(** With one unit of fuel per line of the buffer the loop ends because no
    terminator is left, or because a handler call threw: it has handed
    over the complete lines and kept the rest. *)
Lemma drain_lines fuel unparsedData h :
  (length (Js.split Js.LF unparsedData) <= fuel)%nat ->
  drain handle fuel unparsedData h = Some (framed handle unparsedData h).
Proof.
  revert unparsedData h.
  induction fuel as [|fuel IH]; intros buf h Hfuel.
  - pose proof (split_nonempty Js.LF buf).
    destruct (Js.split Js.LF buf); [congruence|simpl in Hfuel; lia].
  - unfold framed, partialLine, completeLines in *.
    rewrite split_step in Hfuel |- *. cbn [drain]. cbv zeta in *.
    destruct (negb (Js.indexOf (Js.str Js.LF) buf =? -1)).
    + cbn [length] in Hfuel.
      pose proof (split_nonempty Js.LF
        (Js.substringFrom buf (Js.indexOf (Js.str Js.LF) buf + 1))).
      rewrite removelast_cons, last_cons by assumption.
      cbn [deliver].
      destruct (handle _ h) as [[[]|e] h']; [|reflexivity].
      apply IH. lia.
    + reflexivity.
Qed.

(** One read: the lines completed by it are handed over. *)
Lemma onData_lines data unparsedData h :
  onData handle data unparsedData h =
    Some (framed handle (unparsedData ++ Js.replaceAll Js.CR "" data) h).
Proof. unfold onData. apply drain_lines, split_length. Qed.

Lemma onDataAll_lines chunks unparsedData h :
  Js.split Js.LF unparsedData = [unparsedData] ->
  onDataAll handle chunks unparsedData h =
    Some (framed handle
            (unparsedData ++ Js.replaceAll Js.CR "" (stream chunks)) h).
Proof.
  revert unparsedData h.
  induction chunks as [|data chunks IH]; intros buf h Hbuf.
  - cbn [onDataAll stream fold_right Js.replaceAll].
    rewrite append_empty_r. unfold framed, partialLine, completeLines.
    rewrite Hbuf. reflexivity.
  - cbn [onDataAll stream fold_right]. fold (stream chunks).
    rewrite onData_lines, replaceAll_app, <- append_assoc.
    unfold framed at 2. unfold partialLine, completeLines.
    rewrite (split_app _ (buf ++ _)).
    rewrite removelast_app_nonempty, last_app_nonempty
      by apply split_nonempty.
    rewrite deliver_app. unfold framed at 1.
    fold (completeLines (buf ++ Js.replaceAll Js.CR "" data)).
    fold (partialLine (buf ++ Js.replaceAll Js.CR "" data)).
    destruct (deliver handle (completeLines _) h) as [[[]|e] h'];
      [|reflexivity].
    rewrite IH by apply split_last_no_sep. reflexivity.
Qed.

(** Whatever the texts of the reads of a connection are, the listener
    hands to the command handler the complete lines of their concatenation
    with the carriage returns removed, first to last, and keeps the
    unfinished last line in its buffer; the loop always ends. Should a
    call of the handler throw, the exception leaves the listener and the
    lines up to that one have been handed over. *)
Lemma framer_delivers_lines (chunks : list string) (h : H) :
  onDataAll handle chunks "" h =
    Some (framed handle (Js.replaceAll Js.CR "" (stream chunks)) h).
Proof. by rewrite onDataAll_lines. Qed.

End FramerProofs.

(** The outcome depends on the text only, not on how it was cut into
    reads. *)
Lemma framer_partition_independent {H}
    (handle : string -> H -> result unit * H)
    (chunks chunks' : list string) (h : H) :
  stream chunks = stream chunks' ->
  onDataAll handle chunks "" h = onDataAll handle chunks' "" h.
Proof. intros Heq. by rewrite !onDataAll_lines, Heq. Qed.

(** A handler that records its calls has seen exactly the complete
    lines. *)
Lemma deliver_record lines seen :
  deliver record lines seen = (Ok tt, (seen ++ lines)%list).
Proof.
  revert seen; induction lines as [|l lines IH]; intros seen;
    cbn [deliver record].
  - by rewrite app_nil_r.
  - rewrite IH. by rewrite <- app_assoc.
Qed.

Lemma framer_records_lines chunks :
  onDataAll record chunks "" [] =
    Some (Ok (partialLine (Js.replaceAll Js.CR "" (stream chunks))),
          completeLines (Js.replaceAll Js.CR "" (stream chunks))).
Proof.
  rewrite onDataAll_lines by reflexivity. unfold framed.
  by rewrite deliver_record.
Qed.

Example framer_three_reads :
  onDataAll record
    [ "PING a"; String Js.CR (String Js.LF "x y");
      String Js.LF (String Js.LF "zz") ] "" [] =
  Some (Ok "zz", ["PING a"; "x y"; ""]).
Proof. reflexivity. Qed.

(** The listener of a client that is online, with the router as its
    handler: two complete lines, one of them answered, and a rest. *)
Example framer_with_router :
  let text :=
    "PING :abc" ++ Js.str Js.CR ++ Js.str Js.LF ++
    ":cho.ppy.sh 372 me :- hi" ++ Js.str Js.LF ++ "PIN" in
  match onData (handleIrcCommand noCommands) text "" online with
  | Some (Ok unparsedData, c) =>
      unparsedData = "PIN"
      /\ effects c =
           [SocketWrite 0 ("PONG :abc" ++ Js.str Js.CR ++ Js.str Js.LF)]
  | _ => False
  end.
Proof. vm_compute. by split. Qed.

(** ** The connection state *)

Lemma updateState_changes c s err :
  connectState c <> s ->
  updateState (IsState s) err c =
    (Ok tt,
     set_effects
       (effects c ++ lifecycleEvents s err ++ [Emit (EvState s err)])
       (set_connectState s c)).
Proof.
  intros Hne. unfold updateState.
  rewrite bool_decide_eq_false_2 by congruence.
  unfold isConnected, isDisconnected, emit, log.
  destruct s; simpl; rewrite <- ?app_assoc; reflexivity.
Qed.

(** C5: a call of [updateState] with the state the client is in changes
    nothing and emits nothing; a call with another of the four states makes
    it the current state and emits, last, a state event that carries the
    new state and the error passed in. *)
Theorem updateState_transition (c : BanchoClient) (s : ConnectState)
    (err : option Error) :
  (connectState c = s -> updateState (IsState s) err c = (Ok tt, c))
  /\ (connectState c <> s ->
      exists c',
        updateState (IsState s) err c = (Ok tt, c')
        /\ connectState c' = s
        /\ effects c' =
             (effects c ++ lifecycleEvents s err ++ [Emit (EvState s err)])%list).
Proof.
  split.
  - intros <-. unfold updateState. by rewrite bool_decide_eq_true_2.
  - intros Hne. eexists. split; [by apply updateState_changes|].
    split; reflexivity.
Qed.

Lemma updateState_transition_witness :
  updateState (IsState Disconnected) None offline = (Ok tt, offline)
  /\ exists c',
       updateState (IsState Connecting) None offline = (Ok tt, c')
       /\ connectState c' = Connecting
       /\ effects c' =
            (effects offline ++ lifecycleEvents Connecting None
               ++ [Emit (EvState Connecting None)])%list.
Proof.
  split.
  - apply (updateState_transition offline Disconnected None). reflexivity.
  - apply (updateState_transition offline Connecting None). discriminate.
Defined.

(** A value that is none of the four states is refused, and nothing
    changes. *)
Lemma updateState_invalid c err :
  updateState NotAState err c = (Throw (MkError "Invalid connect state!"), c).
Proof. reflexivity. Qed.

(** C6: while the client is disconnected, [send] with [throwIfDisconnected]
    set throws "Currently disconnected!" and leaves the client as it was:
    nothing is written to the socket, no field changes. *)
Theorem send_disconnected_throws (data : string) (c : BanchoClient) :
  connectState c = Disconnected ->
  send data true c = (Throw (MkError "Currently disconnected!"), c).
Proof. intros Hs. unfold send. rewrite Hs. reflexivity. Qed.

Lemma send_disconnected_throws_witness :
  connectState offline = Disconnected
  /\ send "PRIVMSG #osu :hi" true offline =
       (Throw (MkError "Currently disconnected!"), offline).
Proof.
  split; [reflexivity|].
  apply (send_disconnected_throws "PRIVMSG #osu :hi" offline). reflexivity.
Defined.

(** While connected or connecting, [send] writes the line once, terminated
    by carriage return and newline. *)
Lemma send_connected data flag c sock :
  connectState c = Connected \/ connectState c = Connecting ->
  client c = Some sock ->
  send data flag c =
    (Ok tt, log (SocketWrite sock (data ++ Js.str Js.CR ++ Js.str Js.LF)) c).
Proof.
  intros Hs Hc. unfold send. rewrite Hc.
  destruct Hs as [-> | ->]; reflexivity.
Qed.

(** C7: [connect()] called while connecting or connected returns a promise
    that is already rejected with "Already connected/connecting"; that
    promise is the only new object (no socket is created), and the
    connection state, the socket, the connect callback, the reconnect flag
    and the effect log are what they were. *)
Theorem connect_while_connected (c : BanchoClient) :
  connectState c = Connecting \/ connectState c = Connected ->
  exists p c',
    connect c = (p, c')
    /\ heap c' !! p =
         Some (OPromise (Rejected (MkError "Already connected/connecting")))
    /\ heap c' =
         (heap c ++
            [OPromise (Rejected (MkError "Already connected/connecting"))])%list
    /\ connectState c' = connectState c
    /\ client c' = client c
    /\ connectCallback c' = connectCallback c
    /\ reconnect c' = reconnect c
    /\ effects c' = effects c.
Proof.
  intros Hs. exists (length (heap c)). eexists. split.
  - unfold connect. destruct Hs as [-> | ->]; reflexivity.
  - cbn. split; [|by repeat split].
    rewrite lookup_app_r by lia. by rewrite Nat.sub_diag.
Qed.

Lemma connect_while_connected_witness :
  exists p c',
    connect online = (p, c')
    /\ heap c' !! p =
         Some (OPromise (Rejected (MkError "Already connected/connecting")))
    /\ heap c' =
         (heap online ++
            [OPromise (Rejected (MkError "Already connected/connecting"))])%list
    /\ connectState c' = connectState online
    /\ client c' = client online
    /\ connectCallback c' = connectCallback online
    /\ reconnect c' = reconnect online
    /\ effects c' = effects online.
Proof. apply (connect_while_connected online). right. reflexivity. Defined.

(** From the other two states [connect()] goes on: the promise is pending,
    the state is [Connecting] and a socket is being opened. *)
Example connect_when_offline :
  let (p, c') := connect offline in
  heap c' = [OPromise Pending; OFunction (ConnectCallback p); OSocket 60000]
  /\ connectState c' = Connecting
  /\ client c' = Some 2%nat
  /\ effects c' =
       [Emit (EvState Connecting None); SocketConnect 2 6667 "irc.ppy.sh"].
Proof. vm_compute. by repeat split. Qed.

(** C9: a client constructed without a user name or without a password,
    or with an empty one, is not constructed: the constructor throws, so
    that no client, and none of its fields, comes to exist. *)
Theorem constructor_requires_credentials
    (username password host : option string) (port : option Z)
    (apiKey : option string) :
  username = None \/ username = Some "" \/ password = None \/ password = Some "" ->
  constructor username password host port apiKey =
    Throw (MkError
      "You gotta gimme an username and a password to connect to Bancho dumbass").
Proof.
  intros Hm. unfold constructor.
  destruct Hm as [-> | [-> | [-> | ->]]]; cbn; try reflexivity;
    destruct (falsy username); reflexivity.
Qed.

Lemma constructor_requires_credentials_witness :
  constructor (Some "me") (Some "") None None None =
    Throw (MkError
      "You gotta gimme an username and a password to connect to Bancho dumbass").
Proof.
  apply (constructor_requires_credentials (Some "me") (Some "") None None None).
  right; right; right. reflexivity.
Defined.

(** With both credentials the client is constructed offline, with empty
    caches, no socket and no timer. *)
Lemma constructor_succeeds u p host port apiKey :
  u <> "" -> p <> "" ->
  exists c,
    constructor (Some u) (Some p) host port apiKey = Ok c
    /\ connectState c = Disconnected /\ client c = None
    /\ reconnectTimeout c = None
    /\ users c = ∅ /\ channels c = ∅ /\ heap c = [] /\ effects c = [].
Proof.
  intros Hu Hp. unfold constructor. cbn [falsy].
  rewrite !(proj2 (String.eqb_neq _ _)) by assumption.
  eexists. split; [reflexivity|]. by repeat split.
Qed.

(** ** Keep-alive *)

(** [join] puts back what [split] took apart. *)
Lemma join_cons sep x y l :
  Js.join sep (x :: y :: l) = x ++ sep ++ Js.join sep (y :: l).
Proof. reflexivity. Qed.

Lemma join_split c s : Js.join (Js.str c) (Js.split c s) = s.
Proof.
  induction s as [|x s IH]; [reflexivity|].
  cbn [Js.split]. pose proof (split_nonempty c s) as Hne.
  destruct (Ascii.eqb_spec x c) as [->|_].
  - destruct (Js.split c s) as [|h l]; [congruence|].
    rewrite join_cons, IH. reflexivity.
  - destruct (Js.split c s) as [|h [|h' l]]; [congruence| |].
    + cbn in IH |- *. by rewrite IH.
    + rewrite join_cons in IH |- *. rewrite append_cons. by rewrite IH.
Qed.

(** What is left after the first token and its separator. *)
Lemma join_shift_split c s t ts :
  Js.split c s = t :: ts ->
  Js.join (Js.str c) (Js.shift (t :: ts)) = Js.drop (S (String.length t)) s.
Proof.
  revert t ts. induction s as [|x s IH]; intros t ts.
  - cbn. intros [= <- <-]. reflexivity.
  - cbn [Js.split]. destruct (Ascii.eqb x c).
    + intros [= <- <-]. cbn [Js.shift tl String.length Js.drop].
      apply join_split.
    + pose proof (split_nonempty c s) as Hne.
      destruct (Js.split c s) as [|h l] eqn:Hs; [congruence|].
      intros [= <- <-]. cbn [Js.shift tl String.length Js.drop].
      apply (IH h l eq_refl).
Qed.

(** The filter of ignored codes comes first: a keep-alive probe whose
    second token is one of them gets no reply. *)
Lemma ping_ignored_code_unanswered :
  Js.at_ (Js.split " " "PING QUIT") 0 = Some "PING"
  /\ handleIrcCommand noCommands "PING QUIT" online = (Ok tt, online)
  /\ ~ answersPing noCommands "PING QUIT" online.
Proof.
  split; [reflexivity|]. split; [reflexivity|].
  intros [sock Hs]. vm_compute in Hs. discriminate Hs.
Qed.

(** C3, as the code has it: a line whose first token is PING and whose
    second token is not an ignored code, received while the client is
    connected or connecting, is answered by exactly one line, PONG and the
    rest of the line, and reaches no handler of the verb table; a line
    whose second token is an ignored code is dropped, PING or not. *)
Theorem ping_answered (IrcCommands : string -> option Handler)
    (command : string) (c : BanchoClient) (sock : loc) :
  (Js.at_ (Js.split " " command) 0 = Some "PING" ->
   Js.arrayIndexOf ignoredSplits (Js.at_ (Js.split " " command) 1) = -1 ->
   connectState c = Connected \/ connectState c = Connecting ->
   client c = Some sock ->
   handleIrcCommand IrcCommands command c =
     (Ok tt,
      log (SocketWrite sock
             ("PONG " ++ Js.drop 5 command ++ Js.str Js.CR ++ Js.str Js.LF))
        c))
  /\ (Js.arrayIndexOf ignoredSplits (Js.at_ (Js.split " " command) 1) <> -1 ->
      handleIrcCommand IrcCommands command c = (Ok tt, c)).
Proof.
  split.
  - intros Hping Hnot Hstate Hsock. unfold handleIrcCommand.
    rewrite Hnot, Hping. cbn [Z.eqb negb].
    rewrite bool_decide_eq_true_2 by reflexivity.
    rewrite (send_connected _ _ _ sock) by assumption.
    destruct (Js.split " " command) as [|t ts] eqn:Hsplit; [discriminate|].
    injection Hping as ->.
    pose proof (join_shift_split " " _ _ _ Hsplit) as Hrest.
    unfold Js.str in Hrest. rewrite Hrest.
    by rewrite append_assoc.
  - intros Hign. unfold handleIrcCommand.
    destruct (Z.eqb_spec
      (Js.arrayIndexOf ignoredSplits (Js.at_ (Js.split " " command) 1)) (-1));
      [contradiction|reflexivity].
Qed.

Lemma ping_answered_witness :
  handleIrcCommand noCommands "PING :abc123" online =
    (Ok tt,
     log (SocketWrite 0 ("PONG " ++ ":abc123" ++ Js.str Js.CR ++ Js.str Js.LF))
       online)
  /\ handleIrcCommand noCommands ":cho.ppy.sh 372 me :- hello" online =
       (Ok tt, online).
Proof.
  split.
  - apply (ping_answered noCommands "PING :abc123" online 0%nat);
      [reflexivity | reflexivity | left; reflexivity | reflexivity].
  - apply (ping_answered noCommands ":cho.ppy.sh 372 me :- hello" online 0%nat).
    vm_compute. discriminate.
Defined.

(** While the client is neither connected nor connecting, the reply is
    not sent: [send] throws. *)
Example ping_while_offline :
  handleIrcCommand noCommands "PING :abc123" offline =
    (Throw (MkError "Currently disconnected!"), offline).
Proof. reflexivity. Qed.

(** Any other line goes to the handler registered for its second token. *)
Example command_routed :
  let handler : Handler := fun _ _ c => (Ok tt, c) in
  effects
    (snd (handleIrcCommand
            (fun verb => if String.eqb verb "PRIVMSG" then Some handler else None)
            ":peppy PRIVMSG #osu :hi" online)) =
  [HandleCommand (Some "PRIVMSG") [":peppy"; "PRIVMSG"; "#osu"; ":hi"]].
Proof. reflexivity. Qed.

(** ** The channel cache *)

(** A name that starts with the channel sentinel is no member of
    [Object.prototype]: a read of the cache under it sees own entries
    only. *)
Lemma get_channel_name (m : gmap string loc) channelName :
  Js.indexOf "#" channelName = 0 ->
  get m channelName =
    match m !! channelName with Some l => VRef l | None => VUndefined end.
Proof.
  intros Hidx. apply indexOf_zero in Hidx. unfold get.
  destruct (m !! channelName); [reflexivity|].
  destruct channelName as [|x rest]; [discriminate|].
  cbn [Js.startsWith] in Hidx. apply andb_prop in Hidx as [Hx _].
  apply Ascii.eqb_eq in Hx as <-. reflexivity.
Qed.

Lemma lookup_alloc o c l :
  (l < length (heap c))%nat -> heap (alloc o c).2 !! l = heap c !! l.
Proof. intros Hl. cbn. by rewrite lookup_app_l. Qed.

Lemma lookup_alloc_new o c : heap (alloc o c).2 !! (alloc o c).1 = Some o.
Proof. cbn. rewrite lookup_app_r by lia. by rewrite Nat.sub_diag. Qed.

(** A third character is refused besides the missing sentinel and the
    separator: the bell, U+0007. *)
Lemma channel_name_with_bell_refused :
  let channelName := String "#" (String Js.BEL "osu") in
  Js.indexOf "#" channelName = 0
  /\ Js.indexOf "," channelName = -1
  /\ getChannel channelName online =
       (Throw (MkError "Invalid channel name!"), online)
  /\ ~ returnsCachedChannel channelName online.
Proof.
  cbv zeta. split; [reflexivity|]. split; [reflexivity|].
  split; [reflexivity|].
  intros (ch & c' & Hget & _). vm_compute in Hget. discriminate Hget.
Qed.

Lemma getChannel_valid channelName c :
  Js.indexOf "#" channelName = 0 ->
  Js.indexOf "," channelName = -1 ->
  Js.indexOf (Js.str Js.BEL) channelName = -1 ->
  getChannel channelName c =
    match channels c !! channelName with
    | Some ch => (Ok (VRef ch), c)
    | None =>
        let o := if (Js.indexOf "#mp_" channelName =? 0)
                    && bool_decide (osuApi c ≠ None)
                 then OMultiplayerChannel (newChannel channelName)
                 else OChannel (newChannel channelName) in
        (Ok (VRef (length (heap c))),
         set_channels (<[channelName := length (heap c)]> (channels c))
           (set_heap (heap c ++ [o]) c))
    end.
Proof.
  intros Hsharp Hcomma Hbell. unfold getChannel.
  rewrite Hsharp, Hcomma, Hbell. cbn [Z.eqb negb orb].
  rewrite get_channel_name by assumption.
  destruct (channels c !! channelName); [reflexivity|]. cbn [truthy].
  destruct (_ && _); reflexivity.
Qed.

(** C1, as the code has it: for a name that starts with '#' and holds
    neither ',' nor the bell character, [getChannel] returns a channel
    object that the cache then holds under that name, and a second call
    returns the same object and changes nothing; for a name that does not
    start with '#' it throws and the client, its cache included, is as
    before. *)
Theorem getChannel_cached (channelName : string) (c : BanchoClient) :
  (channelsCached c ->
   Js.indexOf "#" channelName = 0 ->
   Js.indexOf "," channelName = -1 ->
   Js.indexOf (Js.str Js.BEL) channelName = -1 ->
   returnsCachedChannel channelName c)
  /\ (Js.indexOf "#" channelName <> 0 ->
      getChannel channelName c =
        (Throw (MkError "Invalid channel name!"), c)).
Proof.
  split.
  - intros Hwf Hsharp Hcomma Hbell. unfold returnsCachedChannel.
    rewrite getChannel_valid by assumption.
    destruct (channels c !! channelName) as [ch|] eqn:Hc.
    + exists ch, c. split; [reflexivity|]. split; [by eapply Hwf|].
      split; [assumption|].
      rewrite getChannel_valid by assumption. by rewrite Hc.
    + eexists _, _. split; [reflexivity|]. cbn.
      split; [|split].
      * rewrite lookup_app_r by lia. rewrite Nat.sub_diag.
        destruct (_ && _); by eexists.
      * apply lookup_insert_eq.
      * rewrite getChannel_valid by assumption. cbn.
        by rewrite lookup_insert_eq.
  - intros Hsharp. unfold getChannel.
    destruct (Z.eqb_spec (Js.indexOf "#" channelName) 0); [contradiction|].
    reflexivity.
Qed.

Lemma getChannel_cached_witness :
  returnsCachedChannel "#osu" online
  /\ getChannel "osu" online = (Throw (MkError "Invalid channel name!"), online).
Proof.
  split.
  - apply (getChannel_cached "#osu" online); try reflexivity.
    intros key ch Hk. vm_compute in Hk. discriminate Hk.
  - apply (getChannel_cached "osu" online). vm_compute. discriminate.
Defined.

(** The separator is refused as well. *)
Example getChannel_separator :
  getChannel "#a,#b" online = (Throw (MkError "Invalid channel name!"), online).
Proof. reflexivity. Qed.

(** The cache invariant holds of a new client and [getChannel] keeps
    it. *)
Lemma constructor_channelsCached u p host port apiKey c :
  constructor u p host port apiKey = Ok c -> channelsCached c.
Proof.
  unfold constructor. destruct (_ || _); [discriminate|].
  intros [= <-] key ch Hk. cbn in Hk. by rewrite lookup_empty in Hk.
Qed.

Lemma getChannel_channelsCached channelName c :
  channelsCached c -> channelsCached (getChannel channelName c).2.
Proof.
  intros Hwf. unfold getChannel.
  destruct (_ || _); [exact Hwf|].
  destruct (truthy _); [exact Hwf|].
  assert (Hlt : forall key ch, channels c !! key = Some ch ->
                               (ch < length (heap c))%nat).
  { intros key ch Hk. destruct (Hwf key ch Hk) as [x Hx].
    apply lookup_lt_is_Some. destruct (heap c !! ch); [by eexists|].
    discriminate Hx. }
  destruct (_ && _); intros key ch; client_fields;
    (destruct (decide (channelName = key)) as [->|Hne];
     [ rewrite lookup_insert_eq; intros [= <-];
       rewrite lookup_app_r by lia; rewrite Nat.sub_diag; by eexists
     | rewrite lookup_insert_ne by assumption; intros Hk;
       rewrite lookup_app_l by (by eapply Hlt); by eapply Hwf ]).
Qed.

(** With an API key, an [#mp_] name gets the multiplayer class; without
    one, the generic class. *)
Example getChannel_multiplayer :
  match constructor (Some "me") (Some "secret") None None (Some "key") with
  | Ok c =>
      heap (getChannel "#mp_1" c).2 = [OMultiplayerChannel (newChannel "#mp_1")]
  | Throw _ => False
  end.
Proof. reflexivity. Qed.

Example getChannel_multiplayer_no_key :
  heap (getChannel "#mp_1" offline).2 = [OChannel (newChannel "#mp_1")].
Proof. reflexivity. Qed.

(** ** The user cache *)

(** Facts about single characters, checked on all 256 of them. *)
Lemma lowerChar_idempotent x : Js.lowerChar (Js.lowerChar x) = Js.lowerChar x.
Proof. destruct x as [[] [] [] [] [] [] [] []]; reflexivity. Qed.

Lemma lowerChar_space x : Js.lowerChar x = " "%char -> x = " "%char.
Proof.
  destruct x as [[] [] [] [] [] [] [] []]; intros Hx;
    solve [reflexivity | discriminate Hx].
Qed.

Lemma lowerChar_newline x : Js.lowerChar x = Js.LF -> x = Js.LF.
Proof.
  destruct x as [[] [] [] [] [] [] [] []]; intros Hx;
    solve [reflexivity | discriminate Hx].
Qed.

Lemma lacks_empty c : lacks c "".
Proof. reflexivity. Qed.

Lemma lacks_cons c x s : lacks c (String x s) <-> c <> x /\ lacks c s.
Proof.
  unfold lacks. rewrite indexOf_char_cons.
  pose proof (indexOf_lower_bound (Js.str c) s).
  destruct (Ascii.eqb_spec c x);
    destruct (Z.eqb_spec (Js.indexOf (Js.str c) s) (-1)); split;
    try tauto; try lia; intros [? ?]; tauto.
Qed.

Lemma lacks_take c n s : lacks c s -> lacks c (Js.take n s).
Proof.
  revert n. induction s as [|x s IH]; intros [|n] Hs; try apply lacks_empty.
  cbn [Js.take]. apply lacks_cons in Hs as [? ?]. apply lacks_cons. auto.
Qed.

(** The first element of [split] holds no separator. *)
Lemma lacks_first_line c s : lacks c (default "" (head (Js.split c s))).
Proof.
  induction s as [|x s IH]; [reflexivity|].
  cbn [Js.split]. destruct (Ascii.eqb_spec x c) as [->|Hne]; [reflexivity|].
  pose proof (split_nonempty c s).
  destruct (Js.split c s) as [|h l]; [congruence|].
  cbn in IH |- *. apply lacks_cons. auto.
Qed.

(** Replacing spaces commutes with cutting at the first newline and with
    clipping. *)
Lemma replace_space_cons x s :
  Js.replaceAll " " "_" (String x s) =
    String (if Ascii.eqb x " " then "_"%char else x) (Js.replaceAll " " "_" s).
Proof. cbn [Js.replaceAll]. destruct (Ascii.eqb x " "); reflexivity. Qed.

Lemma first_line_replace s :
  default "" (Js.at_ (Js.split Js.LF (Js.replaceAll " " "_" s)) 0) =
    Js.replaceAll " " "_" (default "" (head (Js.split Js.LF s))).
Proof.
  induction s as [|x s IH]; [reflexivity|].
  rewrite replace_space_cons. cbn [Js.split].
  pose proof (split_nonempty Js.LF s) as H1.
  pose proof (split_nonempty Js.LF (Js.replaceAll " " "_" s)) as H2.
  destruct (Ascii.eqb_spec x " ") as [->|Hsp].
  - cbn [Ascii.eqb Js.LF]. cbn.
    destruct (Js.split Js.LF s) as [|h l]; [congruence|].
    destruct (Js.split Js.LF (Js.replaceAll " " "_" s)) as [|h' l'];
      [congruence|].
    cbn in IH |- *. rewrite IH. reflexivity.
  - destruct (Ascii.eqb x Js.LF); [reflexivity|].
    destruct (Js.split Js.LF s) as [|h l]; [congruence|].
    destruct (Js.split Js.LF (Js.replaceAll " " "_" s)) as [|h' l'];
      [congruence|].
    cbn in IH |- *. rewrite IH.
    destruct (Ascii.eqb_spec x " "); [contradiction|reflexivity].
Qed.

Lemma take_replace n s :
  Js.take n (Js.replaceAll " " "_" s) = Js.replaceAll " " "_" (Js.take n s).
Proof.
  revert n. induction s as [|x s IH]; intros [|n]; try reflexivity.
  rewrite replace_space_cons. cbn [Js.take].
  rewrite replace_space_cons, IH. reflexivity.
Qed.

(** The key of a name is its clipped form, spaces replaced, in lower
    case. *)
Lemma userKey_clipped username :
  userKey username =
    Js.toLowerCase (Js.replaceAll " " "_" (clipped username)).
Proof.
  unfold userKey, clipped.
  rewrite first_line_replace, substring_prefix by lia.
  change (Z.to_nat 28) with 28%nat. by rewrite take_replace.
Qed.

Lemma sameChar_key a b :
  sameChar a b = true ->
  Js.lowerChar (if Ascii.eqb a " " then "_"%char else a) =
    Js.lowerChar (if Ascii.eqb b " " then "_"%char else b).
Proof.
  unfold sameChar. intros Hs. apply orb_prop in Hs as [Hl|Hs].
  - apply Ascii.eqb_eq in Hl.
    destruct (Ascii.eqb_spec a " ") as [->|Ha];
      destruct (Ascii.eqb_spec b " ") as [->|Hb]; try reflexivity.
    + symmetry in Hl. apply lowerChar_space in Hl. contradiction.
    + apply lowerChar_space in Hl. contradiction.
    + exact Hl.
  - apply andb_prop in Hs as [Ha Hb].
    apply orb_prop in Ha as [Ha|Ha]; apply orb_prop in Hb as [Hb|Hb];
      apply Ascii.eqb_eq in Ha as ->; apply Ascii.eqb_eq in Hb as ->;
      reflexivity.
Qed.

Lemma sameName_key s t :
  sameName s t = true ->
  Js.toLowerCase (Js.replaceAll " " "_" s) =
    Js.toLowerCase (Js.replaceAll " " "_" t).
Proof.
  revert t. induction s as [|a s IH]; intros [|b t] Hst;
    try discriminate Hst; [reflexivity|].
  cbn [sameName] in Hst. apply andb_prop in Hst as [Hab Hst].
  rewrite !replace_space_cons. cbn [Js.toLowerCase].
  rewrite (sameChar_key _ _ Hab), (IH _ Hst). reflexivity.
Qed.

(** Names alike up to case and spaces have one key. *)
Lemma sameName_userKey u1 u2 :
  sameName (clipped u1) (clipped u2) = true -> userKey u1 = userKey u2.
Proof. intros Hs. rewrite !userKey_clipped. by apply sameName_key. Qed.

(** What [getUser] does, in terms of the key. *)
Lemma getUser_key username c :
  getUser username c =
    if truthy (get (users c) (userKey username)) then
      (get (users c) (userKey username), c)
    else
      (VRef (length (heap c)),
       set_users (<[userKey username := length (heap c)]> (users c))
         (set_heap
            (heap c ++
               [OUser (mkUser
                  (Js.substring
                     (default ""
                        (Js.at_
                           (Js.split Js.LF (Js.replaceAll " " "_" username)) 0))
                     0 28) None)]) c)).
Proof. unfold getUser, userKey. destruct (truthy _); reflexivity. Qed.

(** What [getUser] returns is what the cache then yields under the key,
    and it is an object. *)
Lemma getUser_returns_cached username c :
  (getUser username c).1 = get (users (getUser username c).2) (userKey username)
  /\ truthy (getUser username c).1 = true.
Proof.
  rewrite getUser_key.
  destruct (truthy (get (users c) (userKey username))) eqn:Ht.
  - by split.
  - client_fields. unfold get. by rewrite lookup_insert_eq.
Qed.

(** An entry that reads as an object is not touched by later calls. *)
Lemma getUser_keeps username c key :
  truthy (get (users c) key) = true ->
  get (users (getUser username c).2) key = get (users c) key.
Proof.
  intros Hkey. rewrite getUser_key.
  destruct (truthy (get (users c) (userKey username))) eqn:Ht;
    [reflexivity|].
  client_fields. unfold get.
  rewrite lookup_insert_ne; [reflexivity|].
  intros Heq. rewrite Heq in Ht. congruence.
Qed.

Lemma getUsers_keeps names c key :
  truthy (get (users c) key) = true ->
  get (users (getUsers names c)) key = get (users c) key.
Proof.
  revert c. induction names as [|n names IH]; intros c Hkey; [reflexivity|].
  cbn [getUsers fold_left]. fold (getUsers names (getUser n c).2).
  rewrite IH; rewrite getUser_keeps; auto.
Qed.

(** Two calls under one key, with any calls in between, return the same
    value. *)
Lemma getUser_same_key u1 u2 between c :
  userKey u1 = userKey u2 ->
  (getUser u2 (getUsers between (getUser u1 c).2)).1 = (getUser u1 c).1.
Proof.
  intros Hkey.
  destruct (getUser_returns_cached u1 c) as [Hret Htruthy].
  rewrite Hret in Htruthy |- *.
  rewrite (getUser_key u2), <- Hkey.
  rewrite getUsers_keeps by assumption.
  rewrite Htruthy. reflexivity.
Qed.

(** Names of code units up to U+00FF: two names that, cut at the first
    newline and clipped to 28 characters, differ by letter case or by
    spaces against underscores only, get the same value from [getUser],
    whatever other names are looked up between the two calls; and so do
    any two names with the same normalized key. *)
Lemma getUser_same_instance (u1 u2 : string) (between : list string)
    (c : BanchoClient) :
  (sameName (clipped u1) (clipped u2) = true ->
   (getUser u2 (getUsers between (getUser u1 c).2)).1 = (getUser u1 c).1)
  /\ (userKey u1 = userKey u2 ->
      (getUser u2 (getUsers between (getUser u1 c).2)).1 = (getUser u1 c).1).
Proof.
  split; intros Hsame; apply getUser_same_key; [|assumption].
  by apply sameName_userKey.
Qed.

(** The object returned for a new name is a new user that keeps the
    spelling it was first asked for. *)
Example getUser_new_user :
  getUser "Foo Bar" online =
    (VRef 1,
     set_users {[ "foo_bar" := 1%nat ]}
       (set_heap [OSocket 60000; OUser (mkUser "Foo_Bar" None)] online)).
Proof. reflexivity. Qed.

(** A name that is a member of [Object.prototype] reads as that member
    and is never stored. *)
Example getUser_inherited :
  getUser "constructor" online = (VNative "constructor", online).
Proof. reflexivity. Qed.

Lemma userKey_normalized username : normalized (userKey username).
Proof.
  rewrite userKey_clipped. unfold normalized, clipped.
  set (line := default "" (head (Js.split Js.LF username))).
  assert (Hline : lacks Js.LF (Js.take 28 line))
    by apply lacks_take, lacks_first_line.
  revert Hline. generalize (length_take line 28).
  generalize (Js.take 28 line) as s. clear. intros s Hlen Hlf.
  assert (Hlen' : (String.length s <= 28)%nat) by lia. clear Hlen.
  revert Hlen' Hlf. generalize 28%nat as n.
  induction s as [|x s IH]; intros n Hn Hlf.
  - repeat split. cbn. lia.
  - apply lacks_cons in Hlf as [Hx Hlf].
    destruct n as [|n]; [cbn in Hn; lia|].
    destruct (IH n) as (Hlow & Hl & Hsp & Hnl); [cbn in Hn; lia|assumption|].
    rewrite replace_space_cons. cbn [Js.toLowerCase String.length].
    repeat split.
    + by rewrite lowerChar_idempotent, Hlow.
    + lia.
    + change (lacks " " (String (Js.lowerChar
        (if Ascii.eqb x " " then "_"%char else x))
        (Js.toLowerCase (Js.replaceAll " " "_" s)))).
      apply lacks_cons. split; [|exact Hsp].
      intros Heq. symmetry in Heq. apply lowerChar_space in Heq.
      destruct (Ascii.eqb_spec x " "); congruence.
    + apply lacks_cons. split; [|exact Hnl].
      intros Heq. symmetry in Heq. apply lowerChar_newline in Heq.
      destruct (Ascii.eqb_spec x " ") as [->|]; [discriminate Heq|congruence].
Qed.

Lemma constructor_usersNormalized u p host port apiKey c :
  constructor u p host port apiKey = Ok c -> usersNormalized c.
Proof.
  unfold constructor. destruct (_ || _); [discriminate|].
  intros [= <-] key l Hk. cbn in Hk. by rewrite lookup_empty in Hk.
Qed.

Lemma getUser_usersNormalized username c :
  usersNormalized c -> usersNormalized (getUser username c).2.
Proof.
  intros Hinv. rewrite getUser_key.
  destruct (truthy _); [exact Hinv|].
  intros key l. client_fields.
  destruct (decide (userKey username = key)) as [<-|Hne].
  - intros _. apply userKey_normalized.
  - rewrite lookup_insert_ne by assumption. apply Hinv.
Qed.

(** Names of code units up to U+00FF: the keys of the users cache are in
    normal form (lower case, 28 characters at most, no space, no newline):
    the cache of a new client is empty, and [getUser] keeps the
    property. *)
Lemma users_keys_normalized :
  (forall u p host port apiKey c,
     constructor u p host port apiKey = Ok c -> usersNormalized c)
  /\ (forall username c,
        usersNormalized c -> usersNormalized (getUser username c).2).
Proof.
  split.
  - apply constructor_usersNormalized.
  - apply getUser_usersNormalized.
Qed.

(** So the keys are in normal form after any run of [getUser] calls on a
    new client. *)
Corollary getUsers_normalized names c :
  usersNormalized c -> usersNormalized (getUsers names c).
Proof.
  revert c. induction names as [|n names IH]; intros c Hc; [exact Hc|].
  cbn [getUsers fold_left]. apply IH.
  by apply getUser_usersNormalized.
Qed.

(** ** Joining and leaving a channel *)

(** While a callback is in the slot, [_joinOrPart] sends nothing and
    changes nothing: it returns what the slot holds. *)
Lemma joinOrPart_pending this action prop ch f c :
  action = "JOIN" \/ action = "PART" ->
  channelOf (heap c !! this) = Some ch ->
  getCallback prop ch = Some f ->
  _joinOrPart this action prop c = (Ok (VRef f), c).
Proof.
  intros Haction Hch Hf. unfold _joinOrPart. rewrite Hch, Hf.
  destruct Haction as [-> | ->]; reflexivity.
Qed.

(** With the slot empty and the client online, [_joinOrPart] sends one
    line and returns a new pending promise; the slot then holds a new
    function, which is another object. *)
Lemma joinOrPart_first this action prop ch sock c :
  action = "JOIN" \/ action = "PART" ->
  heap c !! this = Some (OChannel ch) ->
  getCallback prop ch = None ->
  connectState c = Connected \/ connectState c = Connecting ->
  client c = Some sock ->
  let p := length (heap c) in
  let f := S (length (heap c)) in
  _joinOrPart this action prop c =
    (Ok (VRef p),
     set_effects
       (effects c ++
          [SocketWrite sock
             (action ++ " " ++ name ch ++ Js.str Js.CR ++ Js.str Js.LF)])
       (set_heap
          (<[this := OChannel (setCallback prop (Some f) ch)]>
             (heap c ++
                [OPromise Pending; OFunction (JoinPartCallback this prop p)])%list)
          c)).
Proof.
  intros Haction Hch Hf Hstate Hsock p f. unfold _joinOrPart.
  assert (Hact : negb (String.eqb action "JOIN")
                 && negb (String.eqb action "PART") = false)
    by (destruct Haction as [-> | ->]; reflexivity).
  rewrite Hact, Hch. cbn [channelOf]. rewrite Hf.
  cbn [alloc]. rewrite (send_connected _ _ _ sock) by assumption.
  assert (Hlt : (this < length (heap c))%nat)
    by (apply lookup_lt_is_Some; by eexists).
  unfold storeChannel. client_fields.
  rewrite !lookup_app_l by (rewrite ?length_app; cbn; lia).
  rewrite Hch. client_fields.
  rewrite length_app. cbn [length].
  replace (length (heap c) + 1)%nat with (S (length (heap c))) by lia.
  rewrite <- !app_assoc. cbn [app]. by rewrite !append_assoc.
Qed.

(** C2 fails on the code: of two [join()] calls made before the server
    has answered, the first returns a pending promise and the second the
    callback function stored in the slot, which is another object and no
    promise; the same holds of [leave()]. One JOIN line, and one PART
    line, is sent. *)
Theorem second_join_returns_callback :
  let (first, c1) := join 1 withChannel in
  let (second, c2) := join 1 c1 in
  let (third, c3) := leave 1 c2 in
  let (fourth, c4) := leave 1 c3 in
  first = Ok (VRef 2)
  /\ heap c4 !! 2%nat = Some (OPromise Pending)
  /\ second = Ok (VRef 3)
  /\ heap c4 !! 3%nat = Some (OFunction (JoinPartCallback 1 joinCallbackProp 2))
  /\ third = Ok (VRef 4)
  /\ heap c4 !! 4%nat = Some (OPromise Pending)
  /\ fourth = Ok (VRef 5)
  /\ heap c4 !! 5%nat = Some (OFunction (JoinPartCallback 1 partCallbackProp 4))
  /\ effects c4 =
       [ SocketWrite 0 ("JOIN #osu" ++ Js.str Js.CR ++ Js.str Js.LF);
         SocketWrite 0 ("PART #osu" ++ Js.str Js.CR ++ Js.str Js.LF) ].
Proof. vm_compute. by repeat split. Qed.

(** Once the callback has been called the slot is empty and the promise
    settled; the next [join()] sends a new line. *)
Example join_after_answer :
  let c1 := (join 1 withChannel).2 in
  let c2 := callCallback 3 None c1 in
  heap c2 !! 2%nat = Some (OPromise Resolved)
  /\ (channelOf (heap c2 !! 1%nat)) ≫= joinCallback = None
  /\ length (effects (join 1 c2).2) = 2%nat.
Proof. vm_compute. by repeat split. Qed.

(** Offline, the executor throws: the promise is rejected and the slot
    stays empty. *)
Example join_while_offline :
  let c := (getChannel "#osu" offline).2 in
  let (r, c1) := join 0 c in
  r = Ok (VRef 1)
  /\ heap c1 !! 1%nat =
       Some (OPromise (Rejected (MkError "Currently disconnected!")))
  /\ (channelOf (heap c1 !! 0%nat)) ≫= joinCallback = None
  /\ effects c1 = [].
Proof. vm_compute. by repeat split. Qed.

(** An action other than JOIN and PART is refused. *)
Example joinOrPart_wrong_action :
  _joinOrPart 1 "KICK" joinCallbackProp withChannel =
    (Throw (MkError "wrong action dumbass"), withChannel).
Proof. reflexivity. Qed.

(** ** The cache invariant along the other operations *)

Lemma keepsChannels_refl c : keepsChannels c c.
Proof. by split. Qed.

Lemma keepsChannels_trans c1 c2 c3 :
  keepsChannels c1 c2 -> keepsChannels c2 c3 -> keepsChannels c1 c3.
Proof.
  intros [Hc12 Hh12] [Hc23 Hh23]. split; [congruence|]. auto.
Qed.

Lemma keepsChannels_cached c c' :
  keepsChannels c c' -> channelsCached c -> channelsCached c'.
Proof.
  intros [Hch Hheap] Hwf key ch Hk. rewrite Hch in Hk.
  apply Hheap. by eapply Hwf.
Qed.

Lemma channelOf_lookup_lt (h : list Obj) l :
  is_Some (channelOf (h !! l)) -> (l < length h)%nat.
Proof.
  intros [x Hx]. apply lookup_lt_is_Some.
  destruct (h !! l); [by eexists|discriminate Hx].
Qed.

Lemma alloc_keepsChannels o c : keepsChannels c (alloc o c).2.
Proof.
  split; [reflexivity|]. intros l Hl. client_fields.
  rewrite lookup_app_l; [assumption|]. by apply channelOf_lookup_lt.
Qed.

Lemma store_keepsChannels l o c :
  (is_Some (channelOf (heap c !! l)) -> is_Some (channelOf (Some o))) ->
  keepsChannels c (store l o c).
Proof.
  intros Ho. split; [reflexivity|]. intros l' Hl'. client_fields.
  destruct (decide (l = l')) as [<-|Hne].
  - rewrite list_lookup_insert_eq by (by apply channelOf_lookup_lt). auto.
  - by rewrite list_lookup_insert_ne.
Qed.

Lemma storeChannel_keepsChannels this ch c :
  keepsChannels c (storeChannel this ch c).
Proof.
  unfold storeChannel.
  destruct (heap c !! this) as [[]|]; apply store_keepsChannels;
    intros _; by eexists.
Qed.

Lemma send_keepsChannels data flag c : keepsChannels c (send data flag c).2.
Proof.
  unfold send. destruct (_ || _); [destruct (client c)|destruct flag];
    by split.
Qed.

Lemma updateState_keepsChannels s err c :
  keepsChannels c (updateState s err c).2.
Proof.
  unfold updateState. destruct s as [s|]; [|by split].
  destruct (bool_decide _); [by split|].
  unfold isConnected, isDisconnected.
  repeat (destruct (bool_decide _)); by split.
Qed.

Lemma getUser_keepsChannels username c :
  keepsChannels c (getUser username c).2.
Proof.
  rewrite getUser_key. destruct (truthy _); [by split|].
  split; [reflexivity|]. intros l Hl. client_fields.
  rewrite lookup_app_l; [assumption|]. by apply channelOf_lookup_lt.
Qed.

Lemma joinOrPart_keepsChannels this action prop c :
  keepsChannels c (_joinOrPart this action prop c).2.
Proof.
  unfold _joinOrPart. destruct (_ && _); [by split|].
  destruct (channelOf (heap c !! this)) as [ch|]; [|by split].
  destruct (getCallback prop ch); [by split|].
  destruct (alloc (OPromise Pending) c) as [p c1] eqn:Ha.
  assert (H1 : keepsChannels c c1)
    by (pose proof (alloc_keepsChannels (OPromise Pending) c) as Hk;
        by rewrite Ha in Hk).
  assert (Hp : heap c1 !! p = Some (OPromise Pending)).
  { pose proof (lookup_alloc_new (OPromise Pending) c) as Hn.
    by rewrite Ha in Hn. }
  pose proof (send_keepsChannels (action ++ " " ++ name ch) true c1) as H2.
  assert (Hp2 : heap (send (action ++ " " ++ name ch) true c1).2 !! p
                = Some (OPromise Pending)).
  { unfold send. destruct (_ || _); [destruct (client c1)|]; exact Hp. }
  destruct (send _ true c1) as [[[]|e] c2]; cbn [snd] in *.
  - destruct (alloc (OFunction _) c2) as [f c3] eqn:Hf.
    pose proof (alloc_keepsChannels
      (OFunction (JoinPartCallback this prop p)) c2) as H3.
    rewrite Hf in H3. cbn [snd] in *.
    eapply keepsChannels_trans; [exact H1|].
    eapply keepsChannels_trans; [exact H2|].
    eapply keepsChannels_trans; [exact H3|].
    apply storeChannel_keepsChannels.
  - eapply keepsChannels_trans; [exact H1|].
    eapply keepsChannels_trans; [exact H2|].
    apply store_keepsChannels. rewrite Hp2. intros [x Hx]. discriminate Hx.
Qed.

Lemma callCallback_keepsChannels f err c :
  keepsChannels c (callCallback f err c).
Proof.
  unfold callCallback.
  destruct (heap c !! f) as [[| | | |[|this prop p]|]|];
    try apply keepsChannels_refl.
  set (c1 := match heap c !! p with
             | Some (OPromise Pending) => _
             | _ => c
             end).
  assert (H1 : keepsChannels c c1).
  { subst c1. destruct (heap c !! p) as [[| | |[]| |]|] eqn:Hp;
      try apply keepsChannels_refl.
    apply store_keepsChannels. rewrite Hp. intros [x Hx]. discriminate Hx. }
  destruct (channelOf (heap c1 !! this)); [|exact H1].
  eapply keepsChannels_trans; [exact H1|].
  apply storeChannel_keepsChannels.
Qed.

Lemma connect_keepsChannels c : keepsChannels c (connect c).2.
Proof.
  unfold connect. destruct (_ || _); [apply alloc_keepsChannels|].
  destruct (alloc (OPromise Pending) c) as [p c1] eqn:Ha.
  pose proof (alloc_keepsChannels (OPromise Pending) c) as H1.
  rewrite Ha in H1. cbn [snd] in H1.
  destruct (alloc (OFunction (ConnectCallback p)) c1) as [f c2] eqn:Hf.
  pose proof (alloc_keepsChannels (OFunction (ConnectCallback p)) c1) as H2.
  rewrite Hf in H2. cbn [snd] in H2.
  assert (H3 : keepsChannels c2 (set_connectCallback (Some f) c2))
    by (by split).
  pose proof (updateState_keepsChannels (IsState Connecting) None
                (set_connectCallback (Some f) c2)) as H4.
  assert (Hok : (updateState (IsState Connecting) None
                   (set_connectCallback (Some f) c2)).1 = Ok tt).
  { unfold updateState. by destruct (bool_decide _). }
  destruct (updateState _ None _) as [[[]|e] c4]; [|discriminate Hok].
  cbn [snd] in H4.
  assert (H5 : keepsChannels c4 (initSocket (set_reconnect true c4))).
  { unfold initSocket.
    pose proof (alloc_keepsChannels (OSocket 60000) (set_reconnect true c4))
      as H5.
    destruct (alloc _ _) as [sock c5]. cbn [snd] in H5.
    destruct H5 as [H5a H5b]. by split. }
  assert (H6 : keepsChannels c (initSocket (set_reconnect true c4))).
  { eapply keepsChannels_trans; [exact H1|].
    eapply keepsChannels_trans; [exact H2|].
    eapply keepsChannels_trans; [exact H3|].
    eapply keepsChannels_trans; [exact H4|]. exact H5. }
  destruct (client (initSocket (set_reconnect true c4))); [|exact H6].
  cbn [snd]. destruct H6 as [H6a H6b]. by split.
Qed.

(** ** More on the framer *)

Lemma removelast_last_split c s :
  (removelast (Js.split c s) ++ [List.last (Js.split c s) ""])%list =
    Js.split c s.
Proof.
  symmetry. apply app_removelast_last, split_nonempty.
Qed.

(** Nothing of the text is lost or added by the framer: the lines it has
    handed over and the rest it keeps, put together with newlines again,
    are the text of the reads without its carriage returns. *)
Lemma framer_reassembles (chunks : list string) :
  exists lines rest,
    onDataAll record chunks "" [] = Some (Ok rest, lines)
    /\ Js.join (Js.str Js.LF) (lines ++ [rest]) =
         Js.replaceAll Js.CR "" (stream chunks).
Proof.
  eexists _, _. split; [apply framer_records_lines|].
  unfold completeLines, partialLine.
  by rewrite removelast_last_split, join_split.
Qed.

Lemma split_lacks_sep c s : Forall (lacks c) (Js.split c s).
Proof.
  induction s as [|x s IH]; [by repeat constructor|].
  cbn [Js.split]. destruct (Ascii.eqb_spec x c) as [->|Hne].
  - constructor; [apply lacks_empty|exact IH].
  - pose proof (split_nonempty c s).
    destruct (Js.split c s) as [|h l]; [congruence|].
    inversion IH; subst. constructor; [|assumption].
    apply lacks_cons. auto.
Qed.

Lemma split_lacks_other c d s :
  lacks d s -> Forall (lacks d) (Js.split c s).
Proof.
  induction s as [|x s IH]; intros Hd; [by repeat constructor|].
  apply lacks_cons in Hd as [Hx Hd]. specialize (IH Hd).
  cbn [Js.split]. destruct (Ascii.eqb x c).
  - constructor; [apply lacks_empty|exact IH].
  - pose proof (split_nonempty c s).
    destruct (Js.split c s) as [|h l]; [congruence|].
    inversion IH; subst. constructor; [|assumption].
    apply lacks_cons. auto.
Qed.

Lemma replaceAll_removes c s : lacks c (Js.replaceAll c "" s).
Proof.
  induction s as [|x s IH]; [reflexivity|].
  cbn [Js.replaceAll]. destruct (Ascii.eqb_spec x c) as [->|Hne].
  - exact IH.
  - apply lacks_cons. auto.
Qed.

(** X2: no command handed to the handler holds a newline or a carriage
    return, and neither does the rest kept in the buffer. *)
Theorem framer_lines_clean (chunks : list string) :
  exists lines rest,
    onDataAll record chunks "" [] = Some (Ok rest, lines)
    /\ Forall (fun l => lacks Js.LF l /\ lacks Js.CR l) (lines ++ [rest]).
Proof.
  eexists _, _. split; [apply framer_records_lines|].
  unfold completeLines, partialLine. rewrite removelast_last_split.
  apply Forall_and. split.
  - apply split_lacks_sep.
  - apply split_lacks_other, replaceAll_removes.
Qed.

(** ** More on the user cache *)

Lemma lacks_replace_id c r s : lacks c s -> Js.replaceAll c r s = s.
Proof.
  induction s as [|x s IH]; intros Hs; [reflexivity|].
  apply lacks_cons in Hs as [Hx Hs]. cbn [Js.replaceAll].
  destruct (Ascii.eqb_spec x c); [congruence|]. by rewrite IH.
Qed.

Lemma lacks_split_id c s : lacks c s -> Js.split c s = [s].
Proof.
  induction s as [|x s IH]; intros Hs; [reflexivity|].
  apply lacks_cons in Hs as [Hx Hs]. cbn [Js.split].
  destruct (Ascii.eqb_spec x c); [congruence|]. by rewrite IH.
Qed.

(** A key in normal form is its own key. *)
Lemma userKey_fixed key : normalized key -> userKey key = key.
Proof.
  intros (Hlow & Hlen & Hsp & Hnl). unfold userKey.
  rewrite (lacks_replace_id " " "_" key) by exact Hsp.
  rewrite (lacks_split_id Js.LF key) by exact Hnl.
  cbn [Js.at_ nth_error default].
  rewrite substring_prefix by lia. rewrite take_all by (cbn; lia).
  exact Hlow.
Qed.

(** In a cache whose keys are in normal form, what the cache holds under
    a key is what [getUser] returns for that key, and the call changes
    nothing. *)
Lemma getUser_finds_cached (key : string) (u : loc) (c : BanchoClient) :
  usersNormalized c ->
  users c !! key = Some u ->
  getUser key c = (VRef u, c).
Proof.
  intros Hinv Hkey. rewrite getUser_key.
  rewrite (userKey_fixed key) by (by eapply Hinv).
  unfold get. by rewrite Hkey.
Qed.

Lemma constructor_usersCached u p host port apiKey c :
  constructor u p host port apiKey = Ok c -> usersCached c.
Proof.
  unfold constructor. destruct (_ || _); [discriminate|].
  intros [= <-]. split.
  - intros key l Hk. cbn in Hk. by rewrite lookup_empty in Hk.
  - intros k1 k2 l Hk. cbn in Hk. by rewrite lookup_empty in Hk.
Qed.

Lemma getUser_usersCached username c :
  usersCached c -> usersCached (getUser username c).2.
Proof.
  intros [Hobj Hinj]. rewrite getUser_key.
  destruct (truthy _); [by split|].
  assert (Hlt : forall key l, users c !! key = Some l ->
                              (l < length (heap c))%nat).
  { intros key l Hk. destruct (Hobj key l Hk) as [user Hu].
    apply lookup_lt_is_Some. by eexists. }
  split; client_fields.
  - intros key l. destruct (decide (userKey username = key)) as [<-|Hne].
    + rewrite lookup_insert_eq. intros [= <-].
      rewrite lookup_app_r by lia. rewrite Nat.sub_diag. by eexists.
    + rewrite lookup_insert_ne by assumption. intros Hk.
      rewrite lookup_app_l by (by eapply Hlt). by eapply Hobj.
  - intros k1 k2 l.
    destruct (decide (userKey username = k1)) as [<-|Hne1];
      destruct (decide (userKey username = k2)) as [<-|Hne2];
      rewrite ?lookup_insert_eq, ?lookup_insert_ne by assumption;
      try done.
    + intros [= <-] Hk. apply Hlt in Hk. lia.
    + intros Hk [= <-]. apply Hlt in Hk. lia.
    + apply Hinj.
Qed.

Lemma getUsers_usersCached names c :
  usersCached c -> usersCached (getUsers names c).
Proof.
  revert c. induction names as [|n names IH]; intros c Hc; [exact Hc|].
  cbn [getUsers fold_left]. apply IH. by apply getUser_usersCached.
Qed.

(** Under distinct keys a cache with one object per key reads distinct
    values. *)
Lemma get_distinct (m : gmap string loc) key1 key2 :
  (forall k1 k2 l, m !! k1 = Some l -> m !! k2 = Some l -> k1 = k2) ->
  key1 <> key2 ->
  truthy (get m key1) = true ->
  get m key1 <> get m key2.
Proof.
  intros Hinj Hne Ht. unfold get in *.
  destruct (m !! key1) as [l1|] eqn:H1; destruct (m !! key2) as [l2|] eqn:H2.
  - intros [= <-]. apply Hne. by eapply Hinj.
  - destruct (existsb _ _); discriminate.
  - destruct (existsb _ _); discriminate.
  - destruct (existsb (String.eqb key1) _); [|discriminate Ht].
    destruct (existsb (String.eqb key2) _); [|discriminate].
    intros [= ?]. contradiction.
Qed.

(** X4: names with different keys never get the same object: with the
    user cache holding one object per key, two calls of [getUser] under
    different keys, whatever calls lie between them, return different
    values. *)
Theorem getUser_distinct_keys (u1 u2 : string) (between : list string)
    (c : BanchoClient) :
  usersCached c ->
  userKey u1 <> userKey u2 ->
  (getUser u2 (getUsers between (getUser u1 c).2)).1 <> (getUser u1 c).1.
Proof.
  intros Hc Hne.
  set (c2 := getUsers between (getUser u1 c).2).
  destruct (getUser_returns_cached u1 c) as [Hret1 Ht1].
  destruct (getUser_returns_cached u2 c2) as [Hret2 Ht2].
  assert (Hkeep : get (users (getUser u2 c2).2) (userKey u1) =
                  (getUser u1 c).1).
  { rewrite getUser_keeps; subst c2; rewrite getUsers_keeps;
      rewrite <- ?Hret1; auto. }
  rewrite Hret2, <- Hkeep. apply not_eq_sym, get_distinct.
  - apply getUser_usersCached, getUsers_usersCached, getUser_usersCached, Hc.
  - exact Hne.
  - by rewrite Hkeep.
Qed.

Lemma getUser_distinct_keys_witness :
  (getUser "peppy" (getUsers ["Foo Bar"] (getUser "Foo_Bar" offline).2)).1
    <> (getUser "Foo_Bar" offline).1.
Proof.
  apply (getUser_distinct_keys "Foo_Bar" "peppy" ["Foo Bar"] offline).
  - apply (constructor_usersCached (Some "me") (Some "secret") None None None).
    reflexivity.
  - vm_compute. discriminate.
Defined.

(** ** More on the channel cache *)

Lemma getChannel_invalid channelName c :
  ~ validChannelName channelName ->
  getChannel channelName c = (Throw (MkError "Invalid channel name!"), c).
Proof.
  intros Hinv. unfold getChannel.
  destruct (Z.eqb_spec (Js.indexOf "#" channelName) 0);
    destruct (Z.eqb_spec (Js.indexOf "," channelName) (-1));
    destruct (Z.eqb_spec (Js.indexOf (Js.str Js.BEL) channelName) (-1));
    try reflexivity.
  exfalso. apply Hinv. by repeat split.
Qed.

Lemma validChannelName_dec channelName :
  validChannelName channelName \/ ~ validChannelName channelName.
Proof.
  unfold validChannelName.
  destruct (Z.eq_dec (Js.indexOf "#" channelName) 0);
    destruct (Z.eq_dec (Js.indexOf "," channelName) (-1));
    destruct (Z.eq_dec (Js.indexOf (Js.str Js.BEL) channelName) (-1));
    tauto.
Qed.

Lemma constructor_channelsValid u p host port apiKey c :
  constructor u p host port apiKey = Ok c -> channelsValid c.
Proof.
  unfold constructor. destruct (_ || _); [discriminate|].
  intros [= <-]. split.
  - intros key l Hk. cbn in Hk. by rewrite lookup_empty in Hk.
  - intros k1 k2 l Hk. cbn in Hk. by rewrite lookup_empty in Hk.
Qed.

Lemma getChannel_channelsValid channelName c :
  channelsCached c -> channelsValid c ->
  channelsValid (getChannel channelName c).2.
Proof.
  intros Hobj [Hval Hinj].
  destruct (validChannelName_dec channelName) as [Hv|Hv];
    [|rewrite getChannel_invalid by assumption; by split].
  destruct Hv as (H1 & H2 & H3). rewrite getChannel_valid by assumption.
  destruct (channels c !! channelName) eqn:Hc; [by split|].
  assert (Hlt : forall key l, channels c !! key = Some l ->
                              (l < length (heap c))%nat)
    by (intros key l Hk; eapply channelOf_lookup_lt, Hobj, Hk).
  cbv zeta. split; client_fields.
  - intros key l. destruct (decide (channelName = key)) as [<-|Hne].
    + intros _. by repeat split.
    + rewrite lookup_insert_ne by assumption. apply Hval.
  - intros k1 k2 l.
    destruct (decide (channelName = k1)) as [<-|Hne1];
      destruct (decide (channelName = k2)) as [<-|Hne2];
      rewrite ?lookup_insert_eq, ?lookup_insert_ne by assumption;
      try done.
    + intros [= <-] Hk. apply Hlt in Hk. lia.
    + intros Hk [= <-]. apply Hlt in Hk. lia.
    + apply Hinj.
Qed.

(** X5: every key of the channel cache is a name [getChannel] accepts,
    and asking for it returns the cached object and changes nothing. *)
Theorem getChannel_finds_cached (key : string) (ch : loc) (c : BanchoClient) :
  channelsValid c ->
  channels c !! key = Some ch ->
  validChannelName key /\ getChannel key c = (Ok (VRef ch), c).
Proof.
  intros [Hval _] Hkey. pose proof (Hval key ch Hkey) as Hv.
  split; [exact Hv|]. destruct Hv as (H1 & H2 & H3).
  rewrite getChannel_valid by assumption. by rewrite Hkey.
Qed.

Lemma getChannel_finds_cached_witness :
  validChannelName "#osu"
  /\ getChannel "#osu" withChannel = (Ok (VRef 1), withChannel).
Proof.
  apply (getChannel_finds_cached "#osu" 1%nat withChannel).
  - apply getChannel_channelsValid.
    + intros key l Hk. vm_compute in Hk. discriminate Hk.
    + split; [intros ? ? Hk|intros ? ? ? Hk]; vm_compute in Hk;
        discriminate Hk.
  - vm_compute. reflexivity.
Defined.



(** With an API key a name that starts with #mp_ gives a multiplayer
    channel, without one a generic channel. *)
Example getChannel_class :
  isMultiplayerName "#mp_42" withKey = true
  /\ isMultiplayerName "#mp_42" offline = false
  /\ isMultiplayerName "#osu" withKey = false.
Proof. by repeat split. Qed.

(** Without an API key no multiplayer channel is ever created. *)
Lemma isMultiplayerName_no_key channelName c :
  osuApi c = None -> isMultiplayerName channelName c = false.
Proof.
  intros Hk. unfold isMultiplayerName. rewrite Hk.
  rewrite bool_decide_eq_false_2 by (intros ?; congruence).
  apply andb_false_r.
Qed.

(** X7: different names never share a channel object: names are compared
    as they are, so a change of letter case gives another channel. *)
Theorem getChannel_distinct_names (name1 name2 : string) (c : BanchoClient) :
  channelsCached c -> channelsValid c ->
  validChannelName name1 -> validChannelName name2 ->
  name1 <> name2 ->
  exists ch1 ch2 c1 c2,
    getChannel name1 c = (Ok (VRef ch1), c1)
    /\ getChannel name2 c1 = (Ok (VRef ch2), c2)
    /\ ch1 <> ch2.
Proof.
  intros Hobj Hval Hv1 Hv2 Hne.
  assert (Hstep : forall name c0, validChannelName name ->
            exists ch c', getChannel name c0 = (Ok (VRef ch), c')
                          /\ channels c' !! name = Some ch
                          /\ (forall k l, channels c0 !! k = Some l ->
                                          channels c' !! k = Some l)).
  { intros name c0 (H1 & H2 & H3). rewrite getChannel_valid by assumption.
    destruct (channels c0 !! name) as [ch|] eqn:Hn.
    - by exists ch, c0.
    - cbv zeta. eexists _, _. split; [reflexivity|]. client_fields.
      split; [apply lookup_insert_eq|].
      intros k l Hk. rewrite lookup_insert_ne; [exact Hk|congruence]. }
  destruct (Hstep name1 c Hv1) as (ch1 & c1 & Hg1 & Hc1 & _).
  destruct (Hstep name2 c1 Hv2) as (ch2 & c2 & Hg2 & Hc2 & Hkeep).
  exists ch1, ch2, c1, c2. split; [exact Hg1|]. split; [exact Hg2|].
  intros <-.
  pose proof (getChannel_channelsCached name1 c Hobj) as Hobj1.
  pose proof (getChannel_channelsValid name1 c Hobj Hval) as Hval1.
  rewrite Hg1 in Hobj1, Hval1. cbn [snd] in Hobj1, Hval1.
  pose proof (getChannel_channelsValid name2 c1 Hobj1 Hval1) as Hval2.
  rewrite Hg2 in Hval2. cbn [snd] in Hval2.
  apply Hne. eapply (proj2 Hval2); [apply Hkeep, Hc1|exact Hc2].
Qed.

Lemma getChannel_distinct_names_witness :
  exists ch1 ch2 c1 c2,
    getChannel "#osu" offline = (Ok (VRef ch1), c1)
    /\ getChannel "#OSU" c1 = (Ok (VRef ch2), c2)
    /\ ch1 <> ch2.
Proof.
  apply (getChannel_distinct_names "#osu" "#OSU" offline).
  - intros key l Hk. vm_compute in Hk. discriminate Hk.
  - split; [intros ? ? Hk|intros ? ? ? Hk]; vm_compute in Hk;
      discriminate Hk.
  - by repeat split.
  - by repeat split.
  - discriminate.
Defined.

(** ** Connecting *)

(** What [connect()] does when it goes on. *)
Lemma connect_proceeds c :
  connectState c = Disconnected \/ connectState c = Reconnecting ->
  let p := length (heap c) in
  exists c',
    connect c = (p, c')
    /\ heap c' =
         (heap c ++ [OPromise Pending; OFunction (ConnectCallback p);
                     OSocket 60000])%list
    /\ connectState c' = Connecting
    /\ connectCallback c' = Some (S p)
    /\ client c' = Some (S (S p))
    /\ reconnect c' = true
    /\ effects c' =
         (effects c ++ [Emit (EvState Connecting None);
                        SocketConnect (S (S p)) (port c) (host c)])%list
    /\ users c' = users c /\ channels c' = channels c
    /\ reconnectTimeout c' = reconnectTimeout c
    /\ ignoreClose c' = ignoreClose c.
Proof.
  intros Hs p. subst p. unfold connect.
  assert (Hb : bool_decide (connectState c = Connected)
               || bool_decide (connectState c = Connecting) = false)
    by (destruct Hs as [-> | ->]; reflexivity).
  rewrite Hb. cbn [alloc].
  rewrite updateState_changes
    by (change (connectState c <> Connecting);
        destruct Hs as [-> | ->]; discriminate).
  unfold initSocket. cbn [alloc].
  eexists. split; [reflexivity|].
  clear Hs Hb. client_open c. client_eval. cbn [lifecycleEvents app].
  rewrite !length_app. cbn [length].
  replace (length hp + 1 + 1)%nat with (S (S (length hp))) by lia.
  replace (length hp + 1)%nat with (S (length hp)) by lia.
  rewrite <- !app_assoc. cbn [app]. by repeat split.
Qed.

(** X8: from the states Disconnected and Reconnecting, [connect()]
    returns a new pending promise, registers the callback that settles it,
    moves to Connecting with one state event, enables reconnection and
    opens one new socket to the configured port and host. The caches are
    untouched. *)
Theorem connect_opens_socket (c : BanchoClient) :
  connectState c = Disconnected \/ connectState c = Reconnecting ->
  let p := length (heap c) in
  exists c',
    connect c = (p, c')
    /\ heap c' =
         (heap c ++ [OPromise Pending; OFunction (ConnectCallback p);
                     OSocket 60000])%list
    /\ connectState c' = Connecting
    /\ connectCallback c' = Some (S p)
    /\ client c' = Some (S (S p))
    /\ reconnect c' = true
    /\ effects c' =
         (effects c ++ [Emit (EvState Connecting None);
                        SocketConnect (S (S p)) (port c) (host c)])%list
    /\ users c' = users c /\ channels c' = channels c.
Proof.
  intros Hs p.
  destruct (connect_proceeds c Hs) as (c' & H). exists c'. tauto.
Qed.

Lemma connect_opens_socket_witness :
  exists c',
    connect offline = (length (heap offline), c')
    /\ heap c' =
         (heap offline ++
            [OPromise Pending;
             OFunction (ConnectCallback (length (heap offline)));
             OSocket 60000])%list
    /\ connectState c' = Connecting
    /\ connectCallback c' = Some (S (length (heap offline)))
    /\ client c' = Some (S (S (length (heap offline))))
    /\ reconnect c' = true
    /\ effects c' =
         (effects offline ++
            [Emit (EvState Connecting None);
             SocketConnect (S (S (length (heap offline))))
               (port offline) (host offline)])%list
    /\ users c' = users offline /\ channels c' = channels offline.
Proof. apply (connect_opens_socket offline). left. reflexivity. Defined.


(** X9: once the socket is connected, the client writes the three
    authentication lines, PASS, USER and NICK, in that order and nothing
    else. *)
Theorem onSocketConnect_authenticates (sock : loc) (c : BanchoClient) :
  onlineOn sock c ->
  exists c',
    onSocketConnect c = (Ok tt, c')
    /\ effects c' =
         (effects c ++
            [ SocketWrite sock
                ("PASS " ++ password c ++ Js.str Js.CR ++ Js.str Js.LF);
              SocketWrite sock
                ("USER " ++ username c ++ " 0 * :" ++ username c
                   ++ Js.str Js.CR ++ Js.str Js.LF);
              SocketWrite sock
                ("NICK " ++ username c ++ Js.str Js.CR ++ Js.str Js.LF) ])%list
    /\ heap c' = heap c /\ connectState c' = connectState c.
Proof.
  intros Hon. unfold onSocketConnect.
  destruct Hon as [Hs Hc].
  rewrite (send_connected _ _ _ sock) by assumption.
  rewrite (send_connected _ _ _ sock) by assumption.
  rewrite (send_connected _ _ _ sock) by assumption.
  eexists. split; [reflexivity|].
  clear Hs Hc. client_open c. client_eval.
  rewrite <- !app_assoc. cbn [app]. rewrite !append_assoc.
  by repeat split.
Qed.

Lemma onSocketConnect_authenticates_witness :
  exists c',
    onSocketConnect (connect offline).2 = (Ok tt, c')
    /\ effects c' =
         (effects (connect offline).2 ++
            [ SocketWrite 2
                ("PASS " ++ password (connect offline).2
                   ++ Js.str Js.CR ++ Js.str Js.LF);
              SocketWrite 2
                ("USER " ++ username (connect offline).2 ++ " 0 * :"
                   ++ username (connect offline).2
                   ++ Js.str Js.CR ++ Js.str Js.LF);
              SocketWrite 2
                ("NICK " ++ username (connect offline).2
                   ++ Js.str Js.CR ++ Js.str Js.LF) ])%list
    /\ heap c' = heap (connect offline).2
    /\ connectState c' = connectState (connect offline).2.
Proof.
  apply (onSocketConnect_authenticates 2%nat (connect offline).2).
  split; [right|]; reflexivity.
Defined.
(** ** More on joining and leaving *)

(** X10: a request made while the client is neither connected nor
    connecting sends nothing: the promise returned is already rejected
    with "Currently disconnected!", and the slot stays empty, so that a
    later request is not taken for a duplicate. *)
Theorem joinOrPart_while_offline (this : loc) (action : string)
    (prop : CallbackProp) (ch : BanchoChannel) (c : BanchoClient) :
  action = "JOIN" \/ action = "PART" ->
  channelOf (heap c !! this) = Some ch ->
  getCallback prop ch = None ->
  connectState c = Disconnected \/ connectState c = Reconnecting ->
  exists c',
    _joinOrPart this action prop c = (Ok (VRef (length (heap c))), c')
    /\ heap c' =
         (heap c ++
            [OPromise (Rejected (MkError "Currently disconnected!"))])%list
    /\ effects c' = effects c
    /\ channelOf (heap c' !! this) = Some ch.
Proof.
  intros Haction Hch Hf Hstate. unfold _joinOrPart.
  assert (Hact : negb (String.eqb action "JOIN")
                 && negb (String.eqb action "PART") = false)
    by (destruct Haction as [-> | ->]; reflexivity).
  rewrite Hact, Hch, Hf. cbn [alloc].
  assert (Hsend : forall data c0, connectState c0 = connectState c ->
            send data true c0 =
              (Throw (MkError "Currently disconnected!"), c0)).
  { intros data c0 Hc0. unfold send. rewrite Hc0.
    destruct Hstate as [-> | ->]; reflexivity. }
  rewrite Hsend by reflexivity.
  eexists. split; [reflexivity|].
  assert (Hlt : (this < length (heap c))%nat).
  { apply lookup_lt_is_Some. destruct (heap c !! this); [by eexists|].
    discriminate Hch. }
  clear Hsend Hstate. client_open c. client_eval.
  split; [|split; [reflexivity|]].
  - apply list_eq. intros i.
    destruct (decide (i = length hp)) as [->|Hi].
    + rewrite list_lookup_insert_eq by (rewrite length_app; cbn; lia).
      rewrite lookup_app_r by lia. by rewrite Nat.sub_diag.
    + rewrite list_lookup_insert_ne by congruence.
      destruct (decide (i < length hp)%nat).
      * by rewrite !lookup_app_l by lia.
      * rewrite !lookup_app_r by lia.
        destruct (i - length hp)%nat as [|k] eqn:Hk; [lia|].
        reflexivity.
  - rewrite list_lookup_insert_ne by lia.
    by rewrite lookup_app_l.
Qed.

Lemma joinOrPart_while_offline_witness :
  exists c',
    _joinOrPart 0 "JOIN" joinCallbackProp (getChannel "#osu" offline).2 =
      (Ok (VRef (length (heap (getChannel "#osu" offline).2))), c')
    /\ heap c' =
         (heap (getChannel "#osu" offline).2 ++
            [OPromise (Rejected (MkError "Currently disconnected!"))])%list
    /\ effects c' = effects (getChannel "#osu" offline).2
    /\ channelOf (heap c' !! 0%nat) = Some (newChannel "#osu").
Proof.
  apply (joinOrPart_while_offline 0%nat "JOIN" joinCallbackProp
           (newChannel "#osu") (getChannel "#osu" offline).2).
  - left. reflexivity.
  - reflexivity.
  - reflexivity.
  - left. reflexivity.
Defined.

Lemma setCallback_get prop f ch : getCallback prop (setCallback prop f ch) = f.
Proof. by destruct prop. Qed.

Lemma setCallback_other prop prop' f ch :
  prop <> prop' -> getCallback prop' (setCallback prop f ch) = getCallback prop' ch.
Proof. by destruct prop, prop'. Qed.

(** What the first request of a kind does to a channel of either class,
    while the client is online. *)
Lemma joinOrPart_online this action prop ch sock c :
  action = "JOIN" \/ action = "PART" ->
  channelOf (heap c !! this) = Some ch ->
  getCallback prop ch = None ->
  onlineOn sock c ->
  let p := length (heap c) in
  exists c',
    _joinOrPart this action prop c = (Ok (VRef p), c')
    /\ effects c' =
         (effects c ++
            [SocketWrite sock
               (action ++ " " ++ name ch ++ Js.str Js.CR ++ Js.str Js.LF)])%list
    /\ heap c' !! p = Some (OPromise Pending)
    /\ heap c' !! S p = Some (OFunction (JoinPartCallback this prop p))
    /\ length (heap c') = S (S p)
    /\ channelOf (heap c' !! this) = Some (setCallback prop (Some (S p)) ch)
    /\ onlineOn sock c'
    /\ (forall l, l <> this -> (l < p)%nat -> heap c' !! l = heap c !! l).
Proof.
  intros Haction Hch Hf [Hstate Hsock] p. unfold _joinOrPart.
  assert (Hact : negb (String.eqb action "JOIN")
                 && negb (String.eqb action "PART") = false)
    by (destruct Haction as [-> | ->]; reflexivity).
  rewrite Hact, Hch, Hf. cbn [alloc].
  rewrite (send_connected _ _ _ sock) by assumption.
  assert (Hlt : (this < length (heap c))%nat).
  { apply lookup_lt_is_Some. destruct (heap c !! this); [by eexists|].
    discriminate Hch. }
  eexists. split; [reflexivity|].
  unfold storeChannel, onlineOn. subst p.
  client_open c. client_eval.
  rewrite !lookup_app_l by (rewrite ?length_app; cbn; lia).
  assert (Hkind : exists o,
            (match hp !! this with
             | Some (OMultiplayerChannel _) =>
                 OMultiplayerChannel (setCallback prop (Some (S (length hp))) ch)
             | _ => OChannel (setCallback prop (Some (S (length hp))) ch)
             end) = o
            /\ channelOf (Some o) =
                 Some (setCallback prop (Some (S (length hp))) ch)).
  { destruct (hp !! this) as [[]|]; eexists; by split. }
  destruct Hkind as (o & Ho & Hoch).
  set (h2 := ((hp ++ [OPromise Pending]) ++
              [OFunction (JoinPartCallback this prop (length hp))])%list).
  assert (Hlen2 : length h2 = S (S (length hp)))
    by (subst h2; rewrite !length_app; cbn; lia).
  assert (Hheap : (let (_, c3) :=
                     match hp !! this with
                     | Some (OMultiplayerChannel _) =>
                         (tt, <[this := OMultiplayerChannel
                                 (setCallback prop (Some (S (length hp))) ch)]> h2)
                     | _ =>
                         (tt, <[this := OChannel
                                 (setCallback prop (Some (S (length hp))) ch)]> h2)
                     end in c3) = <[this := o]> h2)
    by (subst o; by destruct (hp !! this) as [[]|]).
  clear Hheap.
  replace (length (hp ++ [OPromise Pending])) with (S (length hp))
    by (rewrite length_app; cbn; lia).
  assert (Hgoal : forall hfinal, hfinal = <[this := o]> h2 ->
    hfinal !! length hp = Some (OPromise Pending)
    /\ hfinal !! S (length hp) =
         Some (OFunction (JoinPartCallback this prop (length hp)))
    /\ length hfinal = S (S (length hp))
    /\ channelOf (hfinal !! this) =
         Some (setCallback prop (Some (S (length hp))) ch)
    /\ (forall l, l <> this -> (l < length hp)%nat -> hfinal !! l = hp !! l)).
  { intros hfinal ->. repeat split.
    - rewrite list_lookup_insert_ne by lia. subst h2.
      rewrite lookup_app_l by (rewrite length_app; cbn; lia).
      rewrite lookup_app_r by lia. by rewrite Nat.sub_diag.
    - rewrite list_lookup_insert_ne by lia. subst h2.
      rewrite lookup_app_r by (rewrite length_app; cbn; lia).
      rewrite length_app. cbn [length].
      by replace (S (length hp) - (length hp + 1))%nat with 0%nat by lia.
    - by rewrite length_insert.
    - rewrite list_lookup_insert_eq by lia. exact Hoch.
    - intros l Hl Hlp. rewrite list_lookup_insert_ne by congruence.
      subst h2. rewrite <- app_assoc. by rewrite lookup_app_l by lia. }
  destruct (hp !! this) as [[]|] eqn:Hthis; subst o; cbv [heap effects
    connectState client];
    (split; [by rewrite !append_assoc|]);
    match goal with
    | |- ?h !! _ = _ /\ _ =>
        destruct (Hgoal h eq_refl) as (G1 & G2 & G3 & G4 & G5)
    end;
    repeat split; assumption.
Qed.

(** X11: while a request is pending, asking again sends nothing and
    changes nothing: of any two [join()] (or [leave()]) calls made in a
    row on an online client, only the first writes a line. The second
    call returns the callback stored in the slot. *)
Theorem joinOrPart_sends_once (this : loc) (action : string)
    (prop : CallbackProp) (ch : BanchoChannel) (sock : loc)
    (c : BanchoClient) :
  action = "JOIN" \/ action = "PART" ->
  channelOf (heap c !! this) = Some ch ->
  getCallback prop ch = None ->
  onlineOn sock c ->
  exists c',
    _joinOrPart this action prop c = (Ok (VRef (length (heap c))), c')
    /\ effects c' =
         (effects c ++
            [SocketWrite sock
               (action ++ " " ++ name ch ++ Js.str Js.CR ++ Js.str Js.LF)])%list
    /\ _joinOrPart this action prop c' = (Ok (VRef (S (length (heap c)))), c').
Proof.
  intros Haction Hch Hf Hon.
  destruct (joinOrPart_online this action prop ch sock c Haction Hch Hf Hon)
    as (c' & Hfirst & Heff & _ & _ & _ & Hch' & _).
  exists c'. split; [exact Hfirst|]. split; [exact Heff|].
  apply (joinOrPart_pending this action prop _ _ c' Haction Hch').
  apply setCallback_get.
Qed.

Lemma joinOrPart_sends_once_witness :
  exists c',
    _joinOrPart 1 "PART" partCallbackProp withChannel =
      (Ok (VRef (length (heap withChannel))), c')
    /\ effects c' =
         (effects withChannel ++
            [SocketWrite 0
               ("PART" ++ " " ++ name (newChannel "#osu")
                  ++ Js.str Js.CR ++ Js.str Js.LF)])%list
    /\ _joinOrPart 1 "PART" partCallbackProp c' =
         (Ok (VRef (S (length (heap withChannel)))), c').
Proof.
  apply (joinOrPart_sends_once 1%nat "PART" partCallbackProp
           (newChannel "#osu") 0%nat withChannel).
  - right. reflexivity.
  - reflexivity.
  - reflexivity.
  - split; [left|]; reflexivity.
Defined.

(** X12: the two slots are independent: a pending [join()] does not keep
    [leave()] from sending its line, and both requests are then
    pending. *)
Theorem join_then_leave (this : loc) (ch : BanchoChannel) (sock : loc)
    (c : BanchoClient) :
  channelOf (heap c !! this) = Some ch ->
  joinCallback ch = None ->
  partCallback ch = None ->
  onlineOn sock c ->
  exists c1 c2,
    join this c = (Ok (VRef (length (heap c))), c1)
    /\ leave this c1 = (Ok (VRef (S (S (length (heap c))))), c2)
    /\ effects c2 =
         (effects c ++
            [ SocketWrite sock
                ("JOIN " ++ name ch ++ Js.str Js.CR ++ Js.str Js.LF);
              SocketWrite sock
                ("PART " ++ name ch ++ Js.str Js.CR ++ Js.str Js.LF) ])%list
    /\ (channelOf (heap c2 !! this)) ≫= joinCallback
         = Some (S (length (heap c)))
    /\ (channelOf (heap c2 !! this)) ≫= partCallback
         = Some (S (S (S (length (heap c))))).
Proof.
  intros Hch Hj Hp Hon. unfold join, leave.
  destruct (joinOrPart_online this "JOIN" joinCallbackProp ch sock c
              (or_introl eq_refl) Hch Hj Hon)
    as (c1 & H1 & Heff1 & _ & _ & Hlen1 & Hch1 & Hon1 & _).
  destruct (joinOrPart_online this "PART" partCallbackProp _ sock c1
              (or_intror eq_refl) Hch1 Hp Hon1)
    as (c2 & H2 & Heff2 & _ & _ & _ & Hch2 & _).
  exists c1, c2. rewrite Hlen1 in H2, Hch2.
  split; [exact H1|]. split; [exact H2|].
  split; [|by rewrite Hch2].
  rewrite Heff2, Heff1, <- app_assoc. reflexivity.
Qed.

Lemma join_then_leave_witness :
  exists c1 c2,
    join 1 withChannel = (Ok (VRef (length (heap withChannel))), c1)
    /\ leave 1 c1 = (Ok (VRef (S (S (length (heap withChannel))))), c2)
    /\ effects c2 =
         (effects withChannel ++
            [ SocketWrite 0
                ("JOIN " ++ name (newChannel "#osu")
                   ++ Js.str Js.CR ++ Js.str Js.LF);
              SocketWrite 0
                ("PART " ++ name (newChannel "#osu")
                   ++ Js.str Js.CR ++ Js.str Js.LF) ])%list
    /\ (channelOf (heap c2 !! 1%nat)) ≫= joinCallback
         = Some (S (length (heap withChannel)))
    /\ (channelOf (heap c2 !! 1%nat)) ≫= partCallback
         = Some (S (S (S (length (heap withChannel))))).
Proof.
  apply (join_then_leave 1%nat (newChannel "#osu") 0%nat withChannel).
  - reflexivity.
  - reflexivity.
  - reflexivity.
  - split; [left|]; reflexivity.
Defined.

Lemma storeChannel_lookup_this this ch ch0 c :
  channelOf (heap c !! this) = Some ch0 ->
  channelOf (heap (storeChannel this ch c) !! this) = Some ch.
Proof.
  intros Hch. unfold storeChannel.
  assert (Hlt : (this < length (heap c))%nat).
  { apply lookup_lt_is_Some. destruct (heap c !! this); [by eexists|].
    discriminate Hch. }
  destruct (heap c !! this) as [[]|]; client_fields;
    by rewrite list_lookup_insert_eq.
Qed.

Lemma storeChannel_lookup_other this ch c l :
  l <> this -> heap (storeChannel this ch c) !! l = heap c !! l.
Proof.
  intros Hl. unfold storeChannel.
  destruct (heap c !! this) as [[]|]; client_fields;
    by rewrite list_lookup_insert_ne.
Qed.

Lemma storeChannel_effects this ch c :
  effects (storeChannel this ch c) = effects c.
Proof. unfold storeChannel. by destruct (heap c !! this) as [[]|]. Qed.

Lemma setCallback_reset prop f ch :
  getCallback prop ch = None ->
  setCallback prop None (setCallback prop f ch) = ch.
Proof. destruct prop, ch; cbn; by intros ->. Qed.

(** X13: when the server's answer comes in and the stored callback is
    called, the promise of the request is resolved, or rejected with the
    error given, the slot is emptied and nothing is written; the channel
    is as it was before the request. *)
Theorem callCallback_settles (this : loc) (action : string)
    (prop : CallbackProp) (ch : BanchoChannel) (sock : loc)
    (err : option Error) (c : BanchoClient) :
  action = "JOIN" \/ action = "PART" ->
  channelOf (heap c !! this) = Some ch ->
  getCallback prop ch = None ->
  onlineOn sock c ->
  let p := length (heap c) in
  let c1 := (_joinOrPart this action prop c).2 in
  let c2 := callCallback (S p) err c1 in
  heap c2 !! p =
    Some (OPromise (match err with None => Resolved | Some e => Rejected e end))
  /\ channelOf (heap c2 !! this) = Some ch
  /\ effects c2 = effects c1.
Proof.
  intros Haction Hch Hf Hon p c1 c2.
  destruct (joinOrPart_online this action prop ch sock c Haction Hch Hf Hon)
    as (c' & Hfirst & _ & Hp & Hfun & Hlen & Hch' & _ & _).
  subst c1 c2. rewrite Hfirst. cbn [snd]. fold p in Hp, Hfun, Hlen.
  assert (Hlt : (this < p)%nat).
  { subst p. apply lookup_lt_is_Some. destruct (heap c !! this);
      [by eexists|discriminate Hch]. }
  unfold callCallback. rewrite Hfun, Hp.
  set (settled := OPromise _).
  assert (Hthis : channelOf (heap (store p settled c') !! this) =
                  Some (setCallback prop (Some (S p)) ch)).
  { client_fields. by rewrite list_lookup_insert_ne by lia. }
  rewrite Hthis.
  split; [|split].
  - rewrite storeChannel_lookup_other by lia. client_fields.
    apply list_lookup_insert_eq. lia.
  - rewrite (storeChannel_lookup_this _ _ _ _ Hthis).
    by rewrite setCallback_reset.
  - by rewrite storeChannel_effects.
Qed.

Lemma callCallback_settles_witness :
  let p := length (heap withChannel) in
  let c1 := (_joinOrPart 1 "JOIN" joinCallbackProp withChannel).2 in
  let c2 := callCallback (S p) (Some (MkError "No such channel")) c1 in
  heap c2 !! p =
    Some (OPromise (Rejected (MkError "No such channel")))
  /\ channelOf (heap c2 !! 1%nat) = Some (newChannel "#osu")
  /\ effects c2 = effects c1.
Proof.
  apply (callCallback_settles 1%nat "JOIN" joinCallbackProp
           (newChannel "#osu") 0%nat (Some (MkError "No such channel"))
           withChannel).
  - left. reflexivity.
  - reflexivity.
  - reflexivity.
  - split; [left|]; reflexivity.
Defined.

(** ** The listener and the router together *)







Example stream_answers_pings_example :
  let chunks := [ "PING :a" ++ Js.str Js.LF ++ ":x 372 y :z" ++ Js.str Js.CR;
                  Js.str Js.LF ++ "PING :b" ++ Js.str Js.LF ++ "PI" ] in
  option_map (fun r => (r.1, effects r.2))
    (onDataAll (handleIrcCommand noCommands) chunks "" online) =
  Some (Ok "PI",
        [ SocketWrite 0 ("PONG :a" ++ Js.str Js.CR ++ Js.str Js.LF);
          SocketWrite 0 ("PONG :b" ++ Js.str Js.CR ++ Js.str Js.LF) ]).
Proof. vm_compute. reflexivity. Qed.

(** Reading the key [constructor] on the empty table yields
    [Object.prototype.constructor], which has no [handleCommand]. *)
Example inherited_member_throws :
  (handleIrcCommand noCommands ":x constructor y" online).1 =
    Throw (TypeError "IrcCommands[splits[1]].handleCommand is not a function").
Proof. reflexivity. Qed.

(** ** Closing, reconnecting and disconnecting *)

Lemma updateState_fields s err c :
  let c' := (updateState (IsState s) err c).2 in
  (updateState (IsState s) err c).1 = Ok tt
  /\ connectState c' = s
  /\ heap c' = heap c /\ client c' = client c
  /\ reconnect c' = reconnect c
  /\ reconnectTimeout c' = reconnectTimeout c
  /\ connectCallback c' = connectCallback c
  /\ ignoreClose c' = ignoreClose c
  /\ users c' = users c /\ channels c' = channels c.
Proof.
  destruct (decide (connectState c = s)) as [<-|Hne].
  - unfold updateState. rewrite bool_decide_eq_true_2 by reflexivity.
    by repeat split.
  - rewrite updateState_changes by assumption. by repeat split.
Qed.

Lemma clearTimeout_other t t' rt :
  t <> t' -> timers (clearTimeout t rt) !! t' = timers rt !! t'.
Proof.
  intros Hne. unfold clearTimeout.
  destruct (timers rt !! t) as [[ms tk []]|]; try reflexivity.
  cbn [timers]. by rewrite list_lookup_insert_ne.
Qed.

Lemma clearTimeout_this t rt tm :
  timers (clearTimeout t rt) !! t = Some tm -> armedReconnect tm = false.
Proof.
  unfold clearTimeout.
  destruct (timers rt !! t) as [[ms tk st]|] eqn:Ht.
  - destruct st; cbn [timers].
    + rewrite list_lookup_insert_eq by (apply lookup_lt_is_Some; by eexists).
      intros [= <-]. by destruct tk.
    + rewrite Ht. intros [= <-]. by destruct tk.
    + rewrite Ht. intros [= <-]. by destruct tk.
  - rewrite Ht. discriminate.
Qed.

Lemma clearTimeout_bancho t rt : bancho (clearTimeout t rt) = bancho rt.
Proof.
  unfold clearTimeout. by destruct (timers rt !! t) as [[ms tk []]|].
Qed.

Lemma clearTimeout_length t rt :
  length (timers (clearTimeout t rt)) = length (timers rt).
Proof.
  unfold clearTimeout. destruct (timers rt !! t) as [[ms tk []]|];
    try reflexivity.
  cbn [timers]. apply length_insert.
Qed.

Lemma clearTimeout_destroyed t rt :
  destroyed (clearTimeout t rt) = destroyed rt.
Proof.
  unfold clearTimeout. by destruct (timers rt !! t) as [[ms tk []]|].
Qed.

(** Clearing the timer the client holds leaves no reconnect timer
    armed. *)
Lemma clearTimeout_disarms rt :
  timersSound rt ->
  forall t tm,
    timers (match reconnectTimeout (bancho rt) with
            | Some t0 => clearTimeout t0 rt
            | None => rt
            end) !! t = Some tm ->
    armedReconnect tm = false.
Proof.
  intros Hinv t tm Ht.
  destruct (armedReconnect tm) eqn:Harm; [|reflexivity]. exfalso.
  destruct (reconnectTimeout (bancho rt)) as [t0|] eqn:Ht0.
  - destruct (decide (t0 = t)) as [->|Hne].
    + apply clearTimeout_this in Ht. congruence.
    + rewrite clearTimeout_other in Ht by assumption.
      pose proof (Hinv t tm Ht Harm). congruence.
  - pose proof (Hinv t tm Ht Harm). congruence.
Qed.

Lemma clearHeld_fields rt :
  let rt' := match reconnectTimeout (bancho rt) with
             | Some t => clearTimeout t rt
             | None => rt
             end in
  bancho rt' = bancho rt
  /\ length (timers rt') = length (timers rt)
  /\ destroyed rt' = destroyed rt.
Proof.
  destruct (reconnectTimeout (bancho rt)); cbv zeta; [|by repeat split].
  by rewrite clearTimeout_bancho, clearTimeout_length,
    clearTimeout_destroyed.
Qed.

(** What [onClose] does when reconnection is enabled. *)
Lemma onClose_reconnect_fields (err : Error) (rt : Runtime) :
  timersSound rt ->
  connectState (bancho rt) <> Disconnected ->
  reconnect (bancho rt) = true ->
  exists rt',
    onClose err rt = (Ok tt, rt')
    /\ connectState (bancho rt') = Reconnecting
    /\ effects (bancho rt') =
         (effects (bancho rt) ++
            if bool_decide (connectState (bancho rt) = Reconnecting) then []
            else [Emit (EvState Reconnecting (Some err))])%list
    /\ reconnectTimeout (bancho rt') = Some (length (timers rt))
    /\ timers rt' !! length (timers rt) = Some (mkTimer 5000 ReconnectTask Armed)
    /\ timersSound rt'
    /\ connectCallback (bancho rt') = connectCallback (bancho rt)
    /\ heap (bancho rt') = heap (bancho rt)
    /\ ignoreClose (bancho rt') = ignoreClose (bancho rt)
    /\ client (bancho rt') = client (bancho rt)
    /\ reconnect (bancho rt') = reconnect (bancho rt)
    /\ destroyed rt' = destroyed rt
    /\ length (timers rt') = S (length (timers rt))
    /\ (forall t, (t < length (timers rt))%nat ->
                  timers rt' !! t =
                    timers (match reconnectTimeout (bancho rt) with
                            | Some t0 => clearTimeout t0 rt
                            | None => rt
                            end) !! t).
Proof.
  intros Hinv Hstate Hre. unfold onClose.
  rewrite bool_decide_eq_false_2 by assumption. rewrite Hre. cbn [negb].
  pose proof (updateState_fields Reconnecting (Some err) (bancho rt))
    as (Hok & Hs & Hheap & Hcl & Hrec & Hto & Hcb & Hig & Hu & Hch).
  assert (Heff : effects (updateState (IsState Reconnecting) (Some err)
                            (bancho rt)).2 =
           (effects (bancho rt) ++
            if bool_decide (connectState (bancho rt) = Reconnecting) then []
            else [Emit (EvState Reconnecting (Some err))])%list).
  { destruct (decide (connectState (bancho rt) = Reconnecting)) as [He|Hne].
    - rewrite bool_decide_eq_true_2 by assumption. unfold updateState.
      rewrite bool_decide_eq_true_2 by congruence. by rewrite app_nil_r.
    - rewrite bool_decide_eq_false_2 by assumption.
      by rewrite updateState_changes. }
  destruct (updateState (IsState Reconnecting) (Some err) (bancho rt))
    as [[[]|e] c1]; [|discriminate Hok]. cbn [snd] in *.
  assert (Hinv1 : timersSound (set_bancho c1 rt))
    by (intros t tm Ht Ha; cbn [bancho set_bancho]; rewrite Hto;
        by eapply Hinv).
  pose proof (clearHeld_fields (set_bancho c1 rt)) as (Hb2 & Hlen & Hds2).
  pose proof (clearTimeout_disarms _ Hinv1) as Hdis.
  cbn [bancho set_bancho timers destroyed] in Hb2, Hlen, Hds2, Hdis.
  set (rt2 := match reconnectTimeout c1 with
              | Some t => clearTimeout t (set_bancho c1 rt)
              | None => set_bancho c1 rt
              end) in *.
  assert (Htm2 : timers rt2 =
            timers (match reconnectTimeout (bancho rt) with
                    | Some t0 => clearTimeout t0 rt
                    | None => rt
                    end)).
  { subst rt2. rewrite Hto.
    destruct (reconnectTimeout (bancho rt)) as [t0|]; [|reflexivity].
    unfold clearTimeout. cbn [timers set_bancho].
    by destruct (timers rt !! t0) as [[ms tk []]|]. }
  clearbody rt2. cbn [setTimeout].
  eexists. split; [reflexivity|].
  cbn [bancho set_bancho timers destroyed]. rewrite Hb2, Hlen.
  change (reconnect (set_reconnectTimeout ?t c1)) with (reconnect c1).
  change (ignoreClose (set_reconnectTimeout ?t c1)) with (ignoreClose c1).
  change (client (set_reconnectTimeout ?t c1)) with (client c1).
  repeat split; try assumption; try congruence.
  - rewrite lookup_app_r by lia. by rewrite Hlen, Nat.sub_diag.
  - intros t tm Ht Ha. cbn [bancho timers set_bancho] in Ht |- *.
    change (Some (length (timers rt)) = Some t). f_equal.
    destruct (decide (t < length (timers rt2))%nat) as [Hlt|Hge].
    + rewrite lookup_app_l in Ht by assumption.
      apply Hdis in Ht. congruence.
    + rewrite lookup_app_r in Ht by lia.
      apply lookup_lt_Some in Ht as Hlt'. cbn in Hlt'. lia.
  - rewrite length_app, Hlen. cbn. lia.
  - intros t Ht. rewrite <- Htm2. rewrite lookup_app_l; [reflexivity|lia].
Qed.

(** X15: when a connection is lost and reconnection is enabled, [onClose]
    moves to Reconnecting and arms one timer of 5000 ms for the next
    attempt, after clearing the one it held; the state event is emitted
    only if the state changes, and no reconnect timer but the new one is
    left armed. *)
Theorem onClose_schedules_reconnect (err : Error) (rt : Runtime) :
  timersSound rt ->
  connectState (bancho rt) <> Disconnected ->
  reconnect (bancho rt) = true ->
  exists rt',
    onClose err rt = (Ok tt, rt')
    /\ connectState (bancho rt') = Reconnecting
    /\ effects (bancho rt') =
         (effects (bancho rt) ++
            if bool_decide (connectState (bancho rt) = Reconnecting) then []
            else [Emit (EvState Reconnecting (Some err))])%list
    /\ reconnectTimeout (bancho rt') = Some (length (timers rt))
    /\ timers rt' !! length (timers rt) = Some (mkTimer 5000 ReconnectTask Armed)
    /\ timersSound rt'
    /\ connectCallback (bancho rt') = connectCallback (bancho rt)
    /\ heap (bancho rt') = heap (bancho rt).
Proof.
  intros Hinv Hstate Hre.
  destruct (onClose_reconnect_fields err rt Hinv Hstate Hre)
    as (rt' & H1 & H2 & H3 & H4 & H5 & H6 & H7 & H8 & _).
  exists rt'. by repeat split.
Qed.

Lemma onClose_schedules_reconnect_witness :
  exists rt',
    onClose (MkError "read ECONNRESET") (boot online) = (Ok tt, rt')
    /\ connectState (bancho rt') = Reconnecting
    /\ effects (bancho rt') =
         (effects (bancho (boot online)) ++
            if bool_decide (connectState (bancho (boot online)) = Reconnecting)
            then []
            else [Emit (EvState Reconnecting
                          (Some (MkError "read ECONNRESET")))])%list
    /\ reconnectTimeout (bancho rt') = Some (length (timers (boot online)))
    /\ timers rt' !! length (timers (boot online)) =
         Some (mkTimer 5000 ReconnectTask Armed)
    /\ timersSound rt'
    /\ connectCallback (bancho rt') = connectCallback (bancho (boot online))
    /\ heap (bancho rt') = heap (bancho (boot online)).
Proof.
  apply (onClose_schedules_reconnect (MkError "read ECONNRESET") (boot online)).
  - intros t tm Ht. vm_compute in Ht. discriminate Ht.
  - vm_compute. discriminate.
  - reflexivity.
Defined.

(** X16: when a connection is lost and reconnection is disabled,
    [onClose] moves to Disconnected, emits the disconnected event and the
    state event with the error, and sets no timer. *)
Theorem onClose_gives_up (err : Error) (rt : Runtime) :
  connectState (bancho rt) <> Disconnected ->
  reconnect (bancho rt) = false ->
  exists c',
    onClose err rt = (Ok tt, mkRuntime c' (timers rt) (destroyed rt))
    /\ connectState c' = Disconnected
    /\ effects c' =
         (effects (bancho rt) ++
            [Emit (EvDisconnected (Some err));
             Emit (EvState Disconnected (Some err))])%list
    /\ heap c' = heap (bancho rt)
    /\ reconnectTimeout c' = reconnectTimeout (bancho rt).
Proof.
  intros Hstate Hre. unfold onClose.
  rewrite bool_decide_eq_false_2 by assumption. rewrite Hre. cbn [negb].
  rewrite updateState_changes by assumption.
  eexists. split; [reflexivity|]. by repeat split.
Qed.

Lemma onClose_gives_up_witness :
  exists c',
    onClose (MkError "Bad authentication token")
      (boot (set_reconnect false online)) =
      (Ok tt,
       mkRuntime c' (timers (boot (set_reconnect false online)))
         (destroyed (boot (set_reconnect false online))))
    /\ connectState c' = Disconnected
    /\ effects c' =
         (effects (bancho (boot (set_reconnect false online))) ++
            [Emit (EvDisconnected (Some (MkError "Bad authentication token")));
             Emit (EvState Disconnected
                     (Some (MkError "Bad authentication token")))])%list
    /\ heap c' = heap (bancho (boot (set_reconnect false online)))
    /\ reconnectTimeout c' =
         reconnectTimeout (bancho (boot (set_reconnect false online))).
Proof.
  apply (onClose_gives_up (MkError "Bad authentication token")
           (boot (set_reconnect false online))).
  - vm_compute. discriminate.
  - reflexivity.
Defined.

(** [onClose] keeps the timers sound, whatever the state. *)
Lemma onClose_timersSound err rt :
  timersSound rt -> timersSound (onClose err rt).2.
Proof.
  intros Hinv.
  destruct (decide (connectState (bancho rt) = Disconnected)) as [Hd|Hd].
  - unfold onClose. by rewrite bool_decide_eq_true_2.
  - destruct (reconnect (bancho rt)) eqn:Hre.
    + destruct (onClose_reconnect_fields err rt Hinv Hd Hre)
        as (rt' & -> & _ & _ & _ & _ & Hs & _). exact Hs.
    + unfold onClose. rewrite bool_decide_eq_false_2 by assumption.
      rewrite Hre. cbn [negb].
      rewrite updateState_changes by assumption.
      intros t tm Ht Ha. exact (Hinv t tm Ht Ha).
Qed.

Lemma setTimeout_reset_timersSound ms rt :
  timersSound rt -> timersSound (setTimeout ResetIgnoreClose ms rt).2.
Proof.
  intros Hinv t tm Ht Ha. cbn [setTimeout snd bancho timers] in *.
  destruct (decide (t < length (timers rt))%nat).
  - rewrite lookup_app_l in Ht by assumption. by eapply Hinv.
  - rewrite lookup_app_r in Ht by lia.
    destruct (t - length (timers rt))%nat; [|discriminate Ht].
    injection Ht as <-. discriminate Ha.
Qed.

Lemma fireTimer_timersSound t rt :
  timersSound rt -> timersSound (fireTimer t rt).
Proof.
  intros Hinv. unfold fireTimer.
  destruct (timers rt !! t) as [[ms tk st]|] eqn:Ht; [|exact Hinv].
  destruct st; try exact Hinv.
  assert (Hlt : (t < length (timers rt))%nat)
    by (apply lookup_lt_is_Some; by eexists).
  destruct tk.
  - pose proof (Hinv t _ Ht eq_refl) as Hheld.
    intros t' tm Ht' Ha. exfalso.
    unfold reconnectTask in Ht'. cbn [timers set_bancho] in Ht'.
    destruct (decide (t = t')) as [<-|Hne].
    + rewrite list_lookup_insert_eq in Ht' by assumption.
      injection Ht' as <-. discriminate Ha.
    + rewrite list_lookup_insert_ne in Ht' by assumption.
      pose proof (Hinv t' tm Ht' Ha). congruence.
  - intros t' tm Ht' Ha. cbn [timers set_bancho bancho] in *.
    change (reconnectTimeout (bancho rt) = Some t').
    destruct (decide (t = t')) as [<-|Hne].
    + rewrite list_lookup_insert_eq in Ht' by assumption.
      injection Ht' as <-. discriminate Ha.
    + rewrite list_lookup_insert_ne in Ht' by assumption.
      by eapply Hinv.
Qed.

Lemma destroyClient_fields rt :
  bancho (destroyClient rt).2 = bancho rt
  /\ timers (destroyClient rt).2 = timers rt.
Proof. unfold destroyClient. by destruct (client (bancho rt)). Qed.

Lemma timersSound_same rt rt' :
  timers rt' = timers rt ->
  reconnectTimeout (bancho rt') = reconnectTimeout (bancho rt) ->
  timersSound rt -> timersSound rt'.
Proof.
  intros Ht Hr Hinv t tm Hl Ha. rewrite Hr. rewrite Ht in Hl.
  by eapply Hinv.
Qed.

Lemma disconnect_timersSound rt :
  timersSound rt -> timersSound (disconnect rt).2.
Proof.
  intros Hinv. unfold disconnect.
  destruct (bool_decide (connectState (bancho rt) = Disconnected));
    [exact Hinv|].
  set (step1 := if isConnected (bancho rt) then _ else _).
  assert (H1 : timersSound step1.2).
  { subst step1. destruct (isConnected (bancho rt)).
    - apply (timersSound_same rt); [| |exact Hinv].
      + by destruct (send "QUIT" true (bancho rt)).
      + unfold send. destruct (_ || _); [destruct (client (bancho rt))|];
          reflexivity.
    - destruct (bool_decide _); [|exact Hinv].
      destruct (destroyClient_fields rt) as [Hb Ht].
      apply (timersSound_same rt); [exact Ht|by rewrite Hb|exact Hinv]. }
  destruct step1 as [[[]|e] rt1]; [|exact H1]. cbn [snd] in H1.
  set (rt2 := match reconnectTimeout (bancho rt1) with
              | Some t => _
              | None => rt1
              end).
  assert (H2 : forall t tm, timers rt2 !! t = Some tm ->
                            armedReconnect tm = false).
  { pose proof (clearTimeout_disarms rt1 H1) as Hdis. subst rt2.
    destruct (reconnectTimeout (bancho rt1)); exact Hdis. }
  pose proof (updateState_fields Disconnected None (bancho rt2))
    as (Hok & _).
  destruct (updateState (IsState Disconnected) None (bancho rt2))
    as [[[]|e] c3]; [|discriminate Hok].
  cbn [snd]. apply setTimeout_reset_timersSound.
  intros t tm Ht Ha. cbn [timers set_bancho] in Ht.
  apply H2 in Ht. congruence.
Qed.

Lemma onSocketTimeout_timersSound rt :
  timersSound rt -> timersSound (onSocketTimeout rt).2.
Proof.
  intros Hinv. unfold onSocketTimeout. cbv zeta.
  set (rt1 := set_bancho (set_ignoreClose true (bancho rt)) rt).
  assert (H1 : timersSound rt1) by exact Hinv.
  destruct (destroyClient_fields rt1) as [Hb Ht].
  assert (H2 : timersSound (destroyClient rt1).2)
    by (apply (timersSound_same rt1); [exact Ht|by rewrite Hb|exact H1]).
  destruct (destroyClient rt1) as [[[]|e] rt2]; [|exact H2]. cbn [snd] in *.
  set (rt3 := set_bancho _ rt2).
  assert (H3 : timersSound rt3) by exact H2.
  pose proof (onClose_timersSound (MkError "Timeout reached") rt3 H3) as H4.
  destruct (onClose _ rt3) as [[[]|e] rt4]; [|exact H4]. cbn [snd] in *.
  by apply setTimeout_reset_timersSound.
Qed.

(** X17: at any time at most one reconnect timer is armed, and it is the
    one held in [reconnectTimeout]: every way a connection can end, every
    timer coming due and [disconnect()] keep it so. *)
Theorem timers_stay_sound (rt : Runtime) :
  timersSound rt ->
  (forall err, timersSound (onClose err rt).2)
  /\ (forall err, timersSound (onSocketError err rt).2)
  /\ timersSound (onSocketClose rt).2
  /\ timersSound (onSocketTimeout rt).2
  /\ (forall t, timersSound (fireTimer t rt))
  /\ timersSound (disconnect rt).2.
Proof.
  intros Hinv. repeat split.
  - intros err. by apply onClose_timersSound.
  - intros err. unfold onSocketError. by apply onClose_timersSound.
  - unfold onSocketClose. destruct (negb _); [|exact Hinv].
    by apply onClose_timersSound.
  - by apply onSocketTimeout_timersSound.
  - intros t. by apply fireTimer_timersSound.
  - by apply disconnect_timersSound.
Qed.

Lemma timers_stay_sound_witness :
  (forall err, timersSound (onClose err (boot online)).2)
  /\ (forall err, timersSound (onSocketError err (boot online)).2)
  /\ timersSound (onSocketClose (boot online)).2
  /\ timersSound (onSocketTimeout (boot online)).2
  /\ (forall t, timersSound (fireTimer t (boot online)))
  /\ timersSound (disconnect (boot online)).2.
Proof.
  apply (timers_stay_sound (boot online)).
  intros t tm Ht. vm_compute in Ht. discriminate Ht.
Defined.

Lemma dropHeld_fields rt :
  let rt' := match reconnectTimeout (bancho rt) with
             | Some t =>
                 set_bancho
                   (set_reconnectTimeout None (bancho (clearTimeout t rt)))
                   (clearTimeout t rt)
             | None => rt
             end in
  reconnectTimeout (bancho rt') = None
  /\ connectState (bancho rt') = connectState (bancho rt)
  /\ effects (bancho rt') = effects (bancho rt)
  /\ heap (bancho rt') = heap (bancho rt)
  /\ client (bancho rt') = client (bancho rt)
  /\ connectCallback (bancho rt') = connectCallback (bancho rt)
  /\ destroyed rt' = destroyed rt
  /\ (timersSound rt ->
      forall t tm, timers rt' !! t = Some tm -> armedReconnect tm = false).
Proof.
  pose proof (clearTimeout_disarms rt) as Hdis.
  destruct (reconnectTimeout (bancho rt)) as [t0|] eqn:Hheld; cbv zeta.
  - cbn [bancho set_bancho timers destroyed].
    rewrite clearTimeout_bancho, clearTimeout_destroyed.
    by repeat split.
  - by repeat split.
Qed.

(** What [disconnect()] does to a client that is not disconnected. *)
Lemma disconnect_fields sock rt :
  timersSound rt ->
  connectState (bancho rt) <> Disconnected ->
  client (bancho rt) = Some sock ->
  exists rt',
    disconnect rt = (Ok tt, rt')
    /\ connectState (bancho rt') = Disconnected
    /\ reconnectTimeout (bancho rt') = None
    /\ (forall t tm, timers rt' !! t = Some tm -> armedReconnect tm = false)
    /\ effects (bancho rt') =
         (effects (bancho rt) ++
            (if bool_decide (connectState (bancho rt) = Connected)
             then [SocketWrite sock ("QUIT" ++ Js.str Js.CR ++ Js.str Js.LF)]
             else []) ++
            [Emit (EvDisconnected None); Emit (EvState Disconnected None)])%list
    /\ destroyed rt' =
         (destroyed rt ++
            if bool_decide (connectState (bancho rt) = Connecting)
            then [sock] else [])%list
    /\ heap (bancho rt') = heap (bancho rt)
    /\ connectCallback (bancho rt') = connectCallback (bancho rt).
Proof.
  intros Hinv Hstate Hsock. unfold disconnect.
  rewrite bool_decide_eq_false_2 by assumption.
  set (step1 := if isConnected (bancho rt) then _ else _).
  assert (H1 : exists rt1,
            step1 = (Ok tt, rt1)
            /\ timersSound rt1
            /\ connectState (bancho rt1) = connectState (bancho rt)
            /\ effects (bancho rt1) =
                 (effects (bancho rt) ++
                    if bool_decide (connectState (bancho rt) = Connected)
                    then [SocketWrite sock
                            ("QUIT" ++ Js.str Js.CR ++ Js.str Js.LF)]
                    else [])%list
            /\ destroyed rt1 =
                 (destroyed rt ++
                    if bool_decide (connectState (bancho rt) = Connecting)
                    then [sock] else [])%list
            /\ heap (bancho rt1) = heap (bancho rt)
            /\ connectCallback (bancho rt1) = connectCallback (bancho rt)).
  { subst step1. unfold isConnected.
    destruct (connectState (bancho rt)) eqn:Hst; try congruence.
    - cbn [bool_decide decide_rel]. unfold destroyClient. rewrite Hsock.
      eexists. split; [reflexivity|].
      rewrite !bool_decide_eq_false_2 by discriminate.
      rewrite ?bool_decide_eq_true_2 by reflexivity.
      cbn [bancho destroyed]. rewrite app_nil_r. by repeat split.
    - eexists. split; [reflexivity|].
      rewrite !bool_decide_eq_false_2 by discriminate.
      rewrite !app_nil_r. by repeat split.
    - rewrite (send_connected _ _ _ sock) by (auto || by left).
      eexists. split; [reflexivity|].
      rewrite bool_decide_eq_true_2 by reflexivity.
      rewrite bool_decide_eq_false_2 by discriminate.
      rewrite app_nil_r. by repeat split. }
  destruct H1 as (rt1 & -> & Hinv1 & Hst1 & Heff1 & Hds1 & Hheap1 & Hcb1).
  pose proof (dropHeld_fields rt1)
    as (Hheld & Hst2 & Heff2 & Hheap2 & _ & Hcb2 & Hds2 & Hdis).
  specialize (Hdis Hinv1). cbv zeta in *.
  set (rt2 := match reconnectTimeout (bancho rt1) with
              | Some t => _
              | None => rt1
              end) in *.
  clearbody rt2.
  rewrite updateState_changes by congruence.
  eexists. split; [reflexivity|].
  cbn [setTimeout snd bancho set_bancho timers destroyed].
  change (connectState (set_effects ?e (set_connectState ?s ?c))) with s.
  change (reconnectTimeout (set_effects ?e (set_connectState ?s ?c)))
    with (reconnectTimeout c).
  change (effects (set_effects ?e (set_connectState ?s ?c))) with e.
  change (heap (set_effects ?e (set_connectState ?s ?c))) with (heap c).
  change (connectCallback (set_effects ?e (set_connectState ?s ?c)))
    with (connectCallback c).
  cbn [lifecycleEvents app].
  rewrite Heff2, Heff1, Hds2, Hds1, Hheap2, Hheap1, Hcb2, Hcb1.
  rewrite <- app_assoc.
  repeat split; try assumption.
  intros t tm Ht.
  destruct (decide (t < length (timers rt2))%nat).
  - rewrite lookup_app_l in Ht by assumption. by eapply Hdis.
  - rewrite lookup_app_r in Ht by lia.
    destruct (t - length (timers rt2))%nat; [|discriminate Ht].
    by injection Ht as <-.
Qed.

Lemma fireTimer_unarmed t rt :
  (forall t tm, timers rt !! t = Some tm -> armedReconnect tm = false) ->
  connectState (bancho (fireTimer t rt)) = connectState (bancho rt)
  /\ heap (bancho (fireTimer t rt)) = heap (bancho rt)
  /\ effects (bancho (fireTimer t rt)) = effects (bancho rt)
  /\ client (bancho (fireTimer t rt)) = client (bancho rt).
Proof.
  intros Hdis. unfold fireTimer.
  destruct (timers rt !! t) as [[ms tk st]|] eqn:Ht; [|by repeat split].
  destruct st; try by repeat split.
  destruct tk; [|by repeat split].
  apply Hdis in Ht. discriminate Ht.
Qed.

(** X18: [disconnect()] is final. It says QUIT when connected, destroys
    the socket when still connecting, clears the reconnect timer and moves
    to Disconnected with one disconnected event and one state event. After
    it [onClose] returns at once, so that the closing of the socket
    changes nothing any more, no timer coming due reconnects, and a second
    [disconnect()] does nothing. *)
Theorem disconnect_is_final (sock : loc) (rt : Runtime) :
  timersSound rt ->
  connectState (bancho rt) <> Disconnected ->
  client (bancho rt) = Some sock ->
  exists rt',
    disconnect rt = (Ok tt, rt')
    /\ connectState (bancho rt') = Disconnected
    /\ reconnectTimeout (bancho rt') = None
    /\ effects (bancho rt') =
         (effects (bancho rt) ++
            (if bool_decide (connectState (bancho rt) = Connected)
             then [SocketWrite sock ("QUIT" ++ Js.str Js.CR ++ Js.str Js.LF)]
             else []) ++
            [Emit (EvDisconnected None); Emit (EvState Disconnected None)])%list
    /\ destroyed rt' =
         (destroyed rt ++
            if bool_decide (connectState (bancho rt) = Connecting)
            then [sock] else [])%list
    /\ (forall err, onClose err rt' = (Ok tt, rt'))
    /\ (forall t,
          connectState (bancho (fireTimer t rt')) = Disconnected
          /\ heap (bancho (fireTimer t rt')) = heap (bancho rt)
          /\ effects (bancho (fireTimer t rt')) = effects (bancho rt'))
    /\ disconnect rt' = (Ok tt, rt').
Proof.
  intros Hinv Hstate Hsock.
  destruct (disconnect_fields sock rt Hinv Hstate Hsock)
    as (rt' & Hd & Hs & Hheld & Hdis & Heff & Hds & Hheap & _).
  exists rt'. repeat split; try assumption.
  - intros err. unfold onClose. by rewrite bool_decide_eq_true_2.
  - destruct (fireTimer_unarmed t rt' Hdis) as (H1 & _). congruence.
  - destruct (fireTimer_unarmed t rt' Hdis) as (_ & H2 & _). congruence.
  - by destruct (fireTimer_unarmed t rt' Hdis) as (_ & _ & H3 & _).
  - unfold disconnect. by rewrite bool_decide_eq_true_2.
Qed.

Lemma disconnect_is_final_witness :
  exists rt',
    disconnect (boot online) = (Ok tt, rt')
    /\ connectState (bancho rt') = Disconnected
    /\ reconnectTimeout (bancho rt') = None
    /\ effects (bancho rt') =
         (effects (bancho (boot online)) ++
            (if bool_decide (connectState (bancho (boot online)) = Connected)
             then [SocketWrite 0 ("QUIT" ++ Js.str Js.CR ++ Js.str Js.LF)]
             else []) ++
            [Emit (EvDisconnected None); Emit (EvState Disconnected None)])%list
    /\ destroyed rt' =
         (destroyed (boot online) ++
            if bool_decide (connectState (bancho (boot online)) = Connecting)
            then [0%nat] else [])%list
    /\ (forall err, onClose err rt' = (Ok tt, rt'))
    /\ (forall t,
          connectState (bancho (fireTimer t rt')) = Disconnected
          /\ heap (bancho (fireTimer t rt')) = heap (bancho (boot online))
          /\ effects (bancho (fireTimer t rt')) = effects (bancho rt'))
    /\ disconnect rt' = (Ok tt, rt').
Proof.
  apply (disconnect_is_final 0%nat (boot online)).
  - intros t tm Ht. vm_compute in Ht. discriminate Ht.
  - vm_compute. discriminate.
  - reflexivity.
Defined.

(** X19: a socket that times out is destroyed and reported once: the
    error event is emitted, the connection is closed as by [onClose], and
    the close event that the destroyed socket then fires is ignored. A
    timer of 1 ms is set that ends the ignoring. *)
Theorem timeout_closes_once (sock : loc) (rt : Runtime) :
  timersSound rt ->
  connectState (bancho rt) <> Disconnected ->
  reconnect (bancho rt) = true ->
  client (bancho rt) = Some sock ->
  exists rt',
    onSocketTimeout rt = (Ok tt, rt')
    /\ destroyed rt' = (destroyed rt ++ [sock])%list
    /\ connectState (bancho rt') = Reconnecting
    /\ effects (bancho rt') =
         (effects (bancho rt) ++ [Emit (EvError (MkError "Timeout reached"))] ++
            if bool_decide (connectState (bancho rt) = Reconnecting) then []
            else [Emit (EvState Reconnecting
                          (Some (MkError "Timeout reached")))])%list
    /\ ignoreClose (bancho rt') = true
    /\ onSocketClose rt' = (Ok tt, rt')
    /\ timers rt' !! S (length (timers rt)) =
         Some (mkTimer 1 ResetIgnoreClose Armed)
    /\ ignoreClose (bancho (fireTimer (S (length (timers rt))) rt')) = false.
Proof.
  intros Hinv Hstate Hre Hsock. unfold onSocketTimeout. cbv zeta.
  unfold destroyClient at 1. cbn [bancho set_bancho].
  change (client (set_ignoreClose true (bancho rt))) with (client (bancho rt)).
  rewrite Hsock.
  match goal with |- context [onClose _ ?r] => set (rt3 := r) end.
  assert (Hinv3 : timersSound rt3) by exact Hinv.
  destruct (onClose_reconnect_fields (MkError "Timeout reached") rt3
              Hinv3 Hstate Hre)
    as (rt4 & -> & Hs & Heff & Hheld & Harmed & Hsound & _ & _ & Hig & _ & _
        & Hds & Hlen & _).
  cbn [setTimeout snd].
  eexists. split; [reflexivity|].
  cbn [bancho timers destroyed].
  subst rt3. cbn [bancho timers destroyed set_bancho] in *.
  repeat split; try assumption.
  - rewrite Heff. symmetry.
    exact (app_assoc (effects (bancho rt))
             [Emit (EvError (MkError "Timeout reached"))] _).
  - unfold onSocketClose. cbn [bancho]. rewrite Hig. reflexivity.
  - rewrite lookup_app_r by lia. by rewrite Hlen, Nat.sub_diag.
  - unfold fireTimer. cbn [timers].
    rewrite lookup_app_r by lia. rewrite Hlen, Nat.sub_diag.
    reflexivity.
Qed.

Lemma timeout_closes_once_witness :
  exists rt',
    onSocketTimeout (boot online) = (Ok tt, rt')
    /\ destroyed rt' = (destroyed (boot online) ++ [0%nat])%list
    /\ connectState (bancho rt') = Reconnecting
    /\ effects (bancho rt') =
         (effects (bancho (boot online)) ++
            [Emit (EvError (MkError "Timeout reached"))] ++
            if bool_decide (connectState (bancho (boot online)) = Reconnecting)
            then []
            else [Emit (EvState Reconnecting
                          (Some (MkError "Timeout reached")))])%list
    /\ ignoreClose (bancho rt') = true
    /\ onSocketClose rt' = (Ok tt, rt')
    /\ timers rt' !! S (length (timers (boot online))) =
         Some (mkTimer 1 ResetIgnoreClose Armed)
    /\ ignoreClose
         (bancho (fireTimer (S (length (timers (boot online)))) rt')) = false.
Proof.
  apply (timeout_closes_once 0%nat (boot online)).
  - intros t tm Ht. vm_compute in Ht. discriminate Ht.
  - vm_compute. discriminate.
  - reflexivity.
  - reflexivity.
Defined.

(** X20: an error of the socket followed by its close event, as the
    transport reports a failure, makes one transition only: one error
    event and one state event are emitted, the timer armed for the error
    is cleared for the one armed for the close, and a single reconnect
    timer is left armed. *)
Theorem error_then_close (err : Error) (rt : Runtime) :
  timersSound rt ->
  connectState (bancho rt) = Connected \/ connectState (bancho rt) = Connecting ->
  reconnect (bancho rt) = true ->
  ignoreClose (bancho rt) = false ->
  exists rt1 rt2,
    onSocketError err rt = (Ok tt, rt1)
    /\ onSocketClose rt1 = (Ok tt, rt2)
    /\ connectState (bancho rt2) = Reconnecting
    /\ effects (bancho rt2) =
         (effects (bancho rt) ++
            [Emit (EvError err); Emit (EvState Reconnecting (Some err))])%list
    /\ timers rt2 !! length (timers rt) =
         Some (mkTimer 5000 ReconnectTask Cleared)
    /\ timers rt2 !! S (length (timers rt)) =
         Some (mkTimer 5000 ReconnectTask Armed)
    /\ reconnectTimeout (bancho rt2) = Some (S (length (timers rt)))
    /\ timersSound rt2.
Proof.
  intros Hinv Hstate Hre Hig. unfold onSocketError.
  set (rt0 := set_bancho (emit (EvError err) (bancho rt)) rt).
  assert (Hinv0 : timersSound rt0) by exact Hinv.
  assert (Hstate0 : connectState (bancho rt0) <> Disconnected)
    by (change (connectState (bancho rt) <> Disconnected);
        destruct Hstate as [-> | ->]; discriminate).
  assert (Hnr : connectState (bancho rt0) <> Reconnecting)
    by (change (connectState (bancho rt) <> Reconnecting);
        destruct Hstate as [-> | ->]; discriminate).
  destruct (onClose_reconnect_fields err rt0 Hinv0 Hstate0 Hre)
    as (rt1 & H1 & Hs1 & Heff1 & Hheld1 & Harmed1 & Hsound1 & _ & _ & Hig1
        & _ & Hre1 & _ & Hlen1 & _).
  rewrite bool_decide_eq_false_2 in Heff1 by assumption.
  assert (Hstate1 : connectState (bancho rt1) <> Disconnected)
    by (rewrite Hs1; discriminate).
  assert (Hre1' : reconnect (bancho rt1) = true) by (by rewrite Hre1).
  destruct (onClose_reconnect_fields (MkError "Connection closed") rt1
              Hsound1 Hstate1 Hre1')
    as (rt2 & H2 & Hs2 & Heff2 & Hheld2 & Harmed2 & Hsound2 & _ & _ & _
        & _ & _ & _ & Hlen2 & Hold).
  rewrite bool_decide_eq_true_2 in Heff2 by assumption.
  exists rt1, rt2. split; [exact H1|].
  assert (Hig1' : ignoreClose (bancho rt1) = false)
    by (rewrite Hig1; exact Hig).
  split; [unfold onSocketClose; rewrite Hig1'; exact H2|].
  subst rt0. cbn [bancho timers set_bancho] in *.
  rewrite Hlen1 in Harmed2, Hheld2.
  rewrite app_nil_r in Heff2. rewrite Heff2, Heff1.
  repeat split; try assumption.
  - symmetry.
    exact (app_assoc (effects (bancho rt)) [Emit (EvError err)]
             [Emit (EvState Reconnecting (Some err))]).
  - rewrite Hold by lia. rewrite Hheld1.
    unfold clearTimeout. rewrite Harmed1. cbn [timers].
    apply list_lookup_insert_eq. lia.
Qed.

Lemma error_then_close_witness :
  exists rt1 rt2,
    onSocketError (MkError "read ECONNRESET") (boot online) = (Ok tt, rt1)
    /\ onSocketClose rt1 = (Ok tt, rt2)
    /\ connectState (bancho rt2) = Reconnecting
    /\ effects (bancho rt2) =
         (effects (bancho (boot online)) ++
            [Emit (EvError (MkError "read ECONNRESET"));
             Emit (EvState Reconnecting
                     (Some (MkError "read ECONNRESET")))])%list
    /\ timers rt2 !! length (timers (boot online)) =
         Some (mkTimer 5000 ReconnectTask Cleared)
    /\ timers rt2 !! S (length (timers (boot online))) =
         Some (mkTimer 5000 ReconnectTask Armed)
    /\ reconnectTimeout (bancho rt2) = Some (S (length (timers (boot online))))
    /\ timersSound rt2.
Proof.
  apply (error_then_close (MkError "read ECONNRESET") (boot online)).
  - intros t tm Ht. vm_compute in Ht. discriminate Ht.
  - left. reflexivity.
  - reflexivity.
  - reflexivity.
Defined.

(** What the reconnect timer does when it comes due while the client
    waits to reconnect. *)
Lemma fireTimer_reconnect_fields t ms rt :
  timers rt !! t = Some (mkTimer ms ReconnectTask Armed) ->
  connectState (bancho rt) = Disconnected
    \/ connectState (bancho rt) = Reconnecting ->
  reconnect (bancho rt) = true ->
  let p := length (heap (bancho rt)) in
  let rt' := fireTimer t rt in
  connectState (bancho rt') = Connecting
  /\ connectCallback (bancho rt') = connectCallback (bancho rt)
  /\ reconnectTimeout (bancho rt') = None
  /\ client (bancho rt') = Some (S (S p))
  /\ heap (bancho rt') =
       (heap (bancho rt) ++
          [OPromise Pending; OFunction (ConnectCallback p); OSocket 60000])%list
  /\ effects (bancho rt') =
       (effects (bancho rt) ++
          [Emit (EvState Connecting None);
           SocketConnect (S (S p)) (port (bancho rt)) (host (bancho rt))])%list
  /\ timers rt' = <[t := mkTimer ms ReconnectTask Fired]> (timers rt)
  /\ destroyed rt' = destroyed rt.
Proof.
  intros Ht Hs Hre p rt'. subst rt'. unfold fireTimer. rewrite Ht.
  unfold reconnectTask. cbn [bancho]. rewrite Hre.
  destruct (connect_proceeds (bancho rt) Hs)
    as (c' & Hc & Hheap & Hst & Hcb & Hcl & Hrc & Heff & _ & _ & _ & _).
  rewrite Hc. cbn [set_bancho bancho timers destroyed].
  change (connectState (set_reconnectTimeout ?x (set_connectCallback ?y ?c)))
    with (connectState c).
  change (connectCallback (set_reconnectTimeout ?x (set_connectCallback ?y ?c)))
    with y.
  change (reconnectTimeout (set_reconnectTimeout ?x ?c)) with x.
  change (client (set_reconnectTimeout ?x (set_connectCallback ?y ?c)))
    with (client c).
  change (heap (set_reconnectTimeout ?x (set_connectCallback ?y ?c)))
    with (heap c).
  change (effects (set_reconnectTimeout ?x (set_connectCallback ?y ?c)))
    with (effects c).
  by repeat split.
Qed.

(** X21: when the reconnect timer comes due, a new attempt is made as by
    [connect()], on a new socket, and the connect callback of the caller's
    first attempt is put back in place of the new one; the timer is spent
    and fires no second time. With reconnection switched off in the
    meantime, nothing is attempted. *)
Theorem reconnect_attempt (t : nat) (ms : Z) (rt : Runtime) :
  timers rt !! t = Some (mkTimer ms ReconnectTask Armed) ->
  connectState (bancho rt) = Reconnecting ->
  let p := length (heap (bancho rt)) in
  let rt' := fireTimer t rt in
  (reconnect (bancho rt) = true ->
   connectState (bancho rt') = Connecting
   /\ connectCallback (bancho rt') = connectCallback (bancho rt)
   /\ reconnectTimeout (bancho rt') = None
   /\ client (bancho rt') = Some (S (S p))
   /\ heap (bancho rt') =
        (heap (bancho rt) ++
           [OPromise Pending; OFunction (ConnectCallback p); OSocket 60000])%list
   /\ effects (bancho rt') =
        (effects (bancho rt) ++
           [Emit (EvState Connecting None);
            SocketConnect (S (S p)) (port (bancho rt)) (host (bancho rt))])%list
   /\ fireTimer t rt' = rt')
  /\ (reconnect (bancho rt) = false ->
      bancho rt' = set_reconnectTimeout None (bancho rt)).
Proof.
  intros Ht Hs p rt'. split.
  - intros Hre.
    destruct (fireTimer_reconnect_fields t ms rt Ht (or_intror Hs) Hre)
      as (H1 & H2 & H3 & H4 & H5 & H6 & H7 & _).
    repeat split; try assumption.
    subst rt'. unfold fireTimer at 1. rewrite H7.
    rewrite list_lookup_insert_eq by (apply lookup_lt_is_Some; by eexists).
    reflexivity.
  - intros Hre. subst rt'. unfold fireTimer. rewrite Ht.
    unfold reconnectTask. cbn [bancho]. by rewrite Hre.
Qed.

Lemma reconnect_attempt_witness :
  let rt := (onClose (MkError "read ECONNRESET") (boot online)).2 in
  let p := length (heap (bancho rt)) in
  let rt' := fireTimer 0 rt in
  connectState (bancho rt') = Connecting
  /\ connectCallback (bancho rt') = connectCallback (bancho rt)
  /\ reconnectTimeout (bancho rt') = None
  /\ client (bancho rt') = Some (S (S p))
  /\ heap (bancho rt') =
       (heap (bancho rt) ++
          [OPromise Pending; OFunction (ConnectCallback p); OSocket 60000])%list
  /\ effects (bancho rt') =
       (effects (bancho rt) ++
          [Emit (EvState Connecting None);
           SocketConnect (S (S p)) (port (bancho rt)) (host (bancho rt))])%list
  /\ fireTimer 0 rt' = rt'.
Proof.
  apply (reconnect_attempt 0%nat 5000
           (onClose (MkError "read ECONNRESET") (boot online)).2).
  - reflexivity.
  - reflexivity.
  - reflexivity.
Defined.

(** What a call of the connect callback does while its promise is
    pending. *)
Lemma callConnectCallback_fields c f p arg erase flag :
  connectCallback c = Some f ->
  heap c !! f = Some (OFunction (ConnectCallback p)) ->
  heap c !! p = Some (OPromise Pending) ->
  exists c',
    callConnectCallback arg erase flag c = (Ok tt, c')
    /\ heap c' =
         <[p := OPromise (match arg with
                          | Some err => Rejected err
                          | None => Resolved
                          end)]> (heap c)
    /\ connectCallback c' = (if erase then None else Some f)
    /\ effects c' = effects c
    /\ connectState c' = connectState c.
Proof.
  intros Hcb Hf Hp. unfold callConnectCallback, settle.
  rewrite Hcb, Hf, Hp. eexists. split; [reflexivity|].
  destruct erase; by repeat split.
Qed.

(** X22: the promise of [connect()] is settled once. The first call of
    the connect callback resolves it, or rejects it with the error given,
    and erases the callback; after that a call does nothing, or throws if
    asked to. If the callback is kept, a second call leaves the promise as
    the first call settled it. *)
Theorem connect_promise_settled_once (c : BanchoClient)
    (arg arg' : option Error) :
  connectState c = Disconnected \/ connectState c = Reconnecting ->
  let p := length (heap c) in
  let settled := OPromise (match arg with
                           | Some err => Rejected err
                           | None => Resolved
                           end) in
  exists c1 c2,
    callConnectCallback arg true false (connect c).2 = (Ok tt, c1)
    /\ heap c1 !! p = Some settled
    /\ connectCallback c1 = None
    /\ callConnectCallback arg' true false c1 = (Ok tt, c1)
    /\ callConnectCallback arg' true true c1 =
         (Throw (MkError "Inexistant connect callback!"), c1)
    /\ callConnectCallback arg false false (connect c).2 = (Ok tt, c2)
    /\ heap c2 !! p = Some settled
    /\ callConnectCallback arg' false false c2 = (Ok tt, c2).
Proof.
  intros Hs p settled.
  destruct (connect_proceeds c Hs)
    as (c0 & Hc & Hheap & _ & Hcb & _).
  rewrite Hc. cbn [snd]. fold p in Hheap, Hcb.
  assert (Hp : heap c0 !! p = Some (OPromise Pending)).
  { rewrite Hheap. rewrite lookup_app_r by (subst p; lia).
    by rewrite Nat.sub_diag. }
  assert (Hf : heap c0 !! S p = Some (OFunction (ConnectCallback p))).
  { rewrite Hheap. rewrite lookup_app_r by (subst p; lia).
    by replace (S p - length (heap c))%nat with 1%nat by (subst p; lia). }
  assert (Hlt : (p < length (heap c0))%nat)
    by (apply lookup_lt_is_Some; by eexists).
  destruct (callConnectCallback_fields c0 (S p) p arg true false Hcb Hf Hp)
    as (c1 & H1 & Hheap1 & Hcb1 & _).
  destruct (callConnectCallback_fields c0 (S p) p arg false false Hcb Hf Hp)
    as (c2 & H2 & Hheap2 & Hcb2 & _).
  exists c1, c2. repeat split; try assumption.
  - rewrite Hheap1. by apply list_lookup_insert_eq.
  - unfold callConnectCallback. by rewrite Hcb1.
  - unfold callConnectCallback. by rewrite Hcb1.
  - rewrite Hheap2. by apply list_lookup_insert_eq.
  - unfold callConnectCallback, settle. rewrite Hcb2, Hheap2.
    rewrite list_lookup_insert_ne by lia. rewrite Hf.
    rewrite list_lookup_insert_eq by assumption. subst settled.
    by destruct arg.
Qed.

Lemma connect_promise_settled_once_witness :
  let p := length (heap offline) in
  let settled := OPromise Resolved in
  exists c1 c2,
    callConnectCallback None true false (connect offline).2 = (Ok tt, c1)
    /\ heap c1 !! p = Some settled
    /\ connectCallback c1 = None
    /\ callConnectCallback (Some (MkError "late")) true false c1 = (Ok tt, c1)
    /\ callConnectCallback (Some (MkError "late")) true true c1 =
         (Throw (MkError "Inexistant connect callback!"), c1)
    /\ callConnectCallback None false false (connect offline).2 = (Ok tt, c2)
    /\ heap c2 !! p = Some settled
    /\ callConnectCallback (Some (MkError "late")) false false c2 = (Ok tt, c2).
Proof.
  apply (connect_promise_settled_once offline None (Some (MkError "late"))).
  left. reflexivity.
Defined.

(** X23: the promise of the caller's [connect()] outlives a
    reconnection: when the connection is lost before the welcome, the
    timer comes due and the second attempt is welcomed, it is the promise
    of the first [connect()] that is resolved; the promise made by the
    second attempt stays pending, and the callback is erased. *)
Theorem caller_promise_survives_reconnect (err : Error) (rt : Runtime) :
  timersSound rt ->
  connectState (bancho rt) = Disconnected
    \/ connectState (bancho rt) = Reconnecting ->
  let p := length (heap (bancho rt)) in
  let rt1 := set_bancho (connect (bancho rt)).2 rt in
  exists rt2 c4,
    onClose err rt1 = (Ok tt, rt2)
    /\ callConnectCallback None true false
         (bancho (fireTimer (length (timers rt)) rt2)) = (Ok tt, c4)
    /\ heap c4 !! p = Some (OPromise Resolved)
    /\ heap c4 !! (p + 3)%nat = Some (OPromise Pending)
    /\ connectCallback c4 = None
    /\ connectState c4 = Connecting.
Proof.
  intros Hinv Hs p rt1.
  destruct (connect_proceeds (bancho rt) Hs)
    as (c1 & Hc & Hheap1 & Hst1 & Hcb1 & _ & Hre1 & _ & _ & _ & Hto1 & _).
  fold p in Hheap1, Hcb1.
  subst rt1. rewrite Hc. cbn [snd].
  assert (Hinv1 : timersSound (set_bancho c1 rt)).
  { intros t tm Ht Ha. cbn [bancho set_bancho]. rewrite Hto1.
    by eapply Hinv. }
  assert (Hst1' : connectState (bancho (set_bancho c1 rt)) <> Disconnected)
    by (cbn [bancho set_bancho]; rewrite Hst1; discriminate).
  destruct (onClose_reconnect_fields err (set_bancho c1 rt) Hinv1 Hst1' Hre1)
    as (rt2 & H2 & Hst2 & _ & _ & Harmed2 & _ & Hcb2 & Hheap2 & _ & _ & Hre2
        & _).
  cbn [bancho set_bancho timers] in Harmed2, Hcb2, Hheap2, Hre2.
  rewrite Hre1 in Hre2.
  destruct (fireTimer_reconnect_fields (length (timers rt)) 5000 rt2
              Harmed2 (or_intror Hst2) Hre2)
    as (Hst3 & Hcb3 & _ & _ & Hheap3 & _).
  set (rt3 := fireTimer (length (timers rt)) rt2) in *.
  rewrite Hcb2, Hcb1 in Hcb3.
  assert (Hlen : length (heap c1) = (p + 3)%nat)
    by (rewrite Hheap1, length_app; cbn; subst p; lia).
  cbv zeta in Hheap3. rewrite Hheap2, Hlen, Hheap1 in Hheap3.
  assert (Hp : heap (bancho rt3) !! p = Some (OPromise Pending)).
  { rewrite Hheap3, <- app_assoc. rewrite lookup_app_r by (subst p; lia).
    by rewrite Nat.sub_diag. }
  assert (Hf : heap (bancho rt3) !! S p =
                 Some (OFunction (ConnectCallback p))).
  { rewrite Hheap3, <- app_assoc. rewrite lookup_app_r by (subst p; lia).
    by replace (S p - length (heap (bancho rt)))%nat with 1%nat
      by (subst p; lia). }
  assert (Hp' : heap (bancho rt3) !! (p + 3)%nat = Some (OPromise Pending)).
  { rewrite Hheap3. rewrite lookup_app_r
      by (rewrite length_app; cbn; subst p; lia).
    rewrite length_app. cbn [length].
    by replace (p + 3 - (length (heap (bancho rt)) + 3))%nat with 0%nat
      by (subst p; lia). }
  destruct (callConnectCallback_fields (bancho rt3) (S p) p None true false
              Hcb3 Hf Hp)
    as (c4 & H4 & Hheap4 & Hcb4 & _ & Hst4).
  exists rt2, c4. split; [exact H2|]. split; [exact H4|].
  rewrite Hheap4. repeat split.
  - apply list_lookup_insert_eq. apply lookup_lt_is_Some. by eexists.
  - rewrite list_lookup_insert_ne by lia. exact Hp'.
  - exact Hcb4.
  - congruence.
Qed.

Lemma caller_promise_survives_reconnect_witness :
  let p := length (heap (bancho (boot offline))) in
  let rt1 := set_bancho (connect (bancho (boot offline))).2 (boot offline) in
  exists rt2 c4,
    onClose (MkError "read ECONNRESET") rt1 = (Ok tt, rt2)
    /\ callConnectCallback None true false
         (bancho (fireTimer (length (timers (boot offline))) rt2)) = (Ok tt, c4)
    /\ heap c4 !! p = Some (OPromise Resolved)
    /\ heap c4 !! (p + 3)%nat = Some (OPromise Pending)
    /\ connectCallback c4 = None
    /\ connectState c4 = Connecting.
Proof.
  apply (caller_promise_survives_reconnect (MkError "read ECONNRESET")
           (boot offline)).
  - intros t tm Ht. vm_compute in Ht. discriminate Ht.
  - left. reflexivity.
Defined.

(** X24: every cached channel stays a channel object of the heap: the
    operations of the client only add objects to the heap, settle promises
    and rewrite channels in place. *)
Theorem channel_cache_stays_sound (c : BanchoClient) :
  channelsCached c ->
  (forall channelName, channelsCached (getChannel channelName c).2)
  /\ (forall username, channelsCached (getUser username c).2)
  /\ channelsCached (connect c).2
  /\ (forall this action prop,
        channelsCached (_joinOrPart this action prop c).2)
  /\ (forall f err, channelsCached (callCallback f err c))
  /\ (forall arg erase flag,
        channelsCached (callConnectCallback arg erase flag c).2).
Proof.
  intros Hc. repeat split.
  - intros n. by apply getChannel_channelsCached.
  - intros u. eapply keepsChannels_cached; [apply getUser_keepsChannels|done].
  - eapply keepsChannels_cached; [apply connect_keepsChannels|done].
  - intros this action prop.
    eapply keepsChannels_cached; [apply joinOrPart_keepsChannels|done].
  - intros f err.
    eapply keepsChannels_cached; [apply callCallback_keepsChannels|done].
  - intros arg erase flag. unfold callConnectCallback.
    destruct (connectCallback c) as [f|]; [|by destruct flag].
    set (c1 := match heap c !! f with
               | Some (OFunction (ConnectCallback p)) => _
               | _ => c
               end).
    assert (H1 : keepsChannels c c1).
    { subst c1. destruct (heap c !! f) as [[| | | |[p|]|]|];
        try apply keepsChannels_refl.
      unfold settle. destruct (heap c !! p) as [[| | |[]| |]|] eqn:Hp;
        try apply keepsChannels_refl.
      apply store_keepsChannels. rewrite Hp. intros [x Hx]. discriminate Hx. }
    cbn [snd]. eapply keepsChannels_cached; [|exact Hc].
    destruct erase; [|exact H1].
    destruct H1 as [Ha Hb]. by split.
Qed.

Lemma channel_cache_stays_sound_witness :
  (forall channelName, channelsCached (getChannel channelName withChannel).2)
  /\ (forall username, channelsCached (getUser username withChannel).2)
  /\ channelsCached (connect withChannel).2
  /\ (forall this action prop,
        channelsCached (_joinOrPart this action prop withChannel).2)
  /\ (forall f err, channelsCached (callCallback f err withChannel))
  /\ (forall arg erase flag,
        channelsCached (callConnectCallback arg erase flag withChannel).2).
Proof.
  apply (channel_cache_stays_sound withChannel).
  apply getChannel_channelsCached.
  intros key ch Hk. vm_compute in Hk. discriminate Hk.
Defined.

(** ** Strings of 16-bit code units *)

Example lower_final_sigma :
  Utf16.unicodeLower [0x391; 0x3A3]%N = Some [0x3B1; 0x3C2]%N
  /\ Utf16.unicodeLower [0x3B1; 0x3C3]%N = Some [0x3B1; 0x3C3]%N
  /\ Utf16.unicodeLower [0x3A3; 0x3A3]%N = Some [0x3C3; 0x3C2]%N
  /\ Utf16.unicodeLower [0x130]%N = Some [0x69; 0x307]%N
  /\ Utf16.unicodeLower [0x100]%N = None.
Proof. vm_compute. by repeat split. Qed.

Example decode_split :
  Utf16.utf8 [0xC3; 0xA9; 0x0A]%N = [0xE9; 0x0A]%N
  /\ Utf16.utf8 [0xC3]%N = [0xFFFD]%N
  /\ Utf16.utf8 [0xA9; 0x0A]%N = [0xFFFD; 0x0A]%N
  /\ Utf16.utf8 [0xF0; 0x9F; 0x98; 0x80]%N = [0xD83D; 0xDE00]%N
  /\ Utf16.utf8 [0xE2; 0x82; 0xAC]%N = [0x20AC]%N
  /\ Utf16.utf8 [0xE2; 0x82; 0x41]%N = [0xFFFD; 0x41]%N
  /\ Utf16.utf8 [0xED; 0xA0; 0x80]%N = [0xFFFD; 0xFFFD; 0xFFFD]%N
  /\ Utf16.utf8 [0xC0; 0x80]%N = [0xFFFD; 0xFFFD]%N.
Proof. vm_compute. by repeat split. Qed.

Lemma indexOf16_lower_bound u s : -1 <= Utf16.indexOf u s.
Proof.
  induction s as [|x s IH]; cbn [Utf16.indexOf]; [lia|].
  destruct (N.eqb x u); [lia|].
  destruct (Z.eqb_spec (Utf16.indexOf u s) (-1)); lia.
Qed.

Lemma indexOf16_none u s : Utf16.indexOf u s = -1 <-> u ∉ s.
Proof.
  induction s as [|x s IH]; cbn [Utf16.indexOf].
  - split; [intros _; apply not_elem_of_nil|done].
  - pose proof (indexOf16_lower_bound u s) as Hlb.
    rewrite not_elem_of_cons.
    destruct (N.eqb_spec x u) as [->|Hne].
    + split; [lia|intros [? _]; congruence].
    + destruct (Z.eqb_spec (Utf16.indexOf u s) (-1)) as [He|He].
      * split; [intros _; split; [congruence|by apply IH]|done].
      * split; [lia|]. intros [_ Hn]. apply IH in Hn. contradiction.
Qed.

Lemma substring16_prefix s n :
  0 <= n -> Utf16.substring s 0 n = take (Z.to_nat n) s.
Proof.
  intros Hn. unfold Utf16.substring, Utf16.clamp.
  replace (Z.to_nat (Z.max 0 (Z.min 0 (Z.of_nat (length s)))))
    with 0%nat by lia.
  rewrite Nat.min_0_l, Nat.max_0_l, Nat.sub_0_r, drop_0.
  destruct (Z_le_gt_dec n (Z.of_nat (length s))).
  - f_equal. lia.
  - rewrite !take_ge; auto; lia.
Qed.

Lemma substringFrom16_drop s n :
  0 <= n -> Utf16.substringFrom s n = drop (Z.to_nat n) s.
Proof.
  intros Hn. unfold Utf16.substringFrom, Utf16.substring, Utf16.clamp.
  set (len := length s).
  replace (Z.to_nat (Z.max 0 (Z.min (Z.of_nat len) (Z.of_nat len))))
    with len by lia.
  destruct (Z_le_gt_dec n (Z.of_nat len)).
  - replace (Z.to_nat (Z.max 0 (Z.min n (Z.of_nat len)))) with (Z.to_nat n)
      by lia.
    rewrite Nat.min_l, Nat.max_r by lia.
    apply take_ge. rewrite List.length_skipn. fold len. lia.
  - replace (Z.to_nat (Z.max 0 (Z.min n (Z.of_nat len)))) with len by lia.
    rewrite Nat.min_id, Nat.max_id, Nat.sub_diag.
    rewrite !drop_ge by (fold len; lia). reflexivity.
Qed.

Lemma split16_nonempty c s : Utf16.split c s <> [].
Proof.
  destruct s as [|x s]; cbn [Utf16.split]; [discriminate|].
  destruct (N.eqb x c); [discriminate|].
  destruct (Utf16.split c s); discriminate.
Qed.

(** The loop body of the listener computes [split] one line at a time. *)
Lemma split16_step c s :
  Utf16.split c s =
    let index := Utf16.indexOf c s in
    if negb (index =? -1) then
      Utf16.substring s 0 index
        :: Utf16.split c (Utf16.substringFrom s (index + 1))
    else [s].
Proof.
  induction s as [|x s IH]; [reflexivity|].
  cbn zeta in *. cbn [Utf16.indexOf Utf16.split].
  pose proof (indexOf16_lower_bound c s) as Hlb.
  destruct (N.eqb x c).
  - cbn [Z.eqb negb]. rewrite substring16_prefix, substringFrom16_drop by lia.
    reflexivity.
  - destruct (Z.eqb_spec (Utf16.indexOf c s) (-1)) as [He|Hne].
    + rewrite IH. cbn. reflexivity.
    + rewrite IH. cbn [negb].
      destruct (Z.eqb_spec (Utf16.indexOf c s + 1) (-1)); [lia|].
      cbn [negb].
      rewrite !substring16_prefix, !substringFrom16_drop by lia.
      replace (Z.to_nat (Utf16.indexOf c s + 1))
        with (S (Z.to_nat (Utf16.indexOf c s))) by lia.
      replace (Z.to_nat (Utf16.indexOf c s + 1 + 1))
        with (S (S (Z.to_nat (Utf16.indexOf c s)))) by lia.
      reflexivity.
Qed.

Lemma split16_length c s :
  (length (Utf16.split c s) <= S (length s))%nat.
Proof.
  induction s as [|x s IH]; cbn [Utf16.split length]; [lia|].
  destruct (N.eqb x c); cbn [length]; [lia|].
  destruct (Utf16.split c s); cbn [length] in *; lia.
Qed.

Lemma split16_app c s t :
  Utf16.split c (s ++ t) =
    (removelast (Utf16.split c s)
       ++ Utf16.split c (List.last (Utf16.split c s) [] ++ t))%list.
Proof.
  induction s as [|x s IH]; [reflexivity|].
  cbn [app Utf16.split].
  pose proof (split16_nonempty c s) as Hne.
  destruct (N.eqb x c) eqn:Hx.
  - rewrite removelast_cons, last_cons by assumption.
    rewrite IH. reflexivity.
  - rewrite IH.
    destruct (Utf16.split c s) as [|h [|h' l]] eqn:Hs; [congruence| |].
    + cbn [removelast List.last app].
      cbn [Utf16.split]. rewrite Hx. reflexivity.
    + cbn [removelast List.last app]. reflexivity.
Qed.

Lemma split16_last_no_sep c s :
  Utf16.split c (List.last (Utf16.split c s) []) =
    [List.last (Utf16.split c s) []].
Proof.
  induction s as [|x s IH]; [reflexivity|].
  cbn [Utf16.split]. pose proof (split16_nonempty c s) as Hne.
  destruct (N.eqb x c) eqn:Hx.
  - rewrite last_cons by assumption. exact IH.
  - destruct (Utf16.split c s) as [|h [|h' l]] eqn:Hs; [congruence| |].
    + cbn [List.last] in *. cbn [Utf16.split]. rewrite Hx, IH. reflexivity.
    + exact IH.
Qed.

Lemma replaceAll16_app c r s t :
  Utf16.replaceAll c r (s ++ t) =
    (Utf16.replaceAll c r s ++ Utf16.replaceAll c r t)%list.
Proof.
  induction s as [|x s IH]; [reflexivity|].
  cbn [app Utf16.replaceAll]. rewrite IH.
  destruct (N.eqb x c); [|reflexivity].
  by rewrite app_assoc.
Qed.

Lemma join16_cons sep x y l :
  Utf16.join sep (x :: y :: l) = (x ++ sep ++ Utf16.join sep (y :: l))%list.
Proof. reflexivity. Qed.

Lemma join16_split c s : Utf16.join [c] (Utf16.split c s) = s.
Proof.
  induction s as [|x s IH]; [reflexivity|].
  cbn [Utf16.split]. pose proof (split16_nonempty c s) as Hne.
  destruct (N.eqb_spec x c) as [->|_].
  - destruct (Utf16.split c s) as [|h l]; [congruence|].
    rewrite join16_cons, IH. reflexivity.
  - destruct (Utf16.split c s) as [|h [|h' l]]; [congruence| |].
    + cbn in IH |- *. by rewrite IH.
    + rewrite join16_cons in IH |- *. cbn [app] in IH |- *. by rewrite IH.
Qed.

(** ** The listener on bytes *)

Section ListenerProofs.

Context {H : Type} (toString : list N -> list N)
  (handle : list N -> H -> result unit * H).

Lemma deliver16_app lines1 lines2 h :
  Utf16.deliver handle (lines1 ++ lines2) h =
    match Utf16.deliver handle lines1 h with
    | (Ok _, h') => Utf16.deliver handle lines2 h'
    | (Throw e, h') => (Throw e, h')
    end.
Proof.
  revert h. induction lines1 as [|l lines1 IH]; intros h; [reflexivity|].
  cbn [app Utf16.deliver]. destruct (handle l h) as [[[]|e] h']; [apply IH|].
  reflexivity.
Qed.

(** With one unit of fuel per line of the buffer the loop ends because no
    terminator is left, or because a handler call threw. *)
Lemma drain16_lines fuel unparsedData h :
  (length (Utf16.split Utf16.LF unparsedData) <= fuel)%nat ->
  Utf16.drain handle fuel unparsedData h =
    Some (Utf16.framed handle unparsedData h).
Proof.
  revert unparsedData h.
  induction fuel as [|fuel IH]; intros buf h Hfuel.
  - pose proof (split16_nonempty Utf16.LF buf).
    destruct (Utf16.split Utf16.LF buf); [congruence|simpl in Hfuel; lia].
  - unfold Utf16.framed, Utf16.partialLine, Utf16.completeLines in *.
    rewrite split16_step in Hfuel |- *. cbn [Utf16.drain]. cbv zeta in *.
    destruct (negb (Utf16.indexOf Utf16.LF buf =? -1)).
    + cbn [length] in Hfuel.
      pose proof (split16_nonempty Utf16.LF
        (Utf16.substringFrom buf (Utf16.indexOf Utf16.LF buf + 1))).
      rewrite removelast_cons, last_cons by assumption.
      cbn [Utf16.deliver].
      destruct (handle _ h) as [[[]|e] h']; [|reflexivity].
      apply IH. lia.
    + reflexivity.
Qed.

Lemma onData16_lines data unparsedData h :
  Utf16.onData toString handle data unparsedData h =
    Some (Utf16.framed handle
            (unparsedData ++ Utf16.replaceAll Utf16.CR [] (toString data))
            h).
Proof. unfold Utf16.onData. apply drain16_lines, split16_length. Qed.

Lemma onDataAll16_lines chunks unparsedData h :
  Utf16.split Utf16.LF unparsedData = [unparsedData] ->
  Utf16.onDataAll toString handle chunks unparsedData h =
    Some (Utf16.framed handle
            (unparsedData
               ++ Utf16.replaceAll Utf16.CR [] (Utf16.decoded toString chunks)) h).
Proof.
  revert unparsedData h.
  induction chunks as [|data chunks IH]; intros buf h Hbuf.
  - cbn [Utf16.onDataAll Utf16.decoded map concat Utf16.replaceAll].
    rewrite app_nil_r.
    unfold Utf16.framed, Utf16.partialLine, Utf16.completeLines.
    rewrite Hbuf. reflexivity.
  - cbn [Utf16.onDataAll Utf16.decoded map concat].
    fold (Utf16.decoded toString chunks).
    rewrite onData16_lines, replaceAll16_app, app_assoc.
    unfold Utf16.framed at 2.
    unfold Utf16.partialLine, Utf16.completeLines.
    rewrite (split16_app _ (buf ++ _)).
    rewrite removelast_app_nonempty, last_app_nonempty
      by apply split16_nonempty.
    rewrite deliver16_app. unfold Utf16.framed at 1.
    fold (Utf16.completeLines
            (buf ++ Utf16.replaceAll Utf16.CR [] (toString data))).
    fold (Utf16.partialLine
            (buf ++ Utf16.replaceAll Utf16.CR [] (toString data))).
    destruct (Utf16.deliver handle (Utf16.completeLines _) h)
      as [[[]|e] h']; [|reflexivity].
    rewrite IH by apply split16_last_no_sep. reflexivity.
Qed.

End ListenerProofs.

(** ASCII bytes are their own decoding. *)
Lemma utf8_ascii : Utf16.decodesAscii Utf16.utf8.
Proof.
  intros data.
  unfold Utf16.utf8. induction 1 as [|b data Hb _ IH]; [reflexivity|].
  cbn [Utf16.decode]. unfold Utf16.lead.
  rewrite (proj2 (N.leb_le b 0x7F)) by lia.
  cbn [fst snd app]. by rewrite IH.
Qed.

Lemma decoded_ascii toString chunks :
  Utf16.decodesAscii toString ->
  Forall Utf16.asciiBytes chunks ->
  Utf16.decoded toString chunks = Utf16.bytes chunks.
Proof.
  intros Hdec. unfold Utf16.decoded, Utf16.bytes.
  induction 1 as [|data chunks Hd _ IH]; [reflexivity|].
  cbn [map concat]. by rewrite Hdec, IH.
Qed.

Lemma deliver16_record lines seen :
  Utf16.deliver Utf16.record lines seen = (Ok tt, (seen ++ lines)%list).
Proof.
  revert seen; induction lines as [|l lines IH]; intros seen;
    cbn [Utf16.deliver Utf16.record].
  - by rewrite app_nil_r.
  - rewrite IH. by rewrite <- app_assoc.
Qed.

Lemma listener_records_lines toString chunks :
  Utf16.onDataAll toString Utf16.record chunks [] [] =
    Some (Ok (Utf16.partialLine
                (Utf16.replaceAll Utf16.CR []
                   (Utf16.decoded toString chunks))),
          Utf16.completeLines
            (Utf16.replaceAll Utf16.CR [] (Utf16.decoded toString chunks))).
Proof.
  rewrite onDataAll16_lines by reflexivity. unfold Utf16.framed.
  by rewrite deliver16_record.
Qed.

(** A character of two bytes that arrives in two reads is not put
    together again: each read is decoded on its own, and both halves come
    out as U+FFFD. The same bytes in one read give the character. *)
Lemma split_character_not_reassembled :
  Utf16.bytes [[0xC3; 0xA9; 0x0A]%N] = Utf16.bytes [[0xC3]%N; [0xA9; 0x0A]%N]
  /\ Utf16.onDataAll Utf16.utf8 Utf16.record [[0xC3; 0xA9; 0x0A]%N] [] [] =
       Some (Ok [], [[0xE9]%N])
  /\ Utf16.onDataAll Utf16.utf8 Utf16.record [[0xC3]%N; [0xA9; 0x0A]%N] [] [] =
       Some (Ok [], [[0xFFFD; 0xFFFD]%N])
  /\ Utf16.onDataAll Utf16.utf8 Utf16.record [[0xC3; 0xA9; 0x0A]%N] [] [] <>
       Utf16.onDataAll Utf16.utf8 Utf16.record
         [[0xC3]%N; [0xA9; 0x0A]%N] [] [].
Proof. vm_compute. repeat split. discriminate. Qed.

(** C8, as the code has it: whatever the reads of a connection are, the
    listener hands to the command handler the complete lines of their
    text with the carriage returns removed, first to last, and keeps the
    unfinished last line in its buffer; the loop always ends. The text is
    that of the reads one after the other, each read decoded on its own by
    [toString], whatever [toString] makes of a buffer. Hence the outcome
    is the same for any two sequences of reads with the same text, and,
    the decoding of ASCII bytes being these bytes, for any two ways of
    cutting a stream of ASCII bytes into reads. Should a call of the
    handler throw, the exception leaves the listener and the lines up to
    that one have been handed over. *)
Theorem listener_delivers_lines {H} (toString : list N -> list N)
    (handle : list N -> H -> result unit * H)
    (chunks : list (list N)) (h : H) :
  Utf16.onDataAll toString handle chunks [] h =
    Some (Utf16.framed handle
            (Utf16.replaceAll Utf16.CR [] (Utf16.decoded toString chunks)) h)
  /\ (forall chunks',
        Utf16.decoded toString chunks = Utf16.decoded toString chunks' ->
        Utf16.onDataAll toString handle chunks [] h =
          Utf16.onDataAll toString handle chunks' [] h)
  /\ (forall chunks',
        Utf16.decodesAscii toString ->
        Forall Utf16.asciiBytes chunks -> Forall Utf16.asciiBytes chunks' ->
        Utf16.bytes chunks = Utf16.bytes chunks' ->
        Utf16.onDataAll toString handle chunks [] h =
          Utf16.onDataAll toString handle chunks' [] h).
Proof.
  split; [by rewrite onDataAll16_lines|]. split.
  - intros chunks' Heq. by rewrite !onDataAll16_lines, Heq.
  - intros chunks' Hdec Ha Ha' Heq.
    rewrite !onDataAll16_lines by reflexivity.
    by rewrite !decoded_ascii, Heq.
Qed.

Lemma listener_delivers_lines_witness :
  Utf16.onDataAll Utf16.utf8 Utf16.record
    [[0x50; 0x49]%N; [0x4E; 0x47; 0x0D]%N; [0x0A; 0x78]%N] [] [] =
    Some (Utf16.framed Utf16.record
            (Utf16.replaceAll Utf16.CR []
               (Utf16.decoded Utf16.utf8
                  [[0x50; 0x49]%N; [0x4E; 0x47; 0x0D]%N; [0x0A; 0x78]%N])) [])
  /\ Utf16.onDataAll Utf16.utf8 Utf16.record
       [[0x50; 0x49]%N; [0x4E; 0x47; 0x0D]%N; [0x0A; 0x78]%N] [] [] =
     Utf16.onDataAll Utf16.utf8 Utf16.record
       [[0x50; 0x49; 0x4E; 0x47; 0x0D; 0x0A; 0x78]%N] [] []
  /\ Utf16.onDataAll Utf16.utf8 Utf16.record
       [[0xC3; 0xA9]%N; [0x0A]%N] [] [] =
     Utf16.onDataAll Utf16.utf8 Utf16.record [[0xC3; 0xA9; 0x0A]%N] [] [].
Proof.
  split; [|split].
  - apply (listener_delivers_lines Utf16.utf8 Utf16.record
             [[0x50; 0x49]%N; [0x4E; 0x47; 0x0D]%N; [0x0A; 0x78]%N] []).
  - apply (proj2 (proj2 (listener_delivers_lines Utf16.utf8 Utf16.record
             [[0x50; 0x49]%N; [0x4E; 0x47; 0x0D]%N; [0x0A; 0x78]%N] []))).
    + exact utf8_ascii.
    + repeat constructor.
    + repeat constructor.
    + reflexivity.
  - apply (proj1 (proj2 (listener_delivers_lines Utf16.utf8 Utf16.record
             [[0xC3; 0xA9]%N; [0x0A]%N] []))).
    reflexivity.
Defined.

Example listener_ascii_reads :
  Utf16.onDataAll Utf16.utf8 Utf16.record
    [[0x50; 0x49]%N; [0x4E; 0x47; 0x0D]%N; [0x0A; 0x78]%N] [] [] =
  Some (Ok [0x78]%N, [[0x50; 0x49; 0x4E; 0x47]%N]).
Proof. reflexivity. Qed.

Lemma removelast_last_split16 c s :
  (removelast (Utf16.split c s) ++ [List.last (Utf16.split c s) []])%list =
    Utf16.split c s.
Proof.
  symmetry. apply app_removelast_last, split16_nonempty.
Qed.

(** X1: the listener loses and adds nothing of the text it has decoded:
    the lines it has handed over and the rest it keeps, put together with
    newlines again, are the text of the reads, each decoded on its own by
    [toString], without its carriage returns. *)
Theorem listener_reassembles (toString : list N -> list N)
    (chunks : list (list N)) :
  exists lines rest,
    Utf16.onDataAll toString Utf16.record chunks [] [] =
      Some (Ok rest, lines)
    /\ Utf16.join [Utf16.LF] (lines ++ [rest]) =
         Utf16.replaceAll Utf16.CR [] (Utf16.decoded toString chunks).
Proof.
  eexists _, _. split; [apply listener_records_lines|].
  unfold Utf16.completeLines, Utf16.partialLine.
  by rewrite removelast_last_split16, join16_split.
Qed.

(** ** User names beyond U+00FF *)

(** The simple lowercase mapping moves the capitals by 32 and nothing
    else. *)
Lemma simpleLower_spec (u : N) :
  let capital :=
    ((0x41 <= u <= 0x5A) \/ (0xC0 <= u <= 0xDE /\ u <> 0xD7)
     \/ (0x391 <= u <= 0x3A1) \/ (0x3A3 <= u <= 0x3A9))%N in
  (capital /\ Utf16.simpleLower u = (u + 32)%N)
  \/ (~ capital /\ Utf16.simpleLower u = u).
Proof.
  cbv zeta. unfold Utf16.simpleLower, Utf16.greekCapital, Utf16.inRange.
  destruct (_ || _) eqn:Hc; [left|right]; (split; [|reflexivity]).
  - rewrite !orb_true_iff, !andb_true_iff, !N.leb_le, negb_true_iff,
      N.eqb_neq in Hc. lia.
  - intros Hcap. apply not_true_iff_false in Hc. apply Hc.
    rewrite !orb_true_iff, !andb_true_iff, !N.leb_le, negb_true_iff,
      N.eqb_neq. lia.
Qed.

Lemma simpleLower_idempotent u :
  Utf16.simpleLower (Utf16.simpleLower u) = Utf16.simpleLower u.
Proof.
  destruct (simpleLower_spec u) as [[Hc ->]|[Hc ->]];
    destruct (simpleLower_spec (u + 32)) as [[Hc' ?]|[Hc' ?]];
    destruct (simpleLower_spec u) as [[Hc'' ?]|[Hc'' ?]]; lia.
Qed.

Lemma simpleLower_fixes v u :
  (v < 0x41)%N -> Utf16.simpleLower u = v -> u = v.
Proof. intros Hv. destruct (simpleLower_spec u) as [[Hc ->]|[Hc ->]]; lia. Qed.

Lemma simpleLower_latin1 u : (u < 0x100)%N -> (Utf16.simpleLower u < 0x100)%N.
Proof. destruct (simpleLower_spec u) as [[Hc ->]|[Hc ->]]; lia. Qed.

Lemma modelled_latin1 s :
  Utf16.latin1 s -> forallb Utf16.modelled s = true.
Proof.
  induction 1 as [|u s Hu _ IH]; [reflexivity|].
  cbn [forallb]. rewrite IH, andb_true_r. unfold Utf16.modelled.
  by rewrite (proj2 (N.leb_le u 0xFF)) by lia.
Qed.

(** Up to U+00FF lowering goes unit by unit. *)
Lemma lower_latin1 afterCased s :
  Utf16.latin1 s -> Utf16.lower afterCased s = map Utf16.simpleLower s.
Proof.
  intros Hs. revert afterCased.
  induction Hs as [|u s Hu _ IH]; intros afterCased; [reflexivity|].
  cbn [Utf16.lower map].
  rewrite (proj2 (N.eqb_neq u 0x3A3)) by lia.
  rewrite (proj2 (N.eqb_neq u 0x130)) by lia.
  cbn [app]. by rewrite IH.
Qed.

Lemma unicodeLower_latin1 : Utf16.lowersLatin1 Utf16.unicodeLower.
Proof.
  intros s Hs. unfold Utf16.unicodeLower.
  by rewrite modelled_latin1, lower_latin1.
Qed.

Lemma replace_space16 s :
  Utf16.replaceAll Utf16.SPACE [Utf16.LOW_LINE] s = map Utf16.underscored s.
Proof.
  induction s as [|x s IH]; [reflexivity|].
  cbn [Utf16.replaceAll map]. rewrite IH. unfold Utf16.underscored.
  by destruct (N.eqb x Utf16.SPACE).
Qed.

Lemma first_line_underscored s :
  default [] (Js.at_ (Utf16.split Utf16.LF (map Utf16.underscored s)) 0) =
    map Utf16.underscored (default [] (head (Utf16.split Utf16.LF s))).
Proof.
  induction s as [|x s IH]; [reflexivity|].
  cbn [map Utf16.split].
  pose proof (split16_nonempty Utf16.LF s) as H1.
  pose proof (split16_nonempty Utf16.LF (map Utf16.underscored s)) as H2.
  assert (Hx : N.eqb (Utf16.underscored x) Utf16.LF = N.eqb x Utf16.LF).
  { unfold Utf16.underscored.
    destruct (N.eqb_spec x Utf16.SPACE) as [->|]; reflexivity. }
  rewrite Hx. destruct (N.eqb x Utf16.LF); [reflexivity|].
  destruct (Utf16.split Utf16.LF s) as [|h l]; [congruence|].
  destruct (Utf16.split Utf16.LF (map Utf16.underscored s)) as [|h' l'];
    [congruence|].
  cbn in IH |- *. by rewrite IH.
Qed.

Section UsersProofs.

Context (toLowerCase : list N -> option (list N)).

(** The key of a name is its clipped form, spaces replaced, in lower
    case. *)
Lemma userKey16_clipped username :
  Utf16.userKey toLowerCase username =
    toLowerCase (map Utf16.underscored (Utf16.clipped username)).
Proof.
  unfold Utf16.userKey, Utf16.clipped.
  rewrite replace_space16, first_line_underscored, substring16_prefix by lia.
  change (Z.to_nat 28) with 28%nat. by rewrite <- fmap_take.
Qed.

Lemma first_line_Forall (P : N -> Prop) c s :
  Forall P s -> Forall P (default [] (head (Utf16.split c s))).
Proof.
  induction 1 as [|x s Hx _ IH]; [constructor|].
  cbn [Utf16.split]. destruct (N.eqb x c); [constructor|].
  pose proof (split16_nonempty c s).
  destruct (Utf16.split c s) as [|h l]; [congruence|].
  cbn in IH |- *. by constructor.
Qed.

Lemma first_line_no_sep c s :
  c ∉ default [] (head (Utf16.split c s)).
Proof.
  induction s as [|x s IH]; [apply not_elem_of_nil|].
  cbn [Utf16.split]. destruct (N.eqb_spec x c) as [->|Hne];
    [apply not_elem_of_nil|].
  pose proof (split16_nonempty c s).
  destruct (Utf16.split c s) as [|h l]; [congruence|].
  cbn in IH |- *. rewrite not_elem_of_cons. split; [congruence|exact IH].
Qed.

Lemma clipped_latin1 username :
  Utf16.latin1 username -> Utf16.latin1 (Utf16.clipped username).
Proof.
  intros Hu. unfold Utf16.clipped, Utf16.latin1.
  apply Forall_take. by apply first_line_Forall.
Qed.

Lemma underscored_latin1 s :
  Utf16.latin1 s -> Utf16.latin1 (map Utf16.underscored s).
Proof.
  unfold Utf16.latin1. intros Hs. apply Forall_fmap.
  eapply Forall_impl; [exact Hs|]. intros u Hu. cbn.
  unfold Utf16.underscored. by destruct (N.eqb u Utf16.SPACE).
Qed.

(** The key of a name of code units up to U+00FF. *)
Lemma userKey16_latin1 username :
  Utf16.lowersLatin1 toLowerCase ->
  Utf16.latin1 username ->
  Utf16.userKey toLowerCase username =
    Some (map Utf16.simpleLower
            (map Utf16.underscored (Utf16.clipped username))).
Proof.
  intros Hlow Hu. rewrite userKey16_clipped.
  apply Hlow, underscored_latin1, clipped_latin1, Hu.
Qed.

Lemma sameChar16_key a b :
  Utf16.sameChar a b = true ->
  Utf16.simpleLower (Utf16.underscored a) =
    Utf16.simpleLower (Utf16.underscored b).
Proof.
  unfold Utf16.sameChar, Utf16.underscored. intros Hs.
  apply orb_prop in Hs as [Hl|Hs].
  - apply N.eqb_eq in Hl.
    destruct (N.eqb_spec a Utf16.SPACE) as [->|Ha];
      destruct (N.eqb_spec b Utf16.SPACE) as [->|Hb]; try reflexivity.
    + symmetry in Hl. apply (simpleLower_fixes 0x20) in Hl; [|reflexivity].
      contradiction.
    + apply (simpleLower_fixes 0x20) in Hl; [|reflexivity]. contradiction.
    + exact Hl.
  - apply andb_prop in Hs as [Ha Hb].
    apply orb_prop in Ha as [Ha|Ha]; apply orb_prop in Hb as [Hb|Hb];
      apply N.eqb_eq in Ha as ->; apply N.eqb_eq in Hb as ->;
      reflexivity.
Qed.

Lemma sameName16_key s t :
  Utf16.sameName s t = true ->
  map Utf16.simpleLower (map Utf16.underscored s) =
    map Utf16.simpleLower (map Utf16.underscored t).
Proof.
  revert t. induction s as [|a s IH]; intros [|b t] Hst;
    try discriminate Hst; [reflexivity|].
  cbn [Utf16.sameName] in Hst. apply andb_prop in Hst as [Hab Hst].
  cbn [map]. by rewrite (sameChar16_key _ _ Hab), (IH _ Hst).
Qed.

(** What [getUser] does, in terms of the key. *)
Lemma getUser16_key username c :
  Utf16.getUser toLowerCase username c =
    match Utf16.userKey toLowerCase username with
    | None => None
    | Some key =>
        if truthy (Utf16.get (Utf16.users c) key) then
          Some (Utf16.get (Utf16.users c) key, c)
        else
          Some (VRef (length (Utf16.heap c)),
                Utf16.mkClient
                  (<[key := length (Utf16.heap c)]> (Utf16.users c))
                  (Utf16.heap c ++
                     [Utf16.mkUser
                        (Utf16.substring
                           (default []
                              (Js.at_
                                 (Utf16.split Utf16.LF
                                    (Utf16.replaceAll Utf16.SPACE
                                       [Utf16.LOW_LINE] username)) 0))
                           0 28) None]))
    end.
Proof. reflexivity. Qed.

(** The first call: what it returns is truthy and is what the cache then
    yields under the key. *)
Lemma getUser16_first username c key :
  Utf16.userKey toLowerCase username = Some key ->
  exists v c1,
    Utf16.getUser toLowerCase username c = Some (v, c1)
    /\ truthy v = true
    /\ Utf16.get (Utf16.users c1) key = v.
Proof.
  intros Hkey. rewrite getUser16_key, Hkey.
  destruct (truthy (Utf16.get (Utf16.users c) key)) eqn:Ht.
  - by eexists _, _.
  - eexists _, _. split; [reflexivity|]. split; [reflexivity|].
    cbn [Utf16.users]. unfold Utf16.get. by rewrite lookup_insert_eq.
Qed.

(** A call under a key that reads truthy returns what is read and changes
    nothing. *)
Lemma getUser16_hit username c key :
  Utf16.userKey toLowerCase username = Some key ->
  truthy (Utf16.get (Utf16.users c) key) = true ->
  Utf16.getUser toLowerCase username c = Some (Utf16.get (Utf16.users c) key, c).
Proof. intros Hkey Ht. by rewrite getUser16_key, Hkey, Ht. Qed.

(** An entry that reads truthy is not touched by later calls. *)
Lemma getUser16_keeps username c v c' key :
  truthy (Utf16.get (Utf16.users c) key) = true ->
  Utf16.getUser toLowerCase username c = Some (v, c') ->
  Utf16.get (Utf16.users c') key = Utf16.get (Utf16.users c) key.
Proof.
  intros Hkey. rewrite getUser16_key.
  destruct (Utf16.userKey toLowerCase username) as [k|]; [|discriminate].
  destruct (truthy (Utf16.get (Utf16.users c) k)) eqn:Ht.
  - by intros [= _ <-].
  - intros [= _ <-]. cbn [Utf16.users]. unfold Utf16.get.
    rewrite lookup_insert_ne; [reflexivity|].
    intros Heq. rewrite Heq in Ht. congruence.
Qed.

Lemma getUsers16_keeps names c c' key :
  truthy (Utf16.get (Utf16.users c) key) = true ->
  Utf16.getUsers toLowerCase names c = Some c' ->
  Utf16.get (Utf16.users c') key = Utf16.get (Utf16.users c) key.
Proof.
  revert c. induction names as [|n names IH]; intros c Hkey;
    cbn [Utf16.getUsers].
  - by intros [= <-].
  - destruct (Utf16.getUser toLowerCase n c) as [[v c1]|] eqn:Hn; [|discriminate].
    intros Hrest. pose proof (getUser16_keeps _ _ _ _ _ Hkey Hn) as Hk.
    rewrite (IH c1) by (by rewrite ?Hk). exact Hk.
Qed.

Lemma getUser16_total username c :
  Utf16.named toLowerCase username -> is_Some (Utf16.getUser toLowerCase username c).
Proof.
  intros [key Hkey]. rewrite getUser16_key, Hkey.
  by destruct (truthy _).
Qed.

Lemma getUsers16_total names c :
  Forall (Utf16.named toLowerCase) names -> is_Some (Utf16.getUsers toLowerCase names c).
Proof.
  intros Hn. revert c. induction Hn as [|n names Hn _ IH]; intros c;
    cbn [Utf16.getUsers]; [done|].
  destruct (getUser16_total n c Hn) as [[v c1] ->]. apply IH.
Qed.

(** Two calls under one key, with any calls in between, return the same
    truthy value, which the cache holds all along. *)
Lemma getUser16_same_key u1 u2 between c key :
  Utf16.userKey toLowerCase u1 = Some key -> Utf16.userKey toLowerCase u2 = Some key ->
  Forall (Utf16.named toLowerCase) between ->
  Utf16.sameInstance toLowerCase u1 u2 between c.
Proof.
  intros H1 H2 Hb.
  destruct (getUser16_first u1 c key H1) as (v & c1 & Hg1 & Ht & Hc1).
  destruct (getUsers16_total between c1 Hb) as [c2 Hg].
  assert (Hc2 : Utf16.get (Utf16.users c2) key = v).
  { rewrite (getUsers16_keeps between c1 c2) by (by rewrite ?Hc1).
    exact Hc1. }
  exists v, key, c1, c2. repeat split; try assumption.
  rewrite (getUser16_hit u2 c2 key) by (by rewrite ?Hc2). by rewrite Hc2.
Qed.

(** What [getUser] returns is an object the cache holds. *)
Lemma getUser16_cachedObject username c key v c1 :
  Utf16.usersCached c ->
  Utf16.userKey toLowerCase username = Some key ->
  Utf16.getUser toLowerCase username c = Some (v, c1) ->
  Utf16.cachedObject v key c1 /\ Utf16.usersCached c1.
Proof.
  intros Hinv Hkey. rewrite getUser16_key, Hkey. unfold Utf16.get.
  destruct (Utf16.users c !! key) as [l|] eqn:Hl.
  - cbn [truthy]. intros [= <- <-]. split; [|exact Hinv].
    destruct (Hinv key l Hl) as [user Huser]. left. by exists l, user.
  - destruct (List.find _ Object_prototype) as [n|] eqn:Hfind.
    + cbn [truthy]. intros [= <- <-]. split; [|exact Hinv].
      apply List.find_some in Hfind as [Hin Hn].
      apply bool_decide_eq_true_1 in Hn.
      right. exists n. repeat split; try assumption.
      by apply list_elem_of_In.
    + cbn [truthy]. intros [= <- <-]. split.
      * left. eexists _, _. split; [reflexivity|].
        cbn [Utf16.users Utf16.heap]. rewrite lookup_insert_eq.
        split; [reflexivity|]. apply list_lookup_middle. reflexivity.
      * intros k u. cbn [Utf16.users Utf16.heap].
        destruct (decide (key = k)) as [<-|Hne].
        -- rewrite lookup_insert_eq. intros [= <-].
           rewrite list_lookup_middle by reflexivity. done.
        -- rewrite lookup_insert_ne by assumption. intros Hk.
           destruct (Hinv k u Hk) as [user Hu]. exists user.
           by apply lookup_app_l_Some.
Qed.

(** The key of a name of code units up to U+00FF is in normal form. *)
Lemma userKey16_normalized username key :
  Utf16.lowersLatin1 toLowerCase ->
  Utf16.latin1 username -> Utf16.userKey toLowerCase username = Some key ->
  Utf16.normalized toLowerCase key.
Proof.
  intros Hlow Hu. rewrite userKey16_latin1 by assumption. intros [= <-].
  pose proof (clipped_latin1 _ Hu) as Hc.
  assert (Hlf : Utf16.LF ∉ Utf16.clipped username).
  { unfold Utf16.clipped. intros Hin. apply elem_of_take in Hin as (i & Hi & _).
    apply list_elem_of_lookup_2 in Hi.
    by apply first_line_no_sep in Hi. }
  assert (Hlen : (length (Utf16.clipped username) <= 28)%nat).
  { unfold Utf16.clipped. rewrite List.length_firstn. lia. }
  revert Hc Hlf Hlen. generalize (Utf16.clipped username) as s. clear -Hlow.
  intros s Hs Hlf Hlen. repeat split.
  - rewrite Hlow.
    + f_equal. rewrite <- !list_fmap_compose. apply list_fmap_ext.
      intros _ u _. cbn. apply simpleLower_idempotent.
    + unfold Utf16.latin1. apply Forall_fmap.
      eapply Forall_impl; [apply (underscored_latin1 _ Hs)|].
      intros u Hu. cbn. by apply simpleLower_latin1.
  - by rewrite !length_map.
  - intros Hin. apply list_elem_of_fmap in Hin as (y & Hy & Hiny).
    symmetry in Hy. apply (simpleLower_fixes 0x20) in Hy; [|reflexivity].
    subst y. apply list_elem_of_fmap in Hiny as (x & Hx & _).
    revert Hx. unfold Utf16.underscored.
    destruct (N.eqb_spec x Utf16.SPACE) as [->|Hne]; [discriminate|].
    intros Hx. by apply Hne.
  - intros Hin. apply list_elem_of_fmap in Hin as (y & Hy & Hiny).
    symmetry in Hy. apply (simpleLower_fixes 0x0A) in Hy; [|reflexivity].
    subst y. apply list_elem_of_fmap in Hiny as (x & Hx & Hinx).
    revert Hx. unfold Utf16.underscored.
    destruct (N.eqb_spec x Utf16.SPACE) as [->|]; [discriminate|].
    intros <-. contradiction.
Qed.

Lemma getUser16_usersNormalized username c v c' :
  Utf16.lowersLatin1 toLowerCase ->
  Utf16.latin1 username -> Utf16.usersNormalized toLowerCase c ->
  Utf16.getUser toLowerCase username c = Some (v, c') ->
  Utf16.usersNormalized toLowerCase c'.
Proof.
  intros Hlow Hu Hinv. rewrite getUser16_key.
  destruct (Utf16.userKey toLowerCase username) as [k|] eqn:Hk; [|discriminate].
  destruct (truthy _); intros [= _ <-]; [exact Hinv|].
  intros key l. cbn [Utf16.users].
  destruct (decide (k = key)) as [<-|Hne].
  - intros _. by apply (userKey16_normalized username).
  - rewrite lookup_insert_ne by assumption. apply Hinv.
Qed.

Lemma latin1_named username :
  Utf16.lowersLatin1 toLowerCase ->
  Utf16.latin1 username -> Utf16.named toLowerCase username.
Proof. intros Hlow Hu. unfold Utf16.named. by rewrite userKey16_latin1. Qed.

Lemma getUsers16_normalized names c c' :
  Utf16.lowersLatin1 toLowerCase ->
  Forall Utf16.latin1 names -> Utf16.usersNormalized toLowerCase c ->
  Utf16.getUsers toLowerCase names c = Some c' ->
  Utf16.usersNormalized toLowerCase c'.
Proof.
  intros Hlow Hn. revert c. induction Hn as [|n names Hn _ IH]; intros c Hc;
    cbn [Utf16.getUsers].
  - by intros [= <-].
  - destruct (Utf16.getUser toLowerCase n c) as [[v c1]|] eqn:Hg; [|discriminate].
    apply IH. by apply (getUser16_usersNormalized n c v c1).
Qed.

(** A key in normal form is its own key. *)
Lemma userKey16_fixed key :
  Utf16.normalized toLowerCase key -> Utf16.userKey toLowerCase key = Some key.
Proof.
  intros (Hlow & Hlen & Hsp & Hlf). rewrite userKey16_clipped.
  assert (Hclip : Utf16.clipped key = key).
  { unfold Utf16.clipped.
    assert (Hline : Utf16.split Utf16.LF key = [key]).
    { rewrite split16_step. cbv zeta.
      by rewrite (proj2 (indexOf16_none Utf16.LF key)). }
    rewrite Hline. cbn [head default]. by apply take_ge. }
  rewrite Hclip.
  assert (Hus : map Utf16.underscored key = key).
  { clear -Hsp. induction key as [|x key IH]; [reflexivity|].
    apply not_elem_of_cons in Hsp as [Hx Hsp]. cbn [map].
    rewrite IH by assumption. unfold Utf16.underscored.
    destruct (N.eqb_spec x Utf16.SPACE); congruence. }
  by rewrite Hus.
Qed.

End UsersProofs.

(** Two names that differ by letter case only, and yet two users: the
    capital sigma at the end of the first name is lowered to the final
    sigma U+03C2, the small sigma of the second name stays U+03C3. *)
Lemma greek_names_two_users :
  Utf16.sameName (Utf16.clipped [0x391; 0x3A3]%N)
    (Utf16.clipped [0x3B1; 0x3C3]%N) = true
  /\ Utf16.userKey Utf16.unicodeLower [0x391; 0x3A3]%N =
       Some [0x3B1; 0x3C2]%N
  /\ Utf16.userKey Utf16.unicodeLower [0x3B1; 0x3C3]%N =
       Some [0x3B1; 0x3C3]%N
  /\ match Utf16.getUser Utf16.unicodeLower [0x391; 0x3A3]%N Utf16.newClient
     with
     | Some (v1, c1) =>
         match Utf16.getUser Utf16.unicodeLower [0x3B1; 0x3C3]%N c1 with
         | Some (v2, c2) =>
             v1 = VRef 0 /\ v2 = VRef 1 /\ v1 <> v2
             /\ Utf16.heap c2 =
                  [Utf16.mkUser [0x391; 0x3A3]%N None;
                   Utf16.mkUser [0x3B1; 0x3C3]%N None]
         | None => False
         end
     | None => False
     end.
Proof. vm_compute. repeat split. discriminate. Qed.

(** C4, as the code has it: two names of code units up to U+00FF that,
    cut at the first newline and clipped to 28 code units, differ by
    letter case or by spaces against underscores only, get the same object
    from [getUser], whatever other names are looked up between the two
    calls; and so do any two names with the same normalized key, whatever
    their code units and whatever [toLowerCase] makes of them. The value
    returned is truthy and is what the cache yields under the key from
    the first call on; it is a user object of the heap that the cache
    holds, or the member of [Object.prototype] the key names. *)
Theorem getUser16_same_instance (toLowerCase : list N -> option (list N))
    (u1 u2 : list N) (between : list (list N)) (c : Utf16.Client) :
  Forall (Utf16.named toLowerCase) between ->
  (Utf16.lowersLatin1 toLowerCase ->
   Utf16.latin1 u1 -> Utf16.latin1 u2 ->
   Utf16.sameName (Utf16.clipped u1) (Utf16.clipped u2) = true ->
   Utf16.sameInstance toLowerCase u1 u2 between c)
  /\ (forall key,
        Utf16.userKey toLowerCase u1 = Some key ->
        Utf16.userKey toLowerCase u2 = Some key ->
        Utf16.sameInstance toLowerCase u1 u2 between c)
  /\ (forall key v c1,
        Utf16.usersCached c ->
        Utf16.userKey toLowerCase u1 = Some key ->
        Utf16.getUser toLowerCase u1 c = Some (v, c1) ->
        Utf16.cachedObject v key c1 /\ Utf16.usersCached c1).
Proof.
  intros Hb. split; [|split].
  - intros Hlow H1 H2 Hsame.
    apply (getUser16_same_key toLowerCase u1 u2 between c
             (map Utf16.simpleLower
                (map Utf16.underscored (Utf16.clipped u1))));
      [by apply userKey16_latin1| |assumption].
    rewrite (sameName16_key _ _ Hsame). by apply userKey16_latin1.
  - intros key H1 H2.
    by apply (getUser16_same_key toLowerCase u1 u2 between c key).
  - intros key v c1 Hinv Hkey Hget.
    by apply (getUser16_cachedObject toLowerCase u1 c key v c1).
Qed.

Lemma getUser16_same_instance_witness :
  Utf16.sameInstance Utf16.unicodeLower
    (Utf16.ofString "Foo Bar") (Utf16.ofString "foo_bar")
    [[0x391; 0x3A3]%N] Utf16.newClient
  /\ Utf16.sameInstance Utf16.unicodeLower
       [0x391; 0x3A3]%N [0x3B1; 0x3C2]%N [] Utf16.newClient
  /\ (Utf16.cachedObject (VRef 0) (Utf16.ofString "foo_bar")
        (Utf16.mkClient {[ Utf16.ofString "foo_bar" := 0%nat ]}
           [Utf16.mkUser (Utf16.ofString "Foo_Bar") None])
      /\ Utf16.usersCached
           (Utf16.mkClient {[ Utf16.ofString "foo_bar" := 0%nat ]}
              [Utf16.mkUser (Utf16.ofString "Foo_Bar") None])).
Proof.
  split; [|split].
  - apply (getUser16_same_instance Utf16.unicodeLower
             (Utf16.ofString "Foo Bar") (Utf16.ofString "foo_bar")
             [[0x391; 0x3A3]%N] Utf16.newClient).
    + repeat constructor. by exists [0x3B1; 0x3C2]%N.
    + exact unicodeLower_latin1.
    + vm_compute. repeat constructor.
    + vm_compute. repeat constructor.
    + reflexivity.
  - apply (proj1 (proj2 (getUser16_same_instance Utf16.unicodeLower
                           [0x391; 0x3A3]%N [0x3B1; 0x3C2]%N [] Utf16.newClient
                           ltac:(constructor)))
             [0x3B1; 0x3C2]%N); reflexivity.
  - apply (proj2 (proj2 (getUser16_same_instance Utf16.unicodeLower
                           (Utf16.ofString "Foo Bar")
                           (Utf16.ofString "foo_bar") [] Utf16.newClient
                           ltac:(constructor)))
             (Utf16.ofString "foo_bar") (VRef 0)).
    + intros key u Hk. cbn in Hk. by rewrite lookup_empty in Hk.
    + reflexivity.
    + reflexivity.
Defined.

(** The object returned for a new name is a new user that keeps the
    spelling it was first asked for. *)
Example getUser16_new_user :
  Utf16.getUser Utf16.unicodeLower (Utf16.ofString "Foo Bar")
    Utf16.newClient =
    Some (VRef 0,
          Utf16.mkClient {[ Utf16.ofString "foo_bar" := 0%nat ]}
            [Utf16.mkUser (Utf16.ofString "Foo_Bar") None]).
Proof. reflexivity. Qed.

Example getUser16_inherited :
  Utf16.getUser Utf16.unicodeLower (Utf16.ofString "constructor")
    Utf16.newClient =
    Some (VNative "constructor", Utf16.newClient).
Proof. reflexivity. Qed.

(** A key of 56 code units: the name is clipped to 28 code units before
    it is lowered, and lowering U+0130 gives two code units. What is
    stored is not in normal form. *)
Lemma dotted_capital_key_too_long :
  let username := replicate 28 0x130%N in
  let key := concat (replicate 28 [0x69; 0x307]%N) in
  Utf16.getUser Utf16.unicodeLower username Utf16.newClient =
    Some (VRef 0,
          Utf16.mkClient {[ key := 0%nat ]} [Utf16.mkUser username None])
  /\ length key = 56%nat
  /\ ~ Utf16.normalized Utf16.unicodeLower key
  /\ ~ Utf16.usersNormalized Utf16.unicodeLower
         (Utf16.mkClient {[ key := 0%nat ]} [Utf16.mkUser username None]).
Proof.
  cbv zeta. split; [reflexivity|]. split; [reflexivity|].
  assert (Hnot : ~ Utf16.normalized Utf16.unicodeLower
                     (concat (replicate 28 [0x69; 0x307]%N))).
  { intros (_ & Hlen & _). vm_compute in Hlen. lia. }
  split; [exact Hnot|].
  intros Hinv. apply Hnot. apply (Hinv _ 0%nat). cbn [Utf16.users].
  apply lookup_singleton_eq.
Qed.

(** C10, as the code has it: the users cache of a new client is empty,
    and as long as the names given to [getUser], the one function that
    stores into it, are made of code units up to U+00FF, [getUser] returns
    and the keys of the cache are in normal form: lower case, 28 code
    units at most, no space, no newline. *)
Theorem users16_keys_normalized :
  (forall u p host port apiKey c,
     constructor u p host port apiKey = Ok c -> users c = ∅)
  /\ (forall toLowerCase, Utf16.usersNormalized toLowerCase Utf16.newClient)
  /\ (forall toLowerCase username c,
        Utf16.lowersLatin1 toLowerCase ->
        Utf16.latin1 username ->
        Utf16.usersNormalized toLowerCase c ->
        exists v c',
          Utf16.getUser toLowerCase username c = Some (v, c')
          /\ Utf16.usersNormalized toLowerCase c').
Proof.
  split; [|split].
  - intros u p host port apiKey c. unfold constructor.
    destruct (_ || _); [discriminate|]. by intros [= <-].
  - intros toLowerCase key l Hk. cbn in Hk. by rewrite lookup_empty in Hk.
  - intros toLowerCase username c Hlow Hu Hinv.
    destruct (getUser16_total toLowerCase username c
                (latin1_named toLowerCase _ Hlow Hu)) as [[v c'] Hget].
    exists v, c'. split; [exact Hget|].
    by apply (getUser16_usersNormalized toLowerCase username c v c').
Qed.

Lemma users16_keys_normalized_witness :
  users offline = ∅
  /\ Utf16.usersNormalized Utf16.unicodeLower Utf16.newClient
  /\ exists v c',
       Utf16.getUser Utf16.unicodeLower (Utf16.ofString "Foo Bar")
         Utf16.newClient = Some (v, c')
       /\ Utf16.usersNormalized Utf16.unicodeLower c'.
Proof.
  split; [|split].
  - apply (proj1 users16_keys_normalized (Some "me") (Some "secret")
             None None None offline). reflexivity.
  - apply (proj1 (proj2 users16_keys_normalized)).
  - apply (proj2 (proj2 users16_keys_normalized) Utf16.unicodeLower
             (Utf16.ofString "Foo Bar") Utf16.newClient).
    + exact unicodeLower_latin1.
    + vm_compute. repeat constructor.
    + apply (proj1 (proj2 users16_keys_normalized)).
Defined.

(** X3: a key of the users cache that is in normal form is its own
    normalization: [getUser] called with it returns the object cached
    under it and changes nothing. *)
Theorem getUser16_finds_cached (toLowerCase : list N -> option (list N))
    (key : list N) (u : loc) (c : Utf16.Client) :
  Utf16.normalized toLowerCase key ->
  Utf16.users c !! key = Some u ->
  Utf16.getUser toLowerCase key c = Some (VRef u, c).
Proof.
  intros Hnorm Hkey.
  rewrite (getUser16_hit toLowerCase key c key
             (userKey16_fixed toLowerCase key Hnorm));
    unfold Utf16.get; by rewrite Hkey.
Qed.

Lemma getUser16_finds_cached_witness :
  Utf16.getUser Utf16.unicodeLower (Utf16.ofString "foo_bar")
    (Utf16.mkClient {[ Utf16.ofString "foo_bar" := 0%nat ]}
       [Utf16.mkUser (Utf16.ofString "Foo_Bar") None]) =
  Some (VRef 0,
        Utf16.mkClient {[ Utf16.ofString "foo_bar" := 0%nat ]}
          [Utf16.mkUser (Utf16.ofString "Foo_Bar") None]).
Proof.
  apply (getUser16_finds_cached Utf16.unicodeLower
           (Utf16.ofString "foo_bar") 0%nat).
  - repeat split.
    + vm_compute. lia.
    + vm_compute. intros Hin. repeat (apply elem_of_cons in Hin as [Hin|Hin];
        [discriminate Hin|]). by apply elem_of_nil in Hin.
    + vm_compute. intros Hin. repeat (apply elem_of_cons in Hin as [Hin|Hin];
        [discriminate Hin|]). by apply elem_of_nil in Hin.
  - reflexivity.
Defined.

(** The key stored for a name of 28 times U+0130 is not in normal form:
    asking for that key gives a second user. *)
Example getUser16_key_not_found :
  let username := replicate 28 0x130%N in
  let key := concat (replicate 28 [0x69; 0x307]%N) in
  match Utf16.getUser Utf16.unicodeLower username Utf16.newClient with
  | Some (v1, c1) =>
      Utf16.users c1 !! key = Some 0%nat
      /\ (fst <$> Utf16.getUser Utf16.unicodeLower key c1) = Some (VRef 1)
  | None => False
  end.
Proof. vm_compute. by split. Qed.

(** ** The two embeddings of the normalization agree up to U+00FF *)

Lemma ofString_cons c s :
  Utf16.ofString (String c s) = N_of_ascii c :: Utf16.ofString s.
Proof. reflexivity. Qed.

Lemma ofString_latin1 s : Utf16.latin1 (Utf16.ofString s).
Proof.
  induction s as [|c s IH]; [constructor|].
  rewrite ofString_cons. constructor; [|exact IH].
  destruct c as [[] [] [] [] [] [] [] []]; reflexivity.
Qed.

Lemma simpleLower_lowerChar c :
  Utf16.simpleLower (N_of_ascii c) = N_of_ascii (Js.lowerChar c).
Proof. destruct c as [[] [] [] [] [] [] [] []]; reflexivity. Qed.

Lemma underscored_ascii c :
  Utf16.underscored (N_of_ascii c) =
    N_of_ascii (if Ascii.eqb c " " then "_"%char else c).
Proof. destruct c as [[] [] [] [] [] [] [] []]; reflexivity. Qed.

Lemma newline_ascii c : N.eqb (N_of_ascii c) Utf16.LF = Ascii.eqb c Js.LF.
Proof. destruct c as [[] [] [] [] [] [] [] []]; reflexivity. Qed.

Lemma ofString_toLowerCase s :
  map Utf16.simpleLower (Utf16.ofString s) =
    Utf16.ofString (Js.toLowerCase s).
Proof.
  induction s as [|c s IH]; [reflexivity|].
  cbn [Js.toLowerCase]. rewrite !ofString_cons. cbn [map].
  by rewrite simpleLower_lowerChar, IH.
Qed.

Lemma ofString_replace s :
  map Utf16.underscored (Utf16.ofString s) =
    Utf16.ofString (Js.replaceAll " " "_" s).
Proof.
  induction s as [|c s IH]; [reflexivity|].
  rewrite replace_space_cons, !ofString_cons. cbn [map].
  by rewrite underscored_ascii, IH.
Qed.

Lemma ofString_take n s :
  take n (Utf16.ofString s) = Utf16.ofString (Js.take n s).
Proof.
  revert n. induction s as [|c s IH]; intros [|n]; try reflexivity.
  cbn [Js.take]. rewrite !ofString_cons. cbn [take]. by rewrite IH.
Qed.

Lemma ofString_first_line s :
  default [] (head (Utf16.split Utf16.LF (Utf16.ofString s))) =
    Utf16.ofString (default "" (head (Js.split Js.LF s))).
Proof.
  induction s as [|c s IH]; [reflexivity|].
  rewrite ofString_cons. cbn [Utf16.split Js.split].
  rewrite newline_ascii. destruct (Ascii.eqb c Js.LF); [reflexivity|].
  pose proof (split_nonempty Js.LF s) as H1.
  pose proof (split16_nonempty Utf16.LF (Utf16.ofString s)) as H2.
  destruct (Js.split Js.LF s) as [|h l]; [congruence|].
  destruct (Utf16.split Utf16.LF (Utf16.ofString s)) as [|h' l'];
    [congruence|].
  cbn [head default id] in IH |- *. by rewrite ofString_cons, IH.
Qed.

Lemma ofString_clipped s :
  Utf16.clipped (Utf16.ofString s) = Utf16.ofString (clipped s).
Proof.
  unfold Utf16.clipped, clipped. by rewrite ofString_first_line, ofString_take.
Qed.

(** On a name of code units up to U+00FF the key is the one computed
    over the strings of the first part. *)
Lemma userKey_agrees toLowerCase s :
  Utf16.lowersLatin1 toLowerCase ->
  Utf16.userKey toLowerCase (Utf16.ofString s) =
    Some (Utf16.ofString (userKey s)).
Proof.
  intros Hlow.
  rewrite userKey16_latin1 by (assumption || apply ofString_latin1).
  rewrite userKey_clipped, ofString_clipped, ofString_replace.
  by rewrite ofString_toLowerCase.
Qed.

Lemma N_of_ascii_eqb a b :
  N.eqb (N_of_ascii a) (N_of_ascii b) = Ascii.eqb a b.
Proof.
  destruct (Ascii.eqb_spec a b) as [->|Hne]; [apply N.eqb_refl|].
  apply N.eqb_neq. intros Heq. apply Hne.
  by rewrite <- (ascii_N_embedding a), <- (ascii_N_embedding b), Heq.
Qed.

Lemma sameChar_agrees a b :
  Utf16.sameChar (N_of_ascii a) (N_of_ascii b) = sameChar a b.
Proof.
  unfold Utf16.sameChar, sameChar.
  rewrite !simpleLower_lowerChar, N_of_ascii_eqb.
  change Utf16.SPACE with (N_of_ascii " ").
  change Utf16.LOW_LINE with (N_of_ascii "_").
  by rewrite !N_of_ascii_eqb.
Qed.

(** And two names are alike in one embedding when they are in the
    other. *)
Lemma sameName_agrees s t :
  Utf16.sameName (Utf16.ofString s) (Utf16.ofString t) = sameName s t.
Proof.
  revert t. induction s as [|a s IH]; intros [|b t]; try reflexivity.
  rewrite !ofString_cons. cbn [Utf16.sameName sameName].
  by rewrite IH, sameChar_agrees.
Qed.

(** ** The two embeddings of the listener agree on ASCII *)

Lemma ofString_app s t :
  Utf16.ofString (s ++ t) = (Utf16.ofString s ++ Utf16.ofString t)%list.
Proof.
  induction s as [|c s IH]; [reflexivity|].
  rewrite append_cons, !ofString_cons. cbn [app]. by rewrite IH.
Qed.

Lemma carriage_return_ascii c :
  N.eqb (N_of_ascii c) Utf16.CR = Ascii.eqb c Js.CR.
Proof. change Utf16.CR with (N_of_ascii Js.CR). apply N_of_ascii_eqb. Qed.

Lemma ofString_strip s :
  Utf16.replaceAll Utf16.CR [] (Utf16.ofString s) =
    Utf16.ofString (Js.replaceAll Js.CR "" s).
Proof.
  induction s as [|c s IH]; [reflexivity|].
  rewrite ofString_cons. cbn [Utf16.replaceAll Js.replaceAll].
  rewrite carriage_return_ascii, IH.
  destruct (Ascii.eqb c Js.CR); reflexivity.
Qed.

Lemma ofString_split s :
  Utf16.split Utf16.LF (Utf16.ofString s) =
    map Utf16.ofString (Js.split Js.LF s).
Proof.
  induction s as [|c s IH]; [reflexivity|].
  rewrite ofString_cons. cbn [Utf16.split Js.split].
  rewrite newline_ascii, IH. destruct (Ascii.eqb c Js.LF); [reflexivity|].
  pose proof (split_nonempty Js.LF s).
  destruct (Js.split Js.LF s) as [|h l]; [congruence|]. reflexivity.
Qed.

Lemma removelast_map {A B} (f : A -> B) l :
  removelast (map f l) = map f (removelast l).
Proof.
  induction l as [|x [|y l] IH]; try reflexivity.
  cbn [map removelast] in IH |- *. by rewrite IH.
Qed.

Lemma last_map {A B} (f : A -> B) l d :
  List.last (map f l) (f d) = f (List.last l d).
Proof.
  induction l as [|x [|y l] IH]; try reflexivity. exact IH.
Qed.

(** A string of ASCII characters, and its bytes. *)
Lemma ofString_ascii s :
  Forall (fun c => (N_of_ascii c < 0x80)%N) (list_ascii_of_string s) ->
  Utf16.asciiBytes (Utf16.ofString s).
Proof. intros Hs. unfold Utf16.asciiBytes, Utf16.ofString. by apply Forall_fmap. Qed.

Lemma decoded_ofString toString chunks :
  Utf16.decodesAscii toString ->
  Forall (fun s => Utf16.asciiBytes (Utf16.ofString s)) chunks ->
  Utf16.decoded toString (map Utf16.ofString chunks) =
    Utf16.ofString (stream chunks).
Proof.
  intros Hdec. induction 1 as [|s chunks Hs _ IH]; [reflexivity|].
  unfold Utf16.decoded in *. cbn [map concat stream fold_right].
  fold (stream chunks). by rewrite Hdec, IH, ofString_app.
Qed.

(** On reads of ASCII bytes the listener that decodes them hands over
    the lines, and keeps the rest, that the listener of the first part
    makes of their text. *)
Lemma listener_agrees toString chunks :
  Utf16.decodesAscii toString ->
  Forall (fun s => Utf16.asciiBytes (Utf16.ofString s)) chunks ->
  exists lines rest,
    onDataAll record chunks "" [] = Some (Ok rest, lines)
    /\ Utf16.onDataAll toString Utf16.record (map Utf16.ofString chunks)
         [] [] =
         Some (Ok (Utf16.ofString rest), map Utf16.ofString lines).
Proof.
  intros Hdec Hascii. eexists _, _. split; [apply framer_records_lines|].
  rewrite listener_records_lines, decoded_ofString by assumption.
  rewrite ofString_strip.
  unfold Utf16.partialLine, Utf16.completeLines, partialLine, completeLines.
  rewrite ofString_split, removelast_map.
  by rewrite (last_map Utf16.ofString _ "").
Qed.
